(** * my-cli-prettier: transport sessions, catalog cache and schema mapping

    A shallow embedding of the TypeScript sources
      - src/config/cache.ts            (module [Cache])
      - src/utils/schema-to-options.ts (module [SchemaToOptions])
      - src/mcp/client.ts, stdio-client.ts, http-client.ts (module [Mcp])
      - src/commands/ToolCommand.ts    (module [ToolCommand])
    together with the part of the JavaScript runtime they rely on
    (module [Js]).  Effectful code is written in a state-and-exception
    monad; the file system is a finite map from paths to contents. *)

From Stdlib Require Import ZArith Bool List Ascii String DecimalString Lia.
From stdpp Require Import base option gmap strings list.

Import ListNotations.
Local Open Scope Z_scope.
Local Open Scope string_scope.

(** ** Outcomes and the state-and-exception monad *)

(** What a JavaScript [throw] carries.  The sources only ever ask whether
    the thrown value is an [Error] and, if so, for its [message];
    anything else is rendered with [String(...)]. *)
Inductive Thrown : Type :=
| JsError (message : string)
| JsNonError (rendered : string).

Inductive Outcome (A : Type) : Type :=
| Returned (a : A)
| Threw (e : Thrown).
Arguments Returned {A} a.
Arguments Threw {A} e.

Definition Eff (S A : Type) : Type := S -> Outcome A * S.

Definition ret {S A} (a : A) : Eff S A := fun s => (Returned a, s).

Definition throw {S A} (e : Thrown) : Eff S A := fun s => (Threw e, s).

Definition bind {S A B} (m : Eff S A) (k : A -> Eff S B) : Eff S B :=
  fun s =>
    match m s with
    | (Returned a, s') => k a s'
    | (Threw e, s') => (Threw e, s')
    end.

(** [try { m } catch (e) { h e }] *)
Definition try_catch {S A} (m : Eff S A) (h : Thrown -> Eff S A) : Eff S A :=
  fun s =>
    match m s with
    | (Returned a, s') => (Returned a, s')
    | (Threw e, s') => h e s'
    end.

(** [try { m } finally { f }]: the finaliser always runs; when it throws,
    its exception replaces the outcome of the protected block. *)
Definition try_finally {S A} (m : Eff S A) (f : Eff S unit) : Eff S A :=
  fun s =>
    let '(r, s') := m s in
    match f s' with
    | (Returned _, s'') => (r, s'')
    | (Threw e, s'') => (Threw e, s'')
    end.

Definition gets {S A} (f : S -> A) : Eff S A := fun s => (Returned (f s), s).
Definition modify {S} (f : S -> S) : Eff S unit := fun s => (Returned tt, f s).

Notation "'let*' x ':=' m 'in' k" := (bind m (fun x => k))
  (at level 10, x name, m at level 100, k at level 200).
Notation "'run' m 'then' k" := (bind m (fun _ => k))
  (at level 10, m at level 100, k at level 200).

(** ** The JavaScript values and builtins used by the sources *)

Module Js.

(** Strings are sequences of code units; a Rocq [string] covers the code
    units below 256.  Numbers are the integer-valued doubles (time stamps,
    counts, orders) together with [NaN], which the coercions produce. *)
Inductive number : Type :=
| NaN
| Num (z : Z).

#[warnings="-register-all"]
Inductive value : Type :=
| Undefined
| Null
| Bool (b : bool)
| Number (n : number)
| Str (s : string)
| Array (items : list value)
| Object (fields : list (string * value)).

(** Plain objects keep their own properties in enumeration order. *)
Definition object (V : Type) : Type := list (string * V).

Fixpoint obj_get {V} (o : object V) (k : string) : option V :=
  match o with
  | [] => None
  | (k', v) :: rest => if String.eqb k' k then Some v else obj_get rest k
  end.

(** [o[k] = v] for a key other than [__proto__]: overwrite in place, or
    append a new own property.  An assignment to [__proto__] sets the
    prototype of a plain object and adds no property; statements about
    the own keys of an object built by assignment exclude that key. *)
Fixpoint obj_set {V} (o : object V) (k : string) (v : V) : object V :=
  match o with
  | [] => [(k, v)]
  | (k', v') :: rest =>
      if String.eqb k' k then (k', v) :: rest else (k', v') :: obj_set rest k v
  end.

Definition keys {V} (o : object V) : list string := map fst o.

(** Builtins of the runtime that are not part of the repository. *)
Class Runtime : Type := {
  (** [JSON.parse]; [None] when it throws a [SyntaxError] *)
  JSON_parse : string -> option value;
  (** the global [parseFloat] *)
  parseFloat : string -> number;
  (** [Number(s)] on a string *)
  StringToNumber : string -> number;
  (** [String(n)] on a number *)
  NumberToString : number -> string
}.

Definition is_nullish (v : value) : bool :=
  match v with
  | Undefined | Null => true
  | _ => false
  end.

(** Truthiness, as used by [if], [!], [&&] and [||]. *)
Definition truthy (v : value) : bool :=
  match v with
  | Undefined | Null => false
  | Bool b => b
  | Number NaN => false
  | Number (Num z) => negb (z =? 0)%Z
  | Str s => negb (String.eqb s "")
  | Array _ | Object _ => true
  end.

Definition truthy_string (s : string) : bool := negb (String.eqb s "").

Fixpoint join (sep : string) (parts : list string) : string :=
  match parts with
  | [] => ""
  | [p] => p
  | p :: rest => p +:+ sep +:+ join sep rest
  end.

Section WithRuntime.
Context {rt : Runtime}.

(** [String(v)] *)
Fixpoint ToString (v : value) : string :=
  match v with
  | Undefined => "undefined"
  | Null => "null"
  | Bool true => "true"
  | Bool false => "false"
  | Number n => NumberToString n
  | Str s => s
  | Array items =>
      join "," (map (fun x => if is_nullish x then "" else ToString x) items)
  | Object _ => "[object Object]"
  end.

(** The numeric coercion applied by the arithmetic operators. *)
Definition ToNumber (v : value) : number :=
  match v with
  | Undefined => NaN
  | Null => Num 0
  | Bool true => Num 1
  | Bool false => Num 0
  | Number n => n
  | Str s => StringToNumber s
  | Array _ | Object _ => StringToNumber (ToString v)
  end.

End WithRuntime.

Definition sub (a b : number) : number :=
  match a, b with
  | Num x, Num y => Num (x - y)
  | _, _ => NaN
  end.

(** [a < b]; every comparison with [NaN] is false. *)
Definition lt (a b : number) : bool :=
  match a, b with
  | Num x, Num y => (x <? y)%Z
  | _, _ => false
  end.

(** Property read [v.k] on parsed JSON, for a name [k] that is neither an
    index nor [length] nor inherited from a prototype (the sources read
    [cachedAt] and [tools]).  Reading a property of [undefined] or [null]
    throws a [TypeError]. *)
Definition get_prop {S} (v : value) (k : string) : Eff S value :=
  match v with
  | Undefined => throw (JsError "Cannot read properties of undefined")
  | Null => throw (JsError "Cannot read properties of null")
  | Object fields => ret (default Undefined (obj_get fields k))
  | _ => ret Undefined
  end.

(** [s.includes(sub)] *)
Fixpoint starts_with (p s : string) : bool :=
  match p, s with
  | EmptyString, _ => true
  | String a p', String b s' => Ascii.eqb a b && starts_with p' s'
  | String _ _, EmptyString => false
  end.

Fixpoint includes (s sub : string) : bool :=
  starts_with sub s ||
  match s with
  | EmptyString => false
  | String _ s' => includes s' sub
  end.

End Js.

(** ** src/config/cache.ts *)

Module Cache.
Import Js.

(** [CliSettings] of src/config/types.ts *)
Record CliSettings : Type := {
  cacheEnabled : bool;
  cacheTtlMs : number
}.

(** 4 hours *)
Definition DEFAULT_SETTINGS : CliSettings :=
  {| cacheEnabled := true; cacheTtlMs := Num (4 * 60 * 60 * 1000) |}.

(** The part of [fs] the cache uses: regular files, by path. *)
Abbreviation FileSystem := (gmap string string).

Definition existsSync (p : string) : Eff FileSystem bool :=
  gets (fun fs : FileSystem => bool_decide (is_Some (fs !! p))).

Definition readFileSync (p : string) : Eff FileSystem string :=
  fun fs =>
    match fs !! p with
    | Some content => (Returned content, fs)
    | None => (Threw (JsError ("ENOENT: no such file or directory, open " +:+ p)), fs)
    end.

Definition unlinkSync (p : string) : Eff FileSystem unit :=
  fun fs =>
    match fs !! p with
    | Some _ => (Returned tt, delete p fs)
    | None => (Threw (JsError ("ENOENT: no such file or directory, unlink " +:+ p)), fs)
    end.

(** The class [[^a-zA-Z0-9_-]] is the complement of this one. *)
Definition is_name_char (c : ascii) : bool :=
  let n := nat_of_ascii c in
  ((97 <=? n)%nat && (n <=? 122)%nat)
  || ((65 <=? n)%nat && (n <=? 90)%nat)
  || ((48 <=? n)%nat && (n <=? 57)%nat)
  || Ascii.eqb c "_" || Ascii.eqb c "-".

(** [s.replace(/[^a-zA-Z0-9_-]/g, "_")] *)
Fixpoint sanitize (s : string) : string :=
  match s with
  | EmptyString => EmptyString
  | String c rest =>
      String (if is_name_char c then c else "_"%char) (sanitize rest)
  end.

(** The names the transform leaves alone. *)
Fixpoint all_name_chars (s : string) : bool :=
  match s with
  | EmptyString => true
  | String c rest => is_name_char c && all_name_chars rest
  end.

(** [path.join(dir, file)] for a normalised [dir] and a [file] that is a
    single path segment, which is all the cache ever joins. *)
Definition path_join (dir file : string) : string := dir +:+ "/" +:+ file.

Section WithEnvironment.
Context {rt : Runtime}.

(** [getCacheDir()] of src/config/loader.ts: the [cache] directory under
    the application's configuration directory. *)
Variable cacheDir : string.

Definition getCacheFilePath (serverName : string) : string :=
  let safeName := sanitize serverName in
  path_join cacheDir (safeName +:+ ".json").

(** [now] is what [Date.now()] returns during the call.  The parameter is
    declared a number, but receives whatever the parsed file holds. *)
Definition isCacheValid (now : Z) (cachedAt : value) (ttlMs : number) : bool :=
  lt (sub (Num now) (ToNumber cachedAt)) ttlMs.

Definition parse_json (content : string) : Eff FileSystem value :=
  match JSON_parse content with
  | Some v => ret v
  | None => throw (JsError "SyntaxError: JSON Parse error")
  end.

(** [settings] is the result of [getSettings()]; a result of [Undefined]
    is the source's [undefined]. *)
Definition getCachedTools (settings : CliSettings) (now : Z)
    (serverName : string) : Eff FileSystem value :=
  if negb (cacheEnabled settings) then ret Undefined
  else
    let cachePath := getCacheFilePath serverName in
    let* present := existsSync cachePath in
    if negb present then ret Undefined
    else
      try_catch
        (let* content := readFileSync cachePath in
         let* data := parse_json content in
         let* cachedAt := get_prop data "cachedAt" in
         if negb (isCacheValid now cachedAt (cacheTtlMs settings)) then
           run unlinkSync cachePath then ret Undefined
         else get_prop data "tools")
        (fun _ =>
           run try_catch (unlinkSync cachePath) (fun _ => ret tt)
           then ret Undefined).

(** [clearServerCache] *)
Definition clearServerCache (serverName : string) : Eff FileSystem bool :=
  let cachePath := getCacheFilePath serverName in
  let* present := existsSync cachePath in
  if negb present then ret false
  else try_catch (run unlinkSync cachePath then ret true) (fun _ => ret false).

(** The shape [CachedToolData] declares, read off a parsed file: an
    object with a numeric [cachedAt] and a [tools] array. *)
Definition well_formed_entry (data : value) (cachedAt : Z) (tools : list value) : Prop :=
  exists fields,
    data = Object fields
    /\ obj_get fields "cachedAt" = Some (Number (Num cachedAt))
    /\ obj_get fields "tools" = Some (Array tools).

Definition is_well_formed (data : value) : bool :=
  match data with
  | Object fields =>
      match obj_get fields "cachedAt", obj_get fields "tools" with
      | Some (Number (Num _)), Some (Array _) => true
      | _, _ => false
      end
  | _ => false
  end.

(** What the reads [data.cachedAt] and [data.tools] yield on a parsed
    file that is not [null]. *)
Definition cachedAt_of (data : value) : value :=
  match data with
  | Object fields => default Undefined (obj_get fields "cachedAt")
  | _ => Undefined
  end.

Definition tools_of (data : value) : value :=
  match data with
  | Object fields => default Undefined (obj_get fields "tools")
  | _ => Undefined
  end.

End WithEnvironment.
End Cache.

(** ** src/utils/schema-to-options.ts *)

Module SchemaToOptions.
Import Js.

(** [type?: string | string[]] *)
Inductive SchemaType : Type :=
| TypeAbsent
| TypeName (name : string)
| TypeNames (names : list string).

(** [JsonSchemaProperty]; [None] is an absent ([undefined]) member. *)
Record JsonSchemaProperty : Type := {
  prop_type : SchemaType;
  prop_description : option string;
  prop_default : option value;
  prop_enum : option (list string);
  prop_minimum : option number;
  prop_maximum : option number;
  prop_items : option (option string)
}.

(** The members of the SDK's [Tool] that the mapper reads.  An
    [inputSchema] of [None] stands for a missing or non-object schema. *)
Record InputSchema : Type := {
  properties : option (object JsonSchemaProperty);
  required : option (list string)
}.

Record Tool : Type := {
  tool_name : string;
  tool_title : option string;
  tool_description : option string;
  inputSchema : option InputSchema
}.

Inductive OptionType : Type := TString | TNumber | TBoolean | TArray.

(** terminatui's [OptionDef], with the members the mapper fills in. *)
Record OptionDef : Type := {
  opt_type : OptionType;
  opt_description : string;
  opt_required : bool;
  opt_order : nat;
  opt_default : option value;
  opt_enum : option (list string);
  opt_min : option number;
  opt_max : option number;
  opt_label : option string
}.

Definition OptionSchema : Type := object OptionDef.

Definition is_lower (c : ascii) : bool :=
  let n := nat_of_ascii c in ((97 <=? n)%nat && (n <=? 122)%nat).
Definition is_upper (c : ascii) : bool :=
  let n := nat_of_ascii c in ((65 <=? n)%nat && (n <=? 90)%nat).
Definition is_digit (c : ascii) : bool :=
  let n := nat_of_ascii c in ((48 <=? n)%nat && (n <=? 57)%nat).
(** the class [\w] *)
Definition is_word (c : ascii) : bool :=
  is_lower c || is_upper c || is_digit c || Ascii.eqb c "_".
Definition toUpperCase (c : ascii) : ascii :=
  if is_lower c then ascii_of_nat (nat_of_ascii c - 32) else c.

(** [s.replace(/_/g, " ")] *)
Fixpoint underscores_to_spaces (s : string) : string :=
  match s with
  | EmptyString => EmptyString
  | String c rest =>
      String (if Ascii.eqb c "_" then " "%char else c) (underscores_to_spaces rest)
  end.

(** [s.replace(/([a-z])([A-Z])/g, "$1 $2")] *)
Fixpoint split_camel (s : string) : string :=
  match s with
  | EmptyString => EmptyString
  | String a rest =>
      match rest with
      | String b _ =>
          if is_lower a && is_upper b
          then String a (String " " (split_camel rest))
          else String a (split_camel rest)
      | EmptyString => String a EmptyString
      end
  end.

(** [s.replace(/\b\w/g, c => c.toUpperCase())]; [prev] tells whether the
    preceding character is a word character. *)
Fixpoint capitalize_words (prev : bool) (s : string) : string :=
  match s with
  | EmptyString => EmptyString
  | String c rest =>
      String (if is_word c && negb prev then toUpperCase c else c)
             (capitalize_words (is_word c) rest)
  end.

Definition keyToLabel (key : string) : string :=
  let result := underscores_to_spaces key in
  let result := split_camel result in
  capitalize_words false result.

Definition jsonSchemaPropertyToOptionDef (key : string) (prop : JsonSchemaProperty)
    (isRequired : bool) (order : nat) : option OptionDef :=
  let jsonType :=
    match prop_type prop with
    | TypeNames names => head names
    | TypeName name => Some name
    | TypeAbsent => None
    end in
  let type :=
    match jsonType with
    | Some "string" => TString
    | Some "number" | Some "integer" => TNumber
    | Some "boolean" => TBoolean
    | Some "array" => TArray
    | _ => TString
    end in
  let description :=
    match prop_description prop with
    | Some d => if truthy_string d then d else "The " +:+ key +:+ " parameter"
    | None => "The " +:+ key +:+ " parameter"
    end in
  let has_default := bool_decide (is_Some (prop_default prop)) in
  let is_number := match type with TNumber => true | _ => false end in
  Some {|
    opt_type := type;
    opt_description := description;
    opt_required := if has_default then false else isRequired;
    opt_order := order;
    opt_default := prop_default prop;
    opt_enum :=
      match prop_enum prop with
      | Some (e :: es) => Some (e :: es)
      | _ => None
      end;
    opt_min := if is_number then prop_minimum prop else None;
    opt_max := if is_number then prop_maximum prop else None;
    opt_label := Some (keyToLabel key)
  |}.

(** One turn of the loop over [Object.entries(properties)]: the state is
    the schema built so far and the [order] counter. *)
Definition add_property (requiredSet : list string)
    (acc : OptionSchema * nat) (entry : string * JsonSchemaProperty)
    : OptionSchema * nat :=
  let '(schema, order) := acc in
  let '(key, prop) := entry in
  let has := existsb (String.eqb key) requiredSet in
  match jsonSchemaPropertyToOptionDef key prop has order with
  | Some optionDef => (obj_set schema key optionDef, S order)
  | None => (schema, S order)
  end.

Definition toolToOptionSchema (tool : Tool) : OptionSchema :=
  match inputSchema tool with
  | None => []
  | Some schema =>
      let requiredSet := default [] (required schema) in
      match properties schema with
      | None => []
      | Some props => fst (fold_left (add_property requiredSet) props ([], 0%nat))
      end
  end.

(** [s.split(",")] *)
Fixpoint split_on (sep : ascii) (s : string) : list string :=
  match s with
  | EmptyString => [EmptyString]
  | String c rest =>
      if Ascii.eqb c sep then EmptyString :: split_on sep rest
      else
        match split_on sep rest with
        | seg :: segs => String c seg :: segs
        | [] => [String c EmptyString]
        end
  end.

(** White space and line terminators among the code units below 256. *)
Definition is_space (c : ascii) : bool :=
  let n := nat_of_ascii c in
  ((9 <=? n)%nat && (n <=? 13)%nat) || (n =? 32)%nat || (n =? 160)%nat.

Fixpoint trim_start (s : string) : string :=
  match s with
  | String c rest => if is_space c then trim_start rest else s
  | EmptyString => EmptyString
  end.

Fixpoint trim_end (s : string) : string :=
  match s with
  | EmptyString => EmptyString
  | String c rest =>
      let rest' := trim_end rest in
      if is_space c && String.eqb rest' "" then EmptyString else String c rest'
  end.

(** [s.trim()] *)
Definition trim (s : string) : string := trim_end (trim_start s).

Section WithRuntime.
Context {rt : Runtime}.

(** The conversion [parseOptionValues] applies to a present value. *)
Definition convert (type : OptionType) (v : value) : value :=
  match type with
  | TNumber =>
      match v with
      | Number _ => v
      | _ => Number (parseFloat (ToString v))
      end
  | TBoolean =>
      match v with
      | Bool _ => v
      | Str s => Bool (String.eqb s "true" || String.eqb s "1")
      | _ => Bool false
      end
  | TArray =>
      match v with
      | Array _ => v
      | _ => Array (map (fun s => Str (trim s)) (split_on "," (ToString v)))
      end
  | TString => v
  end.

(** One turn of the loop over [Object.entries(values)]. *)
Definition parse_entry (schema : OptionSchema) (result : object value)
    (entry : string * value) : object value :=
  let '(key, v) := entry in
  if is_nullish v then result
  else
    match obj_get schema key with
    | None => obj_set result key v
    | Some optionDef => obj_set result key (convert (opt_type optionDef) v)
    end.

Definition parseOptionValues (values : object value) (schema : OptionSchema)
    : object value :=
  fold_left (parse_entry schema) values [].

End WithRuntime.

Definition getToolDisplayName (tool : Tool) : string :=
  match tool_title tool with
  | Some t => if truthy_string t then t else keyToLabel (tool_name tool)
  | None => keyToLabel (tool_name tool)
  end.

Definition getToolDescription (tool : Tool) : string :=
  match tool_description tool with
  | Some d => if truthy_string d then d else "Execute the " +:+ tool_name tool +:+ " tool"
  | None => "Execute the " +:+ tool_name tool +:+ " tool"
  end.

End SchemaToOptions.

(** ** src/mcp/types.ts, stdio-client.ts, http-client.ts, client.ts *)

Module Mcp.
Import Js.

(** [McpContent] *)
Inductive McpContent : Type :=
| TextContent (text : string)
| ImageContent (data mimeType : string)
| AudioContent (data mimeType : string)
| ResourceContent (uri : string) (text blob mimeType : option string).

(** [McpToolResult] *)
Record McpToolResult : Type := {
  isError : option bool;
  content : list McpContent;
  structuredContent : option (object value)
}.

(** src/config/types.ts, after [resolveServerConfig] *)
Record StdioServerConfig : Type := {
  command : string;
  args : option (list string);
  env : option (object string);
  cwd : option string
}.

Record HttpServerConfig : Type := {
  url : string;
  headers : option (object string)
}.

Inductive ServerConfig : Type :=
| StdioConfig (config : StdioServerConfig)
| HttpConfig (config : HttpServerConfig).

Record URL : Type := { href : string }.

Record RequestInit : Type := { init_headers : option (object string) }.

(** The SDK transports, with the arguments they are constructed from. *)
Inductive Transport : Type :=
| StdioClientTransport (command : string) (args : option (list string))
    (env : object string) (cwd : option string)
| StreamableHTTPClientTransport (url : URL) (requestInit : RequestInit)
| SSEClientTransport (url : URL) (requestInit : RequestInit).

Inductive Method : Type := MConnect | MClose | MListTools.

(** What is observable of a client from outside: every entry into one
    of its methods and every interaction with the SDK, in order. *)
Inductive Event : Type :=
| Invoked (m : Method)
| SdkConnect (t : Transport) (settled : Outcome unit)
| SdkListTools (settled : Outcome (list value))
| TransportClose (t : Transport) (settled : Outcome unit).

(** The collaborators outside the repository.  Each answer may depend on
    everything that happened before. *)
Class Environment : Type := {
  (** [process.env] *)
  process_env : object string;
  (** [new URL(s)], which throws on an invalid URL *)
  new_URL : string -> Outcome URL;
  (** [this.client.connect(transport)] of the SDK *)
  sdk_connect : list Event -> Transport -> Outcome unit;
  (** [this.client.listTools()] of the SDK, projected on [.tools] *)
  sdk_listTools : list Event -> Outcome (list value);
  (** [transport.close()] of the SDK *)
  sdk_transport_close : list Event -> Transport -> Outcome unit
}.

(** The private fields of a client, and the log of what it did. *)
Record World : Type := {
  connected : bool;
  transport : option Transport;
  log : list Event
}.

Definition fresh : World := {| connected := false; transport := None; log := [] |}.

Definition set_connected (b : bool) : Eff World unit :=
  modify (fun w => {| connected := b; transport := transport w; log := log w |}).
Definition set_transport (t : option Transport) : Eff World unit :=
  modify (fun w => {| connected := connected w; transport := t; log := log w |}).
Definition emit (e : Event) : Eff World unit :=
  modify (fun w => {| connected := connected w; transport := transport w;
                      log := log w ++ [e] |}).

(** Settle a pure outcome inside the monad. *)
Definition settle {S A} (r : Outcome A) : Eff S A := fun s => (r, s).

(** [{ ...base, ...overlay }] *)
Definition spread (base overlay : object string) : object string :=
  fold_left (fun acc kv => obj_set acc (fst kv) (snd kv)) overlay base.

(** [IMcpClient], restricted to the methods a session drives. *)
Record IMcpClient : Type := {
  connect : Eff World unit;
  close : Eff World unit;
  listTools : Eff World (list value);
  isConnected : Eff World bool
}.

Section WithEnvironment.
Context {environment : Environment}.

Definition await_connect (t : Transport) : Eff World unit :=
  let* history := gets log in
  let settled := sdk_connect history t in
  run emit (SdkConnect t settled) then settle settled.

Definition await_transport_close (t : Transport) : Eff World unit :=
  let* history := gets log in
  let settled := sdk_transport_close history t in
  run emit (TransportClose t settled) then settle settled.

Definition await_listTools : Eff World (list value) :=
  let* history := gets log in
  let settled := sdk_listTools history in
  run emit (SdkListTools settled) then settle settled.

(** [close()] is literally the same in both client classes. *)
Definition client_close : Eff World unit :=
  run emit (Invoked MClose) then
  let* isConnected := gets connected in
  let* current := gets transport in
  match isConnected, current with
  | true, Some t =>
      run try_catch (await_transport_close t) (fun _ => ret tt) then
      run set_connected false then
      set_transport None
  | _, _ => ret tt
  end.

Definition client_listTools : Eff World (list value) :=
  run emit (Invoked MListTools) then
  let* isConnected := gets connected in
  if negb isConnected then throw (JsError "Client is not connected")
  else await_listTools.

(** [StdioMcpClient.connect] *)
Definition stdio_connect (config : StdioServerConfig) : Eff World unit :=
  run emit (Invoked MConnect) then
  let* isConnected := gets connected in
  if isConnected then ret tt
  else
    let env := spread process_env (default [] (env config)) in
    let t := StdioClientTransport (command config) (args config) env (cwd config) in
    run set_transport (Some t) then
    run await_connect t then
    set_connected true.

Definition error_text (e : Thrown) : string :=
  match e with
  | JsError message => message
  | JsNonError rendered => rendered
  end.

(** [streamableError instanceof Error && streamableError.message.includes("4")] *)
Definition isClientError (streamableError : Thrown) : bool :=
  match streamableError with
  | JsError message => includes message "4"
  | JsNonError _ => false
  end.

(** [HttpMcpClient.connect] *)
Definition http_connect (config : HttpServerConfig) : Eff World unit :=
  run emit (Invoked MConnect) then
  let* isConnected := gets connected in
  if isConnected then ret tt
  else
    let* url := settle (new_URL (url config)) in
    let requestInit := {| init_headers := headers config |} in
    try_catch
      (let t := StreamableHTTPClientTransport url requestInit in
       run set_transport (Some t) then
       run await_connect t then
       set_connected true)
      (fun streamableError =>
         if isClientError streamableError then
           try_catch
             (let t := SSEClientTransport url requestInit in
              run set_transport (Some t) then
              run await_connect t then
              set_connected true)
             (fun sseError =>
                throw (JsError ("Failed to connect with both Streamable HTTP and SSE: "
                                +:+ error_text streamableError)))
         else throw streamableError).

Definition createStdioClient (config : StdioServerConfig) : IMcpClient :=
  {| connect := stdio_connect config;
     close := client_close;
     listTools := client_listTools;
     isConnected := gets connected |}.

Definition createHttpClient (config : HttpServerConfig) : IMcpClient :=
  {| connect := http_connect config;
     close := client_close;
     listTools := client_listTools;
     isConnected := gets connected |}.

(** [createMcpClient]: the transport tag selects the implementation. *)
Definition createMcpClient (config : ServerConfig) : IMcpClient :=
  match config with
  | StdioConfig c => createStdioClient c
  | HttpConfig c => createHttpClient c
  end.

(** [McpClientSession.withConnection] *)
Definition withConnection {T} (client : IMcpClient)
    (operation : IMcpClient -> Eff World T) : Eff World T :=
  try_finally
    (run connect client then operation client)
    (close client).

(** [McpClientSession.getTools] *)
Definition getTools (client : IMcpClient) : Eff World (list value) :=
  withConnection client (fun c => listTools c).

End WithEnvironment.
End Mcp.

(** ** src/commands/ToolCommand.ts *)

Module ToolCommand.
Import Js Mcp SchemaToOptions.

(** terminatui's [CommandResult]; [data] is [Undefined] when not set. *)
Record CommandResult : Type := {
  success : bool;
  error : option string;
  data : value;
  message : option string
}.

(** A content item as the JavaScript object it is. *)
Definition opt_str (o : option string) : value :=
  match o with
  | Some s => Str s
  | None => Undefined
  end.

Definition content_object (c : McpContent) : value :=
  match c with
  | TextContent text => Object [("type", Str "text"); ("text", Str text)]
  | ImageContent d m =>
      Object [("type", Str "image"); ("data", Str d); ("mimeType", Str m)]
  | AudioContent d m =>
      Object [("type", Str "audio"); ("data", Str d); ("mimeType", Str m)]
  | ResourceContent uri text blob m =>
      Object [("type", Str "resource");
              ("resource", Object [("uri", Str uri); ("text", opt_str text);
                                   ("blob", opt_str blob); ("mimeType", opt_str m)])]
  end.

(** [formatContent] *)
Definition formatContent (content : list McpContent) : string :=
  join (String "010" "")
    (flat_map (fun c => match c with
                        | TextContent text => if truthy_string text then [text] else []
                        | _ => []
                        end) content).

Section WithRuntime.
Context {rt : Runtime}.

(** The callback of [content.map] in [formatContentAsData]. *)
Definition tagged_entry (c : McpContent) : value :=
  match c with
  | TextContent text =>
      match JSON_parse (if truthy_string text then text else "") with
      | Some parsed => Object [("type", Str "text"); ("content", parsed)]
      | None => Object [("type", Str "text"); ("content", Str text)]
      end
  | _ => content_object c
  end.

(** [formatContentAsData] *)
Definition formatContentAsData (content : list McpContent) : value :=
  match content with
  | [TextContent text] =>
      if truthy_string text then
        match JSON_parse text with
        | Some parsed => parsed
        | None => Object [("text", Str text)]
        end
      else Array (map tagged_entry content)
  | _ => Array (map tagged_entry content)
  end.

(** The "format the result" part of [execute]. *)
Definition format_result (tool : Tool) (result : McpToolResult) : CommandResult :=
  let structured :=
    match structuredContent result with
    | Some o => Object o
    | None => Undefined
    end in
  if truthy (match isError result with Some b => Bool b | None => Undefined end) then
    {| success := false;
       error := Some (formatContent (content result));
       data := structured;
       message := None |}
  else
    {| success := true;
       error := None;
       data := if truthy structured then structured
               else formatContentAsData (content result);
       message := Some ("Tool " +:+ tool_name tool +:+ " executed successfully") |}.

(** [execute]; [callTool] stands for [session.callTool] and tells how the
    call settles for a tool name and its arguments. *)
Definition execute (tool : Tool)
    (callTool : string -> object value -> Outcome McpToolResult)
    (config : object value) : CommandResult :=
  let optionSchema := toolToOptionSchema tool in
  let args := parseOptionValues config optionSchema in
  match callTool (tool_name tool) args with
  | Returned result => format_result tool result
  | Threw e =>
      {| success := false; error := Some (error_text e);
         data := Undefined; message := None |}
  end.

End WithRuntime.
End ToolCommand.

(** ** A small runtime to run the definitions on

    [Sample.runtime] implements the builtins on a fragment that is enough
    for the cache files and tool results used as examples below: JSON
    without escapes, fractions or exponents, and decimal integers.  The
    theorems do not depend on it; they hold for every [Js.Runtime]. *)

Module Sample.
Import Js.

(** the double quote *)
Definition dq : ascii := "034"%char.
Definition quoted (s : string) : string := String dq (s +:+ String dq "").

Definition is_json_space (c : ascii) : bool :=
  let n := nat_of_ascii c in
  (n =? 32)%nat || (n =? 9)%nat || (n =? 10)%nat || (n =? 13)%nat.

Fixpoint skip_ws (s : string) : string :=
  match s with
  | String c rest => if is_json_space c then skip_ws rest else s
  | EmptyString => EmptyString
  end.

Fixpoint drop (n : nat) (s : string) : string :=
  match n, s with
  | S n', String _ rest => drop n' rest
  | _, _ => s
  end.

Definition digit_of (c : ascii) : option Z :=
  let n := nat_of_ascii c in
  if ((48 <=? n)%nat && (n <=? 57)%nat) then Some (Z.of_nat (n - 48)) else None.

(** Reads a maximal run of digits; [acc] is the value read so far. *)
Fixpoint read_digits (acc : Z) (seen : bool) (s : string) : option (Z * string) :=
  match s with
  | String c rest =>
      match digit_of c with
      | Some d => read_digits (10 * acc + d) true rest
      | None => if seen then Some (acc, s) else None
      end
  | EmptyString => if seen then Some (acc, s) else None
  end.

Definition read_integer (s : string) : option (Z * string) :=
  match s with
  | String "-" rest =>
      match read_digits 0 false rest with
      | Some (z, rest') => Some (- z, rest')
      | None => None
      end
  | _ => read_digits 0 false s
  end.

(** Reads up to the closing quote; a backslash is outside the fragment. *)
Fixpoint read_string (s : string) : option (string * string) :=
  match s with
  | EmptyString => None
  | String c rest =>
      if Ascii.eqb c dq then Some (EmptyString, rest)
      else if Ascii.eqb c "\" then None
      else
        match read_string rest with
        | Some (body, rest') => Some (String c body, rest')
        | None => None
        end
  end.

Fixpoint parse_value (fuel : nat) (s : string) : option (value * string) :=
  match fuel with
  | O => None
  | S fuel' =>
      let s := skip_ws s in
      match s with
      | EmptyString => None
      | String c rest =>
          if Ascii.eqb c dq then
            match read_string rest with
            | Some (body, rest') => Some (Str body, rest')
            | None => None
            end
          else if Ascii.eqb c "[" then
            match skip_ws rest with
            | String "]" rest' => Some (Array [], rest')
            | _ =>
                match parse_elements fuel' rest with
                | Some (items, rest') => Some (Array items, rest')
                | None => None
                end
            end
          else if Ascii.eqb c "{" then
            match skip_ws rest with
            | String "}" rest' => Some (Object [], rest')
            | _ =>
                match parse_members fuel' rest with
                | Some (fields, rest') =>
                    Some (Object (fold_left (fun o kv => obj_set o (fst kv) (snd kv))
                                            fields []), rest')
                | None => None
                end
            end
          else if starts_with "null" s then Some (Null, drop 4 s)
          else if starts_with "true" s then Some (Bool true, drop 4 s)
          else if starts_with "false" s then Some (Bool false, drop 5 s)
          else
            match read_integer s with
            | Some (z, rest') => Some (Number (Num z), rest')
            | None => None
            end
      end
  end
with parse_elements (fuel : nat) (s : string) : option (list value * string) :=
  match fuel with
  | O => None
  | S fuel' =>
      match parse_value fuel' s with
      | Some (v, rest) =>
          match skip_ws rest with
          | String "," rest' =>
              match parse_elements fuel' rest' with
              | Some (vs, rest'') => Some (v :: vs, rest'')
              | None => None
              end
          | String "]" rest' => Some ([v], rest')
          | _ => None
          end
      | None => None
      end
  end
with parse_members (fuel : nat) (s : string) : option (list (string * value) * string) :=
  match fuel with
  | O => None
  | S fuel' =>
      match skip_ws s with
      | String c rest =>
          if Ascii.eqb c dq then
            match read_string rest with
            | Some (key, rest1) =>
                match skip_ws rest1 with
                | String ":" rest2 =>
                    match parse_value fuel' rest2 with
                    | Some (v, rest3) =>
                        match skip_ws rest3 with
                        | String "," rest4 =>
                            match parse_members fuel' rest4 with
                            | Some (fields, rest5) => Some ((key, v) :: fields, rest5)
                            | None => None
                            end
                        | String "}" rest4 => Some ([(key, v)], rest4)
                        | _ => None
                        end
                    | None => None
                    end
                | _ => None
                end
            | None => None
            end
          else None
      | EmptyString => None
      end
  end.

Definition JSON_parse (s : string) : option value :=
  match parse_value (4 * String.length s + 4) s with
  | Some (v, rest) =>
      match skip_ws rest with
      | EmptyString => Some v
      | _ => None
      end
  | None => None
  end.

Definition parseFloat (s : string) : number :=
  match read_integer (skip_ws s) with
  | Some (z, _) => Num z
  | None => NaN
  end.

Definition StringToNumber (s : string) : number :=
  match skip_ws s with
  | EmptyString => Num 0
  | t =>
      match read_integer t with
      | Some (z, rest) =>
          match skip_ws rest with
          | EmptyString => Num z
          | _ => NaN
          end
      | None => NaN
      end
  end.

Definition NumberToString (n : number) : string :=
  match n with
  | NaN => "NaN"
  | Num z => DecimalString.NilZero.string_of_int (Z.to_int z)
  end.

#[export] Instance runtime : Runtime :=
  {| Js.JSON_parse := JSON_parse;
     Js.parseFloat := parseFloat;
     Js.StringToNumber := StringToNumber;
     Js.NumberToString := NumberToString |}.

(** A cache file as [setCachedTools] lays it out. *)
Definition entry_text (cachedAt : string) (tools : string) : string :=
  "{ " +:+ quoted "cachedAt" +:+ ": " +:+ cachedAt +:+ ", "
       +:+ quoted "tools" +:+ ": " +:+ tools +:+ " }".

Definition echo_tool_text : string :=
  "[{" +:+ quoted "name" +:+ ": " +:+ quoted "echo" +:+ "}]".

Definition echo_tool : value := Object [("name", Str "echo")].

Definition cacheDir : string := "/home/user/.config/my-cli-prettier/cache".

Definition settings (ttl : Z) : Cache.CliSettings :=
  {| Cache.cacheEnabled := true; Cache.cacheTtlMs := Num ttl |}.

(** One cache file, for server [alpha]. *)
Definition disk (text : string) : gmap string string :=
  {[ Cache.getCacheFilePath cacheDir "alpha" := text ]}.

(** An environment in which the two HTTP sub-protocols, the tool listing
    and the closing of a transport settle as given; every URL is taken
    as valid and a child process always starts. *)
Definition environment (streamable sse : Outcome unit) (closing : Outcome unit)
    : Mcp.Environment :=
  {| Mcp.process_env := [("PATH", "/usr/bin")];
     Mcp.new_URL := fun s => Returned {| Mcp.href := s |};
     Mcp.sdk_connect := fun _ t =>
       match t with
       | Mcp.StreamableHTTPClientTransport _ _ => streamable
       | Mcp.SSEClientTransport _ _ => sse
       | Mcp.StdioClientTransport _ _ _ _ => Returned tt
       end;
     Mcp.sdk_listTools := fun _ => Returned [echo_tool];
     Mcp.sdk_transport_close := fun _ _ => closing |}.

Definition http_config : Mcp.HttpServerConfig :=
  {| Mcp.url := "https://example.test/mcp";
     Mcp.headers := Some [("Authorization", "Bearer abc")] |}.

Definition stdio_config : Mcp.StdioServerConfig :=
  {| Mcp.command := "bunx"; Mcp.args := Some ["-y"; "server-memory"];
     Mcp.env := Some [("DEBUG", "1")]; Mcp.cwd := None |}.

(** A gateway timeout, which is a 5xx answer, and a refused connection. *)
Definition gateway_timeout : Thrown :=
  JsError "Error POSTing to endpoint (HTTP 504): Gateway Timeout".
Definition connection_refused : Thrown :=
  JsError "connect ECONNREFUSED 127.0.0.1:4000".
Definition method_not_allowed : Thrown :=
  JsError "Error POSTing to endpoint (HTTP 405): Method Not Allowed".
Definition sse_unavailable : Thrown :=
  JsError "SSE error: Non-200 status code (503)".

Definition json_object_text : string := "{" +:+ quoted "a" +:+ ": 1}".

Definition tool : SchemaToOptions.Tool :=
  {| SchemaToOptions.tool_name := "echo"; SchemaToOptions.tool_title := None;
     SchemaToOptions.tool_description := None;
     SchemaToOptions.inputSchema := None |}.

Definition text_result (flag : bool) (text : string) : Mcp.McpToolResult :=
  {| Mcp.isError := Some flag; Mcp.content := [Mcp.TextContent text];
     Mcp.structuredContent := None |}.

(** One parameter of each type. *)
Definition option_of (t : SchemaToOptions.OptionType) : SchemaToOptions.OptionDef :=
  {| SchemaToOptions.opt_type := t;
     SchemaToOptions.opt_description := "";
     SchemaToOptions.opt_required := true;
     SchemaToOptions.opt_order := 0%nat;
     SchemaToOptions.opt_default := None;
     SchemaToOptions.opt_enum := None;
     SchemaToOptions.opt_min := None;
     SchemaToOptions.opt_max := None;
     SchemaToOptions.opt_label := None |}.

Definition schema : SchemaToOptions.OptionSchema :=
  [("s", option_of SchemaToOptions.TString);
   ("n", option_of SchemaToOptions.TNumber);
   ("b", option_of SchemaToOptions.TBoolean);
   ("a", option_of SchemaToOptions.TArray)].

End Sample.

(** ** src/config/cache.ts: storing, clearing and statistics *)

Module CacheAdmin.
Import Js Cache.

(** [JSON.stringify(data, null, 2)] on an object; [None] when it throws.
    Like [JSON.parse] it belongs to the runtime. *)
Class Stringifier : Type := {
  JSON_stringify : value -> option string
}.

(** [a + b] on numbers *)
Definition add (a b : number) : number :=
  match a, b with
  | Num x, Num y => Num (x + y)
  | _, _ => NaN
  end.

(** The file system has regular files only.  Writing a file and creating
    a directory are taken to succeed: no file stands in the way of a
    directory and no permission is missing, so [mkdirSync] leaves nothing
    to observe.  Where they fail in the code, [writeFileSync] throws
    inside the [try] of [setCachedTools] and [mkdirSync] outside of it. *)
Definition writeFileSync (p content : string) : Eff FileSystem unit :=
  modify (fun fs : FileSystem => <[p := content]> fs).

Definition mkdirSync (dir : string) : Eff FileSystem unit := ret tt.

(** [s.endsWith(suffix)] *)
Definition endsWith (s suffix : string) : bool :=
  let n := String.length s in
  let k := String.length suffix in
  (k <=? n)%nat && String.eqb (String.substring (n - k) k s) suffix.

(** [s.replace(/\.json$/, "")] *)
Definition drop_json_suffix (s : string) : string :=
  if endsWith s ".json" then String.substring 0 (String.length s - 5) s else s.

(** [s.replace(/_/g, "-")] *)
Fixpoint underscores_to_dashes (s : string) : string :=
  match s with
  | EmptyString => EmptyString
  | String c rest =>
      String (if Ascii.eqb c "_" then "-"%char else c) (underscores_to_dashes rest)
  end.

(** [strip_prefix p s] is [Some rest] when [s = p ++ rest]. *)
Fixpoint strip_prefix (p s : string) : option string :=
  match p, s with
  | EmptyString, _ => Some s
  | String a p', String b s' => if Ascii.eqb a b then strip_prefix p' s' else None
  | String _ _, EmptyString => None
  end.

(** The first segment of a relative path. *)
Fixpoint first_segment (s : string) : string :=
  match s with
  | EmptyString => EmptyString
  | String c rest => if Ascii.eqb c "/" then EmptyString else String c (first_segment rest)
  end.

(** The name under [dir] through which a path is reached, if any. *)
Definition entry_under (dir p : string) : option string :=
  match strip_prefix (dir +:+ "/") p with
  | Some rest => Some (first_segment rest)
  | None => None
  end.

(** [readdirSync(dir)]: the names of the files and directories directly
    under [dir]; a directory is there because a file lies below it. *)
Definition readdirSync (dir : string) : Eff FileSystem (list string) :=
  gets (fun fs : FileSystem =>
          remove_dups (omap (fun kv => entry_under dir (fst kv)) (map_to_list fs))).

(** [existsSync(dir)] for a directory.  An empty directory lists nothing,
    so whether it counts as existing makes no difference to the callers
    below. *)
Definition dirExistsSync (dir : string) : Eff FileSystem bool :=
  let* names := readdirSync dir in
  ret (negb (bool_decide (names = []))).

(** [value.length] *)
Definition get_length {S} (v : value) : Eff S value :=
  match v with
  | Undefined => throw (JsError "Cannot read properties of undefined (reading 'length')")
  | Null => throw (JsError "Cannot read properties of null (reading 'length')")
  | Str s => ret (Number (Num (Z.of_nat (String.length s))))
  | Array items => ret (Number (Num (Z.of_nat (List.length items))))
  | Object fields => ret (default Undefined (obj_get fields "length"))
  | Bool _ | Number _ => ret Undefined
  end.

(** The local variables of [getCacheStats], next to the disk. *)
Record Stats : Type := {
  stat_disk : FileSystem;
  cachedServers : list string;
  totalCachedTools : value
}.

Definition on_disk {A} (m : Eff FileSystem A) : Eff Stats A :=
  fun st =>
    let '(r, fs) := m (stat_disk st) in
    (r, {| stat_disk := fs; cachedServers := cachedServers st;
           totalCachedTools := totalCachedTools st |}).

Definition push_server (name : string) : Eff Stats unit :=
  modify (fun st => {| stat_disk := stat_disk st;
                       cachedServers := cachedServers st ++ [name];
                       totalCachedTools := totalCachedTools st |}).

(** What [getCacheStats] returns; [ttlHours], a quotient, is left out. *)
Record CacheStats : Type := {
  enabled : bool;
  ttlMs : number;
  stats_cachedServers : list string;
  stats_totalCachedTools : value
}.

Section WithEnvironment.
Context {rt : Runtime} {st : Stringifier}.
Variable cacheDir : string.

(** [a + b]: concatenation as soon as one operand is a string or an
    object, addition of numbers otherwise. *)
Definition plus (a b : value) : value :=
  let stringish v :=
    match v with
    | Str _ | Array _ | Object _ => true
    | _ => false
    end in
  if stringish a || stringish b then Str (ToString a +:+ ToString b)
  else Number (add (ToNumber a) (ToNumber b)).

Definition add_to_total (v : value) : Eff Stats unit :=
  modify (fun st => {| stat_disk := stat_disk st;
                       cachedServers := cachedServers st;
                       totalCachedTools := plus (totalCachedTools st) v |}).

Definition ensureCacheDir : Eff FileSystem unit :=
  let* present := dirExistsSync cacheDir in
  if negb present then mkdirSync cacheDir else ret tt.

Definition stringify (data : value) : Eff FileSystem string :=
  match JSON_stringify data with
  | Some content => ret content
  | None => throw (JsError "TypeError: cannot serialize")
  end.

(** [setCachedTools]; [serverInfo] is [Undefined] when not given. *)
Definition setCachedTools (settings : CliSettings) (now : Z)
    (serverName : string) (tools serverInfo : value) : Eff FileSystem unit :=
  if negb (cacheEnabled settings) then ret tt
  else
    run ensureCacheDir then
    let cachePath := getCacheFilePath cacheDir serverName in
    let data := Object [("cachedAt", Number (Num now)); ("tools", tools);
                        ("serverInfo", serverInfo)] in
    try_catch
      (let* content := stringify data in
       writeFileSync cachePath content)
      (fun _ => ret tt).

(** The loop of [clearAllCache]; [count] is the local counter. *)
Fixpoint clear_files (files : list string) (count : Z) : Eff FileSystem Z :=
  match files with
  | [] => ret count
  | file :: rest =>
      if endsWith file ".json" then
        let* count' :=
          try_catch
            (run unlinkSync (path_join cacheDir file) then ret (count + 1))
            (fun _ => ret count) in
        clear_files rest count'
      else clear_files rest count
  end.

(** [clearAllCache] *)
Definition clearAllCache : Eff FileSystem Z :=
  let* present := dirExistsSync cacheDir in
  if negb present then ret 0
  else
    try_catch
      (let* files := readdirSync cacheDir in
       clear_files files 0)
      (fun _ => ret 0).

(** One turn of the loop of [getCacheStats]. *)
Definition stat_file (settings : CliSettings) (now : Z) (file : string) : Eff Stats unit :=
  if endsWith file ".json" then
    let serverName := underscores_to_dashes (drop_json_suffix file) in
    try_catch
      (let* content := on_disk (readFileSync (path_join cacheDir file)) in
       let* data := on_disk (parse_json content) in
       let* cachedAt := get_prop data "cachedAt" in
       if isCacheValid now cachedAt (cacheTtlMs settings) then
         run push_server serverName then
         let* tools := get_prop data "tools" in
         let* len := get_length tools in
         add_to_total len
       else ret tt)
      (fun _ => ret tt)
  else ret tt.

Fixpoint stat_files (settings : CliSettings) (now : Z) (files : list string) : Eff Stats unit :=
  match files with
  | [] => ret tt
  | file :: rest => run stat_file settings now file then stat_files settings now rest
  end.

(** [getCacheStats] *)
Definition getCacheStats (settings : CliSettings) (now : Z) : Eff FileSystem CacheStats :=
  fun fs =>
    let start := {| stat_disk := fs; cachedServers := [];
                    totalCachedTools := Number (Num 0) |} in
    let scan : Eff Stats unit :=
      let* present := on_disk (dirExistsSync cacheDir) in
      if present then
        try_catch
          (let* files := on_disk (readdirSync cacheDir) in
           stat_files settings now files)
          (fun _ => ret tt)
      else ret tt in
    match scan start with
    | (Returned _, final) =>
        (Returned {| enabled := cacheEnabled settings;
                     ttlMs := cacheTtlMs settings;
                     stats_cachedServers := cachedServers final;
                     stats_totalCachedTools := totalCachedTools final |},
         stat_disk final)
    | (Threw e, final) => (Threw e, stat_disk final)
    end.

(** The paths [clearAllCache] goes for: the files directly under the
    cache directory whose name ends in [.json]. *)
Definition is_json_entry (p : string) : bool :=
  match entry_under cacheDir p with
  | Some file => String.eqb (path_join cacheDir file) p && endsWith file ".json"
  | None => false
  end.

End WithEnvironment.
End CacheAdmin.


(** ** A serialiser to go with the sample runtime *)

Module SampleIo.
Import Js.

(** Compact JSON text for the fragment [Sample.JSON_parse] reads:
    properties that are [undefined] are left out, [undefined] and [NaN]
    elsewhere become [null]. *)
Fixpoint encode (v : value) : string :=
  match v with
  | Undefined | Null => "null"
  | Bool true => "true"
  | Bool false => "false"
  | Number NaN => "null"
  | Number (Num z) => Sample.NumberToString (Num z)
  | Str s => Sample.quoted s
  | Array items => "[" +:+ join "," (map encode items) +:+ "]"
  | Object fields =>
      "{" +:+
      join "," (flat_map (fun '(k, x) =>
                            match x with
                            | Undefined => []
                            | _ => [Sample.quoted k +:+ ":" +:+ encode x]
                            end) fields)
      +:+ "}"
  end.

#[export] Instance stringifier : CacheAdmin.Stringifier :=
  {| CacheAdmin.JSON_stringify := fun v => Some (encode v) |}.

(** A second entry, for server [my_server], captured at 100 with two tools. *)
Definition pair_text : string :=
  Sample.entry_text "100" ("[" +:+ Sample.quoted "a" +:+ ", " +:+ Sample.quoted "b" +:+ "]").

Definition two_servers : gmap string string :=
  {[ Cache.getCacheFilePath Sample.cacheDir "alpha"
       := Sample.entry_text "0" Sample.echo_tool_text;
     Cache.getCacheFilePath Sample.cacheDir "my_server" := pair_text;
     "/home/user/.config/my-cli-prettier/config.json" := "{}" ]}.

End SampleIo.

(** ** src/config/types.ts and src/config/loader.ts *)

Module Loader.
Import Js.

(** [BaseServerConfig], [StdioServerConfig] and [HttpServerConfig] as the
    configuration file declares them, before any resolution. *)
Record StdioServerConfig : Type := {
  stdio_description : option string;
  stdio_enabled : option bool;
  command : string;
  args : option (list string);
  env : option (object string);
  cwd : option string
}.

Record HttpServerConfig : Type := {
  http_description : option string;
  http_enabled : option bool;
  url : string;
  headers : option (object string)
}.

(** [ServerConfig]; the constructor is the [transport] tag. *)
Inductive ServerConfig : Type :=
| Stdio (config : StdioServerConfig)
| Http (config : HttpServerConfig).

Definition isStdioConfig (config : ServerConfig) : bool :=
  match config with Stdio _ => true | Http _ => false end.

Definition isHttpConfig (config : ServerConfig) : bool :=
  match config with Http _ => true | Stdio _ => false end.

(** [[A-Z_]] and [[A-Z0-9_]] under the [i] flag, which adds the ASCII
    lower-case letters and nothing else. *)
Definition is_name_start (c : ascii) : bool :=
  SchemaToOptions.is_lower c || SchemaToOptions.is_upper c || Ascii.eqb c "_".

Definition is_name_part (c : ascii) : bool := SchemaToOptions.is_word c.

(** [([^}]+)\}] : the characters before the first closing brace. *)
Fixpoint until_brace (s : string) : option string :=
  match s with
  | EmptyString => None
  | String c rest =>
      if Ascii.eqb c "}" then Some EmptyString
      else
        match until_brace rest with
        | Some name => Some (String c name)
        | None => None
        end
  end.

(** [[A-Z0-9_]*], greedy *)
Fixpoint name_parts (s : string) : string :=
  match s with
  | String c rest => if is_name_part c then String c (name_parts rest) else EmptyString
  | EmptyString => EmptyString
  end.

(** A match of the pattern of [resolveEnvVars] at the head of [s], a
    braced reference or else a bare one: the variable name and the
    number of characters matched. *)
Definition match_reference (s : string) : option (string * nat) :=
  match s with
  | String d (String c rest) =>
      if Ascii.eqb d "$" then
        if Ascii.eqb c "{" then
          match until_brace rest with
          | Some (String n name) => Some (String n name, (3 + String.length (String n name))%nat)
          | _ => None
          end
        else if is_name_start c then
          let name := String c (name_parts rest) in
          Some (name, (1 + String.length name)%nat)
        else None
      else None
  | _ => None
  end.

(** What a property read finds on an object that has no own property of
    that name: the member inherited from [Object.prototype], here as the
    text [String(member)] that [replace] puts in, or [None] for a name
    [Object.prototype] has no member for.  The text of a built-in
    function is left to the runtime. *)
Class ObjectPrototype : Type := {
  inherited_text : string -> option string
}.

(** The callback: [process.env[varName]], where [env] holds the variables
    that are set; the empty string when the read gives [undefined]. *)
Definition env_value {proto : ObjectPrototype} (env : object string) (varName : string)
    : string :=
  match obj_get env varName with
  | Some value => value
  | None => default "" (inherited_text varName)
  end.

(** The global replace: scan from the left, replace each match, skip the
    matched characters; [skip] counts those still to be skipped. *)
Fixpoint replace_references {proto : ObjectPrototype} (env : object string) (skip : nat)
    (s : string) : string :=
  match s with
  | EmptyString => EmptyString
  | String c rest =>
      match skip with
      | S k => replace_references env k rest
      | O =>
          match match_reference s with
          | Some (name, len) =>
              env_value env name +:+ replace_references env (len - 1) rest
          | None => String c (replace_references env 0 rest)
          end
      end
  end.

Section WithProcessEnv.
Context {proto : ObjectPrototype}.
(** [process.env] *)
Variable process_env : object string.

Definition resolveEnvVars (value : string) : string :=
  replace_references process_env 0 value.

Definition resolveEnvVarsInRecord (record : object string) : object string :=
  fold_left (fun resolved kv => obj_set resolved (fst kv) (resolveEnvVars (snd kv)))
            record [].

Definition resolveServerConfig (config : ServerConfig) : ServerConfig :=
  match config with
  | Stdio c =>
      Stdio {| stdio_description := stdio_description c;
               stdio_enabled := stdio_enabled c;
               command := command c;
               args := option_map (map resolveEnvVars) (args c);
               env := option_map resolveEnvVarsInRecord (env c);
               cwd := match cwd c with
                      | Some dir => if truthy_string dir then Some (resolveEnvVars dir) else None
                      | None => None
                      end |}
  | Http c =>
      Http {| http_description := http_description c;
              http_enabled := http_enabled c;
              url := resolveEnvVars (url c);
              headers := option_map resolveEnvVarsInRecord (headers c) |}
  end.

(** What a client is built from, once the configuration is resolved. *)
Definition client_config (config : ServerConfig) : Mcp.ServerConfig :=
  match config with
  | Stdio c =>
      Mcp.StdioConfig {| Mcp.command := command c; Mcp.args := args c;
                         Mcp.env := env c; Mcp.cwd := cwd c |}
  | Http c =>
      Mcp.HttpConfig {| Mcp.url := url c; Mcp.headers := headers c |}
  end.

(** [createMcpClient] of src/mcp/client.ts, from the configuration as it
    is stored: resolve, then pick the transport. *)
Definition createMcpClient {environment : Mcp.Environment} (config : ServerConfig)
    : Mcp.IMcpClient :=
  let resolvedConfig := resolveServerConfig config in
  Mcp.createMcpClient (client_config resolvedConfig).

End WithProcessEnv.

(** The members of [Object.prototype], with the text the usual engines
    give for them. *)
Definition sample_prototype : ObjectPrototype :=
  {| inherited_text := fun name =>
       if String.eqb name "__proto__" then Some "[object Object]"
       else if String.eqb name "constructor"
       then Some "function Object() { [native code] }"
       else if existsb (String.eqb name)
                 ["hasOwnProperty"; "isPrototypeOf"; "propertyIsEnumerable";
                  "toLocaleString"; "toString"; "valueOf"; "__defineGetter__";
                  "__defineSetter__"; "__lookupGetter__"; "__lookupSetter__"]
       then Some ("function " +:+ name +:+ "() { [native code] }")
       else None |}.

(** The two members of [CliSettings] every caller reads, as the values
    the configuration file gives them. *)
Record RawSettings : Type := {
  raw_cacheEnabled : value;
  raw_cacheTtlMs : value
}.

(** [DEFAULT_SETTINGS] *)
Definition DEFAULT_SETTINGS : RawSettings :=
  {| raw_cacheEnabled := Bool true;
     raw_cacheTtlMs := Number (Num (4 * 60 * 60 * 1000)) |}.

(** [v.k] on a value that is neither [null] nor [undefined], for a name
    that is not an index, [length] or inherited. *)
Definition member (v : value) (k : string) : value :=
  match v with
  | Object fields => default Undefined (obj_get fields k)
  | _ => Undefined
  end.

(** Member [k] of [{ ...defaults, ...source }] for a name [k] that is not
    an index: own properties of an object override, anything else that
    is spread (a string, an array, [undefined], ...) has no such member. *)
Definition spread_member (source : value) (k : string) (dflt : value) : value :=
  match source with
  | Object fields => default dflt (obj_get fields k)
  | _ => dflt
  end.

(** How [getCachedTools] and its siblings use the settings:
    [!settings.cacheEnabled] and [... < settings.cacheTtlMs]. *)
Definition settings_in_use {rt : Runtime} (settings : RawSettings) : Cache.CliSettings :=
  {| Cache.cacheEnabled := truthy (raw_cacheEnabled settings);
     Cache.cacheTtlMs := ToNumber (raw_cacheTtlMs settings) |}.

(** [McpCliConfig] as [loadConfig] returns it. *)
Record McpCliConfig : Type := {
  servers : value;
  settings : RawSettings
}.

(** [Object.entries(v)] for a value that is not [null] or [undefined]. *)
Definition index_key (i : nat) : string := NilZero.string_of_uint (Nat.to_uint i).

Definition entries (v : value) : list (string * value) :=
  match v with
  | Object fields => fields
  | Array items => imap (fun i x => (index_key i, x)) items
  | Str s => imap (fun i c => (index_key i, Str (String c EmptyString)))
                  (list_ascii_of_string s)
  | _ => []
  end.

Section WithConfigDir.
Context {rt : Runtime}.
(** [AppContext.current.getConfigDir()] *)
Variable configDir : string.

Definition getConfigPath : string := Cache.path_join configDir "config.json".

Definition getCacheDir : string := Cache.path_join configDir "cache".

(** [loadConfig] *)
Definition loadConfig : Eff Cache.FileSystem McpCliConfig :=
  let configPath := getConfigPath in
  let* present := Cache.existsSync configPath in
  if negb present then
    ret {| servers := Object []; settings := DEFAULT_SETTINGS |}
  else
    try_catch
      (let* content := Cache.readFileSync configPath in
       let* config := Cache.parse_json content in
       let* declared := get_prop config "servers" in
       let* given := get_prop config "settings" in
       ret {| servers := if truthy declared then declared else Object [];
              settings :=
                {| raw_cacheEnabled :=
                     spread_member given "cacheEnabled" (raw_cacheEnabled DEFAULT_SETTINGS);
                   raw_cacheTtlMs :=
                     spread_member given "cacheTtlMs" (raw_cacheTtlMs DEFAULT_SETTINGS) |} |})
      (fun error =>
         throw (JsError ("Failed to load config from " +:+ configPath +:+ ": "
                         +:+ Mcp.error_text error))).

(** [getSettings] *)
Definition getSettings : Eff Cache.FileSystem RawSettings :=
  let* config := loadConfig in
  ret (settings config).

(** [getCachedTools] of src/config/cache.ts as it is called: the
    settings come from the configuration file, the cache directory lies
    under the configuration directory. *)
Definition getCachedTools (now : Z) (serverName : string) : Eff Cache.FileSystem value :=
  let* current := getSettings in
  Cache.getCachedTools getCacheDir (settings_in_use current) now serverName.

(** [getCacheStats] of src/config/cache.ts as it is called: the settings
    are read first, outside every [try]. *)
Definition getCacheStats (now : Z) : Eff Cache.FileSystem CacheAdmin.CacheStats :=
  let* current := getSettings in
  CacheAdmin.getCacheStats getCacheDir (settings_in_use current) now.

(** The member read [serverConfig.enabled] inside [getEnabledServers]. *)
Definition enabled_flag (serverConfig : value) : Eff Cache.FileSystem value :=
  get_prop serverConfig "enabled".

Definition is_false (v : value) : bool :=
  match v with
  | Bool false => true
  | _ => false
  end.


(** A configuration file that holds [settings] and nothing else. *)
Definition settings_text (body : string) : string :=
  "{" +:+ Sample.quoted "settings" +:+ ": " +:+ body +:+ "}".

(** The loop of [getEnabledServers]. *)
Fixpoint keep_enabled (all : list (string * value)) (enabledServers : object value)
    : Eff Cache.FileSystem (object value) :=
  match all with
  | [] => ret enabledServers
  | (name, serverConfig) :: rest =>
      let* flag := enabled_flag serverConfig in
      if negb (is_false flag)
      then keep_enabled rest (obj_set enabledServers name serverConfig)
      else keep_enabled rest enabledServers
  end.

(** [getEnabledServers] *)
Definition getEnabledServers : Eff Cache.FileSystem (object value) :=
  let* config := loadConfig in
  keep_enabled (entries (servers config)) [].

(** [getAllServers] *)
Definition getAllServers : Eff Cache.FileSystem value :=
  let* config := loadConfig in
  ret (servers config).

End WithConfigDir.
End Loader.

(** ** src/mcp/stdio-client.ts, http-client.ts and client.ts: calls *)

Module Session.
Import Js Mcp.

(** A content item as the SDK hands it over; [SdkOther] is an item of a
    kind the clients do not know, or a [resource] item without its
    [resource] member. *)
Inductive SdkContent : Type :=
| SdkText (text : string)
| SdkImage (data mimeType : string)
| SdkAudio (data mimeType : string)
| SdkResource (uri : string) (text blob mimeType : option string)
| SdkOther (kind : string).

(** The result of the SDK's [callTool]; [None] is a member that is not
    there (or, for [content], not an array). *)
Record SdkCallResult : Type := {
  sdk_content : option (list SdkContent);
  sdk_isError : option value;
  sdk_structuredContent : option (object value)
}.

(** The answers of the SDK the calls depend on. *)
Class Sdk : Type := {
  (** [this.client.callTool({ name, arguments })] *)
  sdk_callTool : list Event -> string -> object value -> Outcome SdkCallResult;
  (** [this.client.getServerVersion()]: name and version, if known *)
  sdk_getServerVersion : list Event -> option (string * string)
}.

(** The loop over [result.content] in [callTool]. *)
Definition convert_item (item : SdkContent) : option McpContent :=
  match item with
  | SdkText text => Some (TextContent text)
  | SdkImage data mimeType => Some (ImageContent data mimeType)
  | SdkAudio data mimeType => Some (AudioContent data mimeType)
  | SdkResource uri text blob mimeType => Some (ResourceContent uri text blob mimeType)
  | SdkOther _ => None
  end.

Definition convert_result (result : SdkCallResult) : McpToolResult :=
  {| isError := Some (match sdk_isError result with
                      | Some flag => truthy flag
                      | None => false
                      end);
     content := omap convert_item (default [] (sdk_content result));
     structuredContent := sdk_structuredContent result |}.

(** The fields of a client just constructed; what happened before
    stays on record. *)
Definition new_client (w : World) : World :=
  {| connected := false; transport := None; log := log w |}.

Section WithSdk.
Context {environment : Environment} {sdk : Sdk}.

(** [callTool], the same in both client classes *)
Definition client_callTool (name : string) (args : object value) : Eff World McpToolResult :=
  let* isConnected := gets connected in
  if negb isConnected then throw (JsError "Client is not connected")
  else
    let* history := gets log in
    let* result := settle (sdk_callTool history name args) in
    ret (convert_result result).

(** [getServerInfo], the same in both client classes; [Undefined] when
    the server did not tell its version. *)
Definition client_getServerInfo : Eff World value :=
  let* history := gets log in
  match sdk_getServerVersion history with
  | None => ret Undefined
  | Some (name, version) => ret (Object [("name", Str name); ("version", Str version)])
  end.

(** [McpClientSession.callTool] *)
Definition callTool (client : IMcpClient) (toolName : string) (args : object value)
    : Eff World McpToolResult :=
  withConnection client (fun _ => client_callTool toolName args).

(** [McpClientSession.getServerInfo] *)
Definition getServerInfo (client : IMcpClient) : Eff World value :=
  withConnection client (fun _ => client_getServerInfo).

(** [DynamicToolCommand.execute] of src/commands/ToolCommand.ts with its
    session: a client of its own for [serverConfig], one [callTool]. *)
Definition execute {rt : Runtime} (serverConfig : ServerConfig) (tool : SchemaToOptions.Tool)
    (config : object value) : Eff World ToolCommand.CommandResult :=
  fun w =>
    let optionSchema := SchemaToOptions.toolToOptionSchema tool in
    let args := SchemaToOptions.parseOptionValues config optionSchema in
    let client := createMcpClient serverConfig in
    let '(outcome, w') :=
      callTool client (SchemaToOptions.tool_name tool) args (new_client w) in
    (Returned (ToolCommand.execute tool (fun _ _ => outcome) config), w').

End WithSdk.
(** An SDK whose answers are fixed. *)
Definition sample_sdk (answer : Outcome SdkCallResult) : Sdk :=
  {| sdk_callTool := fun _ _ _ => answer;
     sdk_getServerVersion := fun _ => Some ("everything", "1.0.0") |}.

Definition sample_answer : SdkCallResult :=
  {| sdk_content := Some [SdkText Sample.json_object_text; SdkOther "resource_link"];
     sdk_isError := None;
     sdk_structuredContent := None |}.

Definition sample_stdio : Loader.StdioServerConfig :=
  {| Loader.stdio_description := None; Loader.stdio_enabled := None;
     Loader.command := "$HOME/bin/server";
     Loader.args := Some ["--root"; "$HOME/data"];
     Loader.env := Some [("API_KEY", "${KEY}"); ("PATH", "/opt/bin")];
     Loader.cwd := Some "" |}.

Definition sample_process_env : object string :=
  [("HOME", "/home/user"); ("KEY", "s3cret"); ("PATH", "/usr/bin")].

Definition sample_environment : Environment :=
  {| process_env := sample_process_env;
     new_URL := fun s => Returned {| href := s |};
     sdk_connect := fun _ _ => Returned tt;
     sdk_listTools := fun _ => Returned [Sample.echo_tool];
     sdk_transport_close := fun _ _ => Threw (JsError "kill EPERM") |}.

End Session.

(** ** src/commands/ServerCommand.ts: loading the tools of a server *)

Module ServerCommand.
Import Js Mcp.

(** What [loadTools] works on: the disk, the client of the session it
    opens (with the trace of all clients so far), the fields
    [toolsLoaded] and [subCommands] of the command, the latter as the
    tools the sub-commands were made from, and what was logged as an
    error. *)
Record App : Type := {
  disk : Cache.FileSystem;
  session : World;
  toolsLoaded : bool;
  subCommands : list value;
  logged : list string
}.

Definition on_disk {A} (m : Eff Cache.FileSystem A) : Eff App A :=
  fun s =>
    let '(r, fs) := m (disk s) in
    (r, {| disk := fs; session := session s; toolsLoaded := toolsLoaded s;
           subCommands := subCommands s; logged := logged s |}).

Definition on_session {A} (m : Eff World A) : Eff App A :=
  fun s =>
    let '(r, w) := m (session s) in
    (r, {| disk := disk s; session := w; toolsLoaded := toolsLoaded s;
           subCommands := subCommands s; logged := logged s |}).

Definition set_toolsLoaded (b : bool) : Eff App unit :=
  modify (fun s => {| disk := disk s; session := session s; toolsLoaded := b;
                      subCommands := subCommands s; logged := logged s |}).

Definition set_subCommands (tools : list value) : Eff App unit :=
  modify (fun s => {| disk := disk s; session := session s; toolsLoaded := toolsLoaded s;
                      subCommands := tools; logged := logged s |}).

(** [AppContext.current.logger.error(text)] *)
Definition logger_error (text : string) : Eff App unit :=
  modify (fun s => {| disk := disk s; session := session s; toolsLoaded := toolsLoaded s;
                      subCommands := subCommands s; logged := logged s ++ [text] |}).

(** [new McpClientSession(...)]: the session gets a client of its own. *)
Definition new_session : Eff App unit :=
  modify (fun s => {| disk := disk s; session := Session.new_client (session s);
                      toolsLoaded := toolsLoaded s; subCommands := subCommands s;
                      logged := logged s |}).

(** [createToolCommand(serverName, serverConfig, tool)] builds a command
    of the terminatui framework from a tool as it came from the server
    or from the cache; whether that throws is left to this answer. *)
Class CommandFactory : Type := {
  createToolCommand : value -> Outcome unit
}.

Section WithEnvironment.
Context {rt : Runtime} {st : CacheAdmin.Stringifier} {environment : Environment}
        {sdk : Session.Sdk} {factory : CommandFactory}.
Variable configDir : string.

(** [tools.map(tool => createToolCommand(...))]: the first failure ends
    the loop. *)
Fixpoint build_all (tools : list value) : Outcome unit :=
  match tools with
  | [] => Returned tt
  | tool :: rest =>
      match createToolCommand tool with
      | Returned _ => build_all rest
      | Threw e => Threw e
      end
  end.

(** [createSubCommands]; only an array has a [map]. *)
Definition createSubCommands (tools : value) : Eff App unit :=
  match tools with
  | Array items =>
      run settle (build_all items) then set_subCommands items
  | _ => throw (JsError "tools.map is not a function")
  end.

(** [setCachedTools] of src/config/cache.ts as it is called: the settings
    come from the configuration file. *)
Definition setCachedTools (now : Z) (serverName : string) (tools serverInfo : value)
    : Eff Cache.FileSystem unit :=
  let* current := Loader.getSettings configDir in
  CacheAdmin.setCachedTools (Loader.getCacheDir configDir)
    (Loader.settings_in_use current) now serverName tools serverInfo.

(** [loadTools]; [now] is the time of the cache read and [later] the
    time at which the fetched tools are stored. *)
Definition loadTools (now later : Z) (serverName : string) (serverConfig : ServerConfig)
    : Eff App value :=
  let* cached := on_disk (Loader.getCachedTools configDir now serverName) in
  if truthy cached then
    let* loaded := gets toolsLoaded in
    run (if negb loaded then
           run createSubCommands cached then set_toolsLoaded true
         else ret tt)
    then ret cached
  else
    try_catch
      (run new_session then
       let client := createMcpClient serverConfig in
       let* tools := on_session (getTools client) in
       let* serverInfo := on_session (Session.getServerInfo client) in
       run on_disk (setCachedTools later serverName (Array tools) serverInfo) then
       run createSubCommands (Array tools) then
       run set_toolsLoaded true then
       ret (Array tools))
      (fun error =>
         run logger_error ("Failed to load tools from " +:+ serverName +:+ ": "
                           +:+ error_text error)
         then ret (Array [])).

End WithEnvironment.

(** A factory that builds a command from anything but [null]. *)
Definition sample_factory : CommandFactory :=
  {| createToolCommand := fun tool =>
       match tool with
       | Null | Undefined => Threw (JsError "Cannot read properties of null")
       | _ => Returned tt
       end |}.

Definition start : App :=
  {| disk := ∅; session := fresh; toolsLoaded := false; subCommands := [];
     logged := [] |}.

End ServerCommand.

(** * Properties *)

(** ** The catalog cache *)

Module CacheSpec.
Import Js Cache.

Section Facts.
Context {rt : Runtime}.
Variable cacheDir : string.

Local Abbreviation path := (getCacheFilePath cacheDir).
Local Abbreviation get := (getCachedTools cacheDir).

Ltac run_eff :=
  cbv beta iota zeta delta
    [bind try_catch ret throw gets existsSync readFileSync unlinkSync
     parse_json get_prop].

(** What one read does to an entry that is on disk, case by case. *)
Lemma getCachedTools_present settings now name (fs : FileSystem) content :
  cacheEnabled settings = true ->
  fs !! path name = Some content ->
  get settings now name fs =
    match JSON_parse content with
    | None | Some Null | Some Undefined =>
        (Returned Undefined, delete (path name) fs)
    | Some data =>
        if isCacheValid now (cachedAt_of data) (cacheTtlMs settings)
        then (Returned (tools_of data), fs)
        else (Returned Undefined, delete (path name) fs)
    end.
Proof.
  intros Hon Hfile. unfold getCachedTools. rewrite Hon. cbn [negb].
  run_eff.
  rewrite bool_decide_true by (rewrite Hfile; eauto). cbn [negb].
  rewrite Hfile.
  destruct (JSON_parse content) as [data|]; cbn.
  - destruct data; cbn; rewrite ?Hfile; try reflexivity;
      try (destruct (isCacheValid _ _ _); cbn; rewrite ?Hfile; reflexivity).
  - rewrite Hfile. reflexivity.
Qed.

Lemma getCachedTools_missing settings now name (fs : FileSystem) :
  fs !! path name = None ->
  get settings now name fs = (Returned Undefined, fs).
Proof.
  intros Hnone. unfold getCachedTools.
  destruct (cacheEnabled settings); cbn [negb]; [|reflexivity].
  run_eff. rewrite bool_decide_false; [reflexivity|].
  rewrite Hnone. intros [? ?]; discriminate.
Qed.

Lemma getCachedTools_disabled settings now name (fs : FileSystem) :
  cacheEnabled settings = false ->
  get settings now name fs = (Returned Undefined, fs).
Proof. intros Hoff. unfold getCachedTools. rewrite Hoff. reflexivity. Qed.

(** The file system after a read: untouched, or without the entry. *)
Lemma getCachedTools_footprint settings now name (fs : FileSystem) :
  snd (get settings now name fs) = fs
  \/ snd (get settings now name fs) = delete (path name) fs.
Proof.
  destruct (cacheEnabled settings) eqn:Hon.
  - destruct (fs !! path name) as [content|] eqn:Hfile.
    + rewrite (getCachedTools_present _ _ _ _ _ Hon Hfile).
      destruct (JSON_parse content) as [[]|]; cbn; auto;
        destruct (isCacheValid _ _ _); cbn; auto.
    + rewrite getCachedTools_missing by assumption. auto.
  - rewrite getCachedTools_disabled by assumption. auto.
Qed.

Lemma well_formed_reads data cachedAt tools :
  well_formed_entry data cachedAt tools ->
  cachedAt_of data = Number (Num cachedAt) /\ tools_of data = Array tools
  /\ exists fields, data = Object fields.
Proof.
  intros (fields & -> & Hc & Ht). cbn. rewrite Hc, Ht. eauto.
Qed.

(** A well-formed entry younger than the TTL is served and kept. *)
Lemma getCachedTools_fresh settings now name (fs : FileSystem)
    content data cachedAt tools ttl :
  cacheEnabled settings = true ->
  cacheTtlMs settings = Num ttl ->
  fs !! path name = Some content ->
  JSON_parse content = Some data ->
  well_formed_entry data cachedAt tools ->
  now - cachedAt < ttl ->
  get settings now name fs = (Returned (Array tools), fs).
Proof.
  intros Hon Httl Hfile Hparse Hwf Hlt.
  rewrite (getCachedTools_present _ _ _ _ _ Hon Hfile), Hparse.
  destruct (well_formed_reads _ _ _ Hwf) as (Hc & Ht & fields & ->).
  rewrite Hc, Ht, Httl. unfold isCacheValid. cbn.
  destruct (Z.ltb_spec (now - cachedAt) ttl); [reflexivity | lia].
Qed.

(** C3: with caching enabled, a well-formed persisted entry is returned
    while [now - cachedAt < ttl]; once [now - cachedAt >= ttl] the read
    returns absent and deletes the entry file, so that the file no
    longer exists and any following read for the same server returns
    absent without finding an entry. *)
Theorem getCachedTools_ttl settings now name (fs : FileSystem)
    content data cachedAt tools ttl :
  cacheEnabled settings = true ->
  cacheTtlMs settings = Num ttl ->
  fs !! path name = Some content ->
  JSON_parse content = Some data ->
  well_formed_entry data cachedAt tools ->
  (now - cachedAt < ttl ->
     get settings now name fs = (Returned (Array tools), fs))
  /\ (now - cachedAt >= ttl ->
       get settings now name fs = (Returned Undefined, delete (path name) fs)
       /\ existsSync (path name) (snd (get settings now name fs))
          = (Returned false, delete (path name) fs)
       /\ forall settings' now',
            get settings' now' name (snd (get settings now name fs))
            = (Returned Undefined, delete (path name) fs)).
Proof.
  intros Hon Httl Hfile Hparse Hwf. split.
  - intros Hlt. eapply getCachedTools_fresh; eauto.
  - intros Hge.
    assert (Hexp : get settings now name fs
                   = (Returned Undefined, delete (path name) fs)).
    { rewrite (getCachedTools_present _ _ _ _ _ Hon Hfile), Hparse.
      destruct (well_formed_reads _ _ _ Hwf) as (Hc & _ & fields & ->).
      rewrite Hc, Httl. unfold isCacheValid. cbn.
      destruct (Z.ltb_spec (now - cachedAt) ttl); [lia | reflexivity]. }
    rewrite Hexp. cbn [snd]. split; [reflexivity|]. split.
    + unfold existsSync, gets. rewrite bool_decide_false; [reflexivity|].
      rewrite lookup_delete_eq. intros [? ?]; discriminate.
    + intros settings' now'. apply getCachedTools_missing.
      apply lookup_delete_eq.
Qed.

(** C10: with caching disabled a read returns absent for every server
    and leaves the file system as it is; a well-formed entry that is on
    disk is therefore served again, within its TTL, as soon as a read is
    made with caching enabled. *)
Theorem getCachedTools_disabled_keeps_entry settings now name (fs : FileSystem) :
  cacheEnabled settings = false ->
  get settings now name fs = (Returned Undefined, fs)
  /\ forall settings' now' content data cachedAt tools ttl,
       cacheEnabled settings' = true ->
       cacheTtlMs settings' = Num ttl ->
       fs !! path name = Some content ->
       JSON_parse content = Some data ->
       well_formed_entry data cachedAt tools ->
       now' - cachedAt < ttl ->
       get settings' now' name (snd (get settings now name fs))
       = (Returned (Array tools), fs).
Proof.
  intros Hoff. rewrite (getCachedTools_disabled _ _ _ _ Hoff). split; [reflexivity|].
  intros. cbn [snd]. eapply getCachedTools_fresh; eauto.
Qed.

Lemma sanitize_name s : all_name_chars s = true -> sanitize s = s.
Proof.
  induction s as [|c s IH]; cbn; [reflexivity|].
  intros [Hc Hs]%andb_prop. rewrite Hc, IH by assumption. reflexivity.
Qed.

Lemma append_cons c (s t : string) : String c s +:+ t = String c (s +:+ t).
Proof. reflexivity. Qed.

Lemma append_length (s t : string) :
  String.length (s +:+ t) = (String.length s + String.length t)%nat.
Proof.
  induction s as [|c s IH]; [reflexivity|].
  rewrite append_cons. cbn [String.length]. rewrite IH. reflexivity.
Qed.

Lemma append_cancel_r (s1 s2 t : string) : s1 +:+ t = s2 +:+ t -> s1 = s2.
Proof.
  revert s2. induction s1 as [|c s1 IH]; intros [|d s2] H.
  - reflexivity.
  - apply (f_equal String.length) in H.
    rewrite append_cons in H. cbn [String.length] in H.
    rewrite !append_length in H. cbn [String.length] in H. lia.
  - apply (f_equal String.length) in H.
    rewrite append_cons in H. cbn [String.length] in H.
    rewrite !append_length in H. cbn [String.length] in H. lia.
  - rewrite !append_cons in H. injection H as -> H. f_equal. auto.
Qed.

(** Two servers share a cache file exactly when their sanitised names agree. *)
Lemma getCacheFilePath_eq a b : path a = path b <-> sanitize a = sanitize b.
Proof.
  unfold getCacheFilePath, path_join. split.
  - intros H. apply String.app_inj in H. apply String.app_inj in H.
    eapply append_cancel_r; eassumption.
  - intros ->. reflexivity.
Qed.

(** What storing an entry does to the files: nothing, or the entry of
    the server is written. *)
Lemma setCachedTools_footprint {st : CacheAdmin.Stringifier}
    settings now name tools serverInfo (fs : FileSystem) :
  snd (CacheAdmin.setCachedTools cacheDir settings now name tools serverInfo fs) = fs
  \/ exists content,
       snd (CacheAdmin.setCachedTools cacheDir settings now name tools serverInfo fs)
       = <[path name := content]> fs.
Proof.
  unfold CacheAdmin.setCachedTools.
  destruct (cacheEnabled settings); cbn [negb]; [|left; reflexivity].
  unfold CacheAdmin.ensureCacheDir, CacheAdmin.dirExistsSync, CacheAdmin.readdirSync.
  cbv beta iota zeta delta
    [bind try_catch ret throw gets modify CacheAdmin.writeFileSync CacheAdmin.mkdirSync
     CacheAdmin.stringify].
  destruct (negb (negb _)); destruct (CacheAdmin.JSON_stringify _); cbn [snd]; eauto.
Qed.

(** What clearing an entry does to the files: the entry of the server is
    gone, nothing else changes. *)
Lemma clearServerCache_footprint name (fs : FileSystem) :
  snd (clearServerCache cacheDir name fs) = delete (path name) fs.
Proof.
  unfold clearServerCache. run_eff.
  destruct (fs !! path name) as [content|] eqn:Hfile.
  - rewrite bool_decide_true by eauto. cbn [negb]. rewrite Hfile. reflexivity.
  - rewrite bool_decide_false by (intros [? ?]; discriminate). cbn [negb snd].
    rewrite delete_id by assumption. reflexivity.
Qed.

(** C9 (amended): for server identities made only of letters, digits,
    [_] and [-], distinct identities are persisted at distinct paths, and
    the operations on the entry of one of them, reading it, storing it
    and clearing it, leave the other's entry as it was. *)
Theorem getCacheFilePath_injective_on_names {st : CacheAdmin.Stringifier} a b :
  all_name_chars a = true ->
  all_name_chars b = true ->
  a <> b ->
  path a <> path b
  /\ (forall settings now (fs : FileSystem),
        snd (get settings now a fs) !! path b = fs !! path b)
  /\ (forall settings now tools serverInfo (fs : FileSystem),
        snd (CacheAdmin.setCachedTools cacheDir settings now a tools serverInfo fs)
          !! path b
        = fs !! path b)
  /\ (forall fs : FileSystem,
        snd (clearServerCache cacheDir a fs) !! path b = fs !! path b).
Proof.
  intros Ha Hb Hne.
  assert (Hpath : path a <> path b).
  { rewrite getCacheFilePath_eq, !sanitize_name by assumption. exact Hne. }
  split; [exact Hpath|]. split; [|split].
  - intros settings now fs.
    destruct (getCachedTools_footprint settings now a fs) as [-> | ->];
      [reflexivity | by rewrite lookup_delete_ne].
  - intros settings now tools serverInfo fs.
    destruct (setCachedTools_footprint settings now a tools serverInfo fs)
      as [-> | [content ->]]; [reflexivity | by rewrite lookup_insert_ne].
  - intros fs. rewrite clearServerCache_footprint. by rewrite lookup_delete_ne.
Qed.

End Facts.

Section Examples.
Import Sample.

Local Abbreviation path := (getCacheFilePath Sample.cacheDir).
Local Abbreviation get := (getCachedTools (rt := Sample.runtime) Sample.cacheDir).

(** C4, as stated, fails: an entry without a [tools] list is structurally
    invalid, yet with a fresh [cachedAt] it is kept on disk; when
    [tools] is not a list it is handed to the caller as it is; and with
    caching disabled an entry that does not parse is not deleted. *)
Lemma getCachedTools_keeps_malformed_entry :
  let no_tools := "{ " +:+ quoted "cachedAt" +:+ ": 0 }" in
  let bad_tools := entry_text "0" (quoted "oops") in
  let off := {| cacheEnabled := false; cacheTtlMs := Num 1000 |} in
  (exists data, JSON_parse no_tools = Some data
     /\ is_well_formed data = false
     /\ get (settings 1000) 500 "alpha" (disk no_tools)
        = (Returned Undefined, disk no_tools)
     /\ disk no_tools !! path "alpha" = Some no_tools)
  /\ (exists data, JSON_parse bad_tools = Some data
     /\ is_well_formed data = false
     /\ get (settings 1000) 500 "alpha" (disk bad_tools)
        = (Returned (Str "oops"), disk bad_tools))
  /\ (JSON_parse "not json" = None
      /\ get off 500 "alpha" (disk "not json") = (Returned Undefined, disk "not json")
      /\ disk "not json" !! path "alpha" = Some "not json").
Proof.
  intros no_tools bad_tools off. split; [|split].
  - eexists. split; [vm_compute; reflexivity|]. split; [reflexivity|].
    assert (Hfile : disk no_tools !! path "alpha" = Some no_tools)
      by apply lookup_singleton_eq.
    split; [|exact Hfile].
    rewrite (getCachedTools_present _ (settings 1000) 500 _ _ _ eq_refl Hfile).
    vm_compute. reflexivity.
  - eexists. split; [vm_compute; reflexivity|]. split; [reflexivity|].
    assert (Hfile : disk bad_tools !! path "alpha" = Some bad_tools)
      by apply lookup_singleton_eq.
    rewrite (getCachedTools_present _ (settings 1000) 500 _ _ _ eq_refl Hfile).
    vm_compute. reflexivity.
  - split; [vm_compute; reflexivity|]. split; [|apply lookup_singleton_eq].
    apply getCachedTools_disabled. reflexivity.
Qed.

(** C9, as stated, fails: the transform maps every other character to
    [_], so two distinct identities can share one cache file. *)
Lemma getCacheFilePath_collision :
  "a.b" <> "a_b" /\ path "a.b" = path "a_b".
Proof. split; [discriminate | reflexivity]. Qed.

End Examples.

(** The scenario of the design: TTL 1000 ms, an entry captured at t = 0
    is served at t = 500 and purged at t = 1500. *)
Lemma getCachedTools_ttl_witness :
  let fs := Sample.disk (Sample.entry_text "0" Sample.echo_tool_text) in
  let get := getCachedTools (rt := Sample.runtime) Sample.cacheDir
               (Sample.settings 1000) in
  get 500 "alpha" fs = (Returned (Array [Sample.echo_tool]), fs)
  /\ get 1500 "alpha" fs = (Returned Undefined, delete (getCacheFilePath Sample.cacheDir "alpha") fs).
Proof.
  intros fs get.
  assert (Hwf : well_formed_entry
                  (Object [("cachedAt", Number (Num 0));
                           ("tools", Array [Sample.echo_tool])])
                  0 [Sample.echo_tool]).
  { eexists. split; [reflexivity|]. split; reflexivity. }
  split.
  - refine (proj1 (getCachedTools_ttl (rt := Sample.runtime) Sample.cacheDir
                     (Sample.settings 1000) 500
                     "alpha" fs _ _ 0 [Sample.echo_tool] 1000
                     eq_refl eq_refl _ _ Hwf) _).
    + apply lookup_singleton_eq.
    + vm_compute. reflexivity.
    + lia.
  - refine (proj1 (proj2 (getCachedTools_ttl (rt := Sample.runtime) Sample.cacheDir
                     (Sample.settings 1000) 1500
                     "alpha" fs _ _ 0 [Sample.echo_tool] 1000
                     eq_refl eq_refl _ _ Hwf) _)).
    + apply lookup_singleton_eq.
    + vm_compute. reflexivity.
    + lia.
Defined.

(** Caching switched off and on again over a fresh entry. *)
Lemma getCachedTools_disabled_keeps_entry_witness :
  let fs := Sample.disk (Sample.entry_text "0" Sample.echo_tool_text) in
  let off := {| cacheEnabled := false; cacheTtlMs := Num 1000 |} in
  let get := getCachedTools (rt := Sample.runtime) Sample.cacheDir in
  get off 500 "alpha" fs = (Returned Undefined, fs)
  /\ get (Sample.settings 1000) 600 "alpha" (snd (get off 500 "alpha" fs))
     = (Returned (Array [Sample.echo_tool]), fs).
Proof.
  intros fs off get.
  pose proof (getCachedTools_disabled_keeps_entry (rt := Sample.runtime)
                Sample.cacheDir off 500 "alpha" fs eq_refl) as [Hoff Hon].
  split; [exact Hoff|].
  refine (Hon (Sample.settings 1000) 600 _ _ 0 [Sample.echo_tool] 1000
              eq_refl eq_refl _ _ _ _).
  - apply lookup_singleton_eq.
  - vm_compute. reflexivity.
  - eexists. split; [reflexivity|]. split; reflexivity.
  - lia.
Defined.

Lemma getCacheFilePath_injective_on_names_witness :
  getCacheFilePath Sample.cacheDir "alpha" <> getCacheFilePath Sample.cacheDir "beta-2".
Proof.
  refine (proj1 (getCacheFilePath_injective_on_names (rt := Sample.runtime)
                   (st := SampleIo.stringifier)
                   Sample.cacheDir "alpha" "beta-2" eq_refl eq_refl _)).
  discriminate.
Defined.

End CacheSpec.

(** ** Objects as ordered property lists *)

Module ObjectFacts.
Import Js.

Section Facts.
Context {V : Type}.
Implicit Types (o : object V) (k : string) (v : V).

Lemma obj_get_set_eq o k v : obj_get (obj_set o k v) k = Some v.
Proof.
  induction o as [|[k' v'] o IH]; cbn.
  - rewrite String.eqb_refl. reflexivity.
  - destruct (String.eqb k' k) eqn:E; cbn; rewrite E; [reflexivity | exact IH].
Qed.

Lemma obj_get_set_ne o k k' v : k <> k' -> obj_get (obj_set o k v) k' = obj_get o k'.
Proof.
  intros Hne. induction o as [|[k0 v0] o IH]; cbn.
  - destruct (String.eqb_spec k k'); [contradiction | reflexivity].
  - destruct (String.eqb_spec k0 k) as [->|]; cbn.
    + destruct (String.eqb_spec k k'); [contradiction | reflexivity].
    + destruct (String.eqb_spec k0 k'); [reflexivity | exact IH].
Qed.

(** A property that can be read was written: it is one of the entries. *)
Lemma obj_get_In o k v : obj_get o k = Some v -> In (k, v) o.
Proof.
  induction o as [|[k' v'] o IH]; cbn; [discriminate|].
  destruct (String.eqb_spec k' k) as [->|]; intros H.
  - injection H as ->. left. reflexivity.
  - right. auto.
Qed.

(** Writing a property adds no entry but the one written. *)
Lemma In_obj_set o k v k' v' :
  In (k', v') (obj_set o k v) -> (k' = k /\ v' = v) \/ In (k', v') o.
Proof.
  induction o as [|[k0 v0] o IH]; cbn.
  - intros [H|[]]. injection H as <- <-. left. split; reflexivity.
  - destruct (String.eqb_spec k0 k) as [->|]; cbn.
    + intros [H|H]; [injection H as <- <-; left; split; reflexivity | right; right; exact H].
    + intros [H|H]; [right; left; exact H|].
      destruct (IH H) as [?|?]; [left; assumption | right; right; assumption].
Qed.

(** With keys that are unique, as in an object, a key has one value. *)
Lemma NoDup_keys_functional o k v v' :
  NoDup (keys o) -> In (k, v) o -> In (k, v') o -> v = v'.
Proof.
  unfold keys. induction o as [|[k0 v0] o IH]; cbn; [contradiction|].
  intros Hnd. inversion Hnd as [|? ? Hnotin Hnd']; subst.
  intros [H1|H1] [H2|H2].
  - congruence.
  - injection H1 as -> ->. exfalso. apply Hnotin, list_elem_of_In.
    apply (in_map fst) in H2. exact H2.
  - injection H2 as -> ->. exfalso. apply Hnotin, list_elem_of_In.
    apply (in_map fst) in H1. exact H1.
  - eauto.
Qed.

End Facts.
End ObjectFacts.

(** ** The schema mapper *)

Module SchemaSpec.
Import Js SchemaToOptions ObjectFacts.

(** The loop of [toolToOptionSchema] leaves alone the keys it does not visit. *)
Lemma add_property_other requiredSet props key :
  forall schema order,
    ~ In key (keys props) ->
    obj_get (fst (fold_left (add_property requiredSet) props (schema, order))) key
    = obj_get schema key.
Proof.
  induction props as [|[k p] props IH]; intros schema order Hnot; cbn.
  - reflexivity.
  - cbn in Hnot. rewrite IH by tauto.
    apply obj_get_set_ne. tauto.
Qed.

(** Every declared property ends up in the schema, mapped with the
    required flag of the [required] array and some order. *)
Lemma add_property_visited requiredSet props key prop :
  forall schema order,
    NoDup (keys props) ->
    In (key, prop) props ->
    exists n,
      obj_get (fst (fold_left (add_property requiredSet) props (schema, order))) key
      = jsonSchemaPropertyToOptionDef key prop
          (existsb (String.eqb key) requiredSet) n.
Proof.
  induction props as [|[k p] props IH]; intros schema order Hnd Hin; cbn.
  - contradiction.
  - cbn in Hnd. inversion Hnd as [|? ? Hnotin Hnd']; subst.
    destruct Hin as [Heq|Hin].
    + injection Heq as -> ->. exists order.
      rewrite add_property_other by (intros ?%list_elem_of_In; contradiction).
      apply obj_get_set_eq.
    + apply IH; assumption.
Qed.

(** C6: a property that supplies a default value is mapped to a
    parameter with [required = false], whatever the schema's [required]
    array lists. *)
Theorem toolToOptionSchema_default_not_required tool schema props key prop dflt :
  inputSchema tool = Some schema ->
  properties schema = Some props ->
  NoDup (keys props) ->
  In (key, prop) props ->
  prop_default prop = Some dflt ->
  exists optionDef,
    obj_get (toolToOptionSchema tool) key = Some optionDef
    /\ opt_required optionDef = false
    /\ opt_default optionDef = Some dflt.
Proof.
  intros Hschema Hprops Hnd Hin Hdflt.
  unfold toolToOptionSchema. rewrite Hschema. cbv zeta. rewrite Hprops.
  destruct (add_property_visited (default [] (required schema)) props key prop
              [] 0%nat Hnd Hin) as [n Hn].
  unfold jsonSchemaPropertyToOptionDef in Hn. rewrite Hdflt in Hn.
  eexists. split; [exact Hn|]. cbn. split; reflexivity.
Qed.

(** [{type: "number", default: 5}], here even listed as required. *)
Lemma toolToOptionSchema_default_not_required_witness :
  let count :=
    {| prop_type := TypeName "number"; prop_description := None;
       prop_default := Some (Number (Num 5)); prop_enum := None;
       prop_minimum := None; prop_maximum := None; prop_items := None |} in
  let tool :=
    {| tool_name := "repeat"; tool_title := None; tool_description := None;
       inputSchema := Some {| properties := Some [("count", count)];
                              required := Some ["count"] |} |} in
  exists optionDef,
    obj_get (toolToOptionSchema tool) "count" = Some optionDef
    /\ opt_required optionDef = false
    /\ opt_default optionDef = Some (Number (Num 5)).
Proof.
  intros count tool.
  refine (toolToOptionSchema_default_not_required tool _ _ "count" count
            (Number (Num 5)) eq_refl eq_refl _ _ eq_refl).
  - apply (bool_decide_unpack _). vm_compute. exact I.
  - left. reflexivity.
Defined.

Example keyToLabel_snake : keyToLabel "max_results" = "Max Results".
Proof. reflexivity. Qed.

Example keyToLabel_camel : keyToLabel "maxResultCount" = "Max Result Count".
Proof. reflexivity. Qed.

(** A nullable integer with a lower bound, listed as required. *)
Example jsonSchemaPropertyToOptionDef_integer :
  let limit :=
    {| prop_type := TypeNames ["integer"; "null"]; prop_description := Some "";
       prop_default := None; prop_enum := Some []; prop_minimum := Some (Num 1);
       prop_maximum := None; prop_items := None |} in
  jsonSchemaPropertyToOptionDef "limit" limit true 3
  = Some {| opt_type := TNumber; opt_description := "The limit parameter";
            opt_required := true; opt_order := 3; opt_default := None;
            opt_enum := None; opt_min := Some (Num 1); opt_max := None;
            opt_label := Some "Limit" |}.
Proof. reflexivity. Qed.

(** Raw values as the command line hands them over. *)
Example parseOptionValues_coerces :
  parseOptionValues (rt := Sample.runtime)
    [("n", Str "42"); ("missing", Null); ("b", Str "true"); ("a", Str "x, y ,z");
     ("s", Str "hi"); ("extra", Bool false)]
    Sample.schema
  = [("n", Number (Num 42)); ("b", Bool true);
     ("a", Array [Str "x"; Str "y"; Str "z"]); ("s", Str "hi");
     ("extra", Bool false)].
Proof. vm_compute. reflexivity. Qed.

Section Parse.
Context {rt : Runtime}.

Lemma convert_not_nullish type v : is_nullish v = false -> is_nullish (convert type v) = false.
Proof. destruct type, v; cbn; auto. Qed.

(** Each property of the result was put there for an entry of [values]
    whose raw value is neither [null] nor [undefined], and holds such a
    value itself. *)
Lemma parse_entries_origin schema values :
  forall acc key v,
    In (key, v) (fold_left (parse_entry schema) values acc) ->
    In (key, v) acc
    \/ (is_nullish v = false
        /\ exists raw, In (key, raw) values /\ is_nullish raw = false).
Proof.
  induction values as [|[k raw] values IH]; intros acc key v Hin; cbn in Hin.
  - left. exact Hin.
  - destruct (IH _ _ _ Hin) as [Hacc | (Hv & raw' & Hin' & Hraw')].
    + unfold parse_entry in Hacc.
      destruct (is_nullish raw) eqn:Hraw; [left; exact Hacc|].
      destruct (obj_get schema k) as [optionDef|];
        apply In_obj_set in Hacc as [[-> ->]|Hacc]; auto; right.
      * split; [apply convert_not_nullish; exact Hraw|].
        exists raw. split; [left; reflexivity | exact Hraw].
      * split; [exact Hraw|].
        exists raw. split; [left; reflexivity | exact Hraw].
    + right. split; [exact Hv|]. exists raw'. split; [right; exact Hin' | exact Hraw'].
Qed.

(** C7: a key of the result always stems from an entry whose raw value
    is neither [null] nor [undefined]; so, for every schema and hence
    every parameter type, a key supplied with [null] or [undefined] is
    omitted, and no property of the result is [null] or [undefined]. *)
Theorem parseOptionValues_omits_nullish (values : object value) (schema : OptionSchema) :
  (forall key v,
     obj_get (parseOptionValues values schema) key = Some v ->
     exists raw, In (key, raw) values /\ is_nullish raw = false)
  /\ (forall key raw,
        NoDup (keys values) ->
        In (key, raw) values ->
        is_nullish raw = true ->
        obj_get (parseOptionValues values schema) key = None)
  /\ (forall key v,
        In (key, v) (parseOptionValues values schema) -> is_nullish v = false).
Proof.
  assert (Horigin : forall key v,
            In (key, v) (parseOptionValues values schema) ->
            is_nullish v = false
            /\ exists raw, In (key, raw) values /\ is_nullish raw = false).
  { intros key v Hin.
    destruct (parse_entries_origin schema values [] key v Hin) as [[]|H]. exact H. }
  split; [|split].
  - intros key v Hget. apply obj_get_In in Hget. apply Horigin in Hget. tauto.
  - intros key raw Hnd Hin Hnull.
    destruct (obj_get (parseOptionValues values schema) key) as [v|] eqn:Hget;
      [|reflexivity].
    apply obj_get_In, Horigin in Hget. destruct Hget as (_ & raw' & Hin' & Hraw').
    rewrite (NoDup_keys_functional _ _ _ _ Hnd Hin Hin') in Hnull. congruence.
  - intros key v Hin. apply Horigin in Hin. tauto.
Qed.

End Parse.

(** One [null] or [undefined] per parameter type, next to a real value. *)
Lemma parseOptionValues_omits_nullish_witness :
  let values := [("s", Null); ("n", Undefined); ("b", Null); ("a", Undefined);
                 ("x", Str "7")] in
  let result := parseOptionValues (rt := Sample.runtime) values Sample.schema in
  obj_get result "s" = None /\ obj_get result "n" = None
  /\ obj_get result "b" = None /\ obj_get result "a" = None.
Proof.
  intros values result.
  pose proof (proj1 (proj2 (parseOptionValues_omits_nullish (rt := Sample.runtime)
                              values Sample.schema))) as Homit.
  assert (Hnd : NoDup (keys values)).
  { apply (bool_decide_unpack _). vm_compute. exact I. }
  split; [|split; [|split]].
  - apply (Homit "s" Null Hnd); [cbn; tauto | reflexivity].
  - apply (Homit "n" Undefined Hnd); [cbn; tauto | reflexivity].
  - apply (Homit "b" Null Hnd); [cbn; tauto | reflexivity].
  - apply (Homit "a" Undefined Hnd); [cbn; tauto | reflexivity].
Defined.

End SchemaSpec.

(** ** Result normalisation *)

Module ToolCommandSpec.
Import Js Mcp SchemaToOptions ToolCommand.

Section Facts.
Context {rt : Runtime}.

Lemma truthy_string_spec s : truthy_string s = true <-> s <> "".
Proof.
  unfold truthy_string. destruct (String.eqb_spec s ""); cbn; split; congruence.
Qed.

Lemma or_empty text : (if truthy_string text then text else "") = text.
Proof.
  destruct (truthy_string text) eqn:E; [reflexivity|].
  unfold truthy_string in E. destruct (String.eqb_spec text ""); [congruence | discriminate].
Qed.

(** How one content item is rendered in the list form. *)
Lemma tagged_entry_spec c :
  match c with
  | TextContent text =>
      (forall parsed, JSON_parse text = Some parsed ->
         tagged_entry c = Object [("type", Str "text"); ("content", parsed)])
      /\ (JSON_parse text = None ->
          tagged_entry c = Object [("type", Str "text"); ("content", Str text)])
  | _ => tagged_entry c = content_object c
  end.
Proof.
  destruct c; try reflexivity. cbn. rewrite or_empty.
  split; [intros parsed -> | intros ->]; reflexivity.
Qed.

(** C8 (amended): a structured payload is passed through unchanged.
    For a result that is not flagged as an error and has no payload: if
    its content is exactly one text item with non-empty text, the output
    is the decoded JSON when the text parses and the wrapper [{text}]
    with that exact text when it does not; in every other case the
    output lists every content item as a tagged entry, text entries
    being parsed with the same fallback to the plain text.  For a result
    that is flagged as an error the content is not looked at: without a
    payload the output is absent. *)
Theorem format_result_normalizes tool result :
  (forall payload,
     structuredContent result = Some payload ->
     data (format_result tool result) = Object payload)
  /\ (isError result <> Some true ->
      structuredContent result = None ->
      (forall text,
         content result = [TextContent text] -> text <> "" ->
         (forall parsed, JSON_parse text = Some parsed ->
            data (format_result tool result) = parsed)
         /\ (JSON_parse text = None ->
             data (format_result tool result) = Object [("text", Str text)]))
      /\ ((forall text, content result = [TextContent text] -> text = "") ->
          data (format_result tool result) = Array (map tagged_entry (content result))
          /\ forall c, In c (content result) ->
               match c with
               | TextContent text =>
                   (forall parsed, JSON_parse text = Some parsed ->
                      tagged_entry c = Object [("type", Str "text"); ("content", parsed)])
                   /\ (JSON_parse text = None ->
                       tagged_entry c = Object [("type", Str "text"); ("content", Str text)])
               | _ => tagged_entry c = content_object c
               end))
  /\ (isError result = Some true ->
      structuredContent result = None ->
      data (format_result tool result) = Undefined).
Proof.
  split; [|split].
  - intros payload Hp. unfold format_result. rewrite Hp.
    destruct (truthy _); reflexivity.
  - intros Hok Hnone.
    assert (Hdata : data (format_result tool result)
                    = formatContentAsData (content result)).
    { unfold format_result. rewrite Hnone.
      destruct (isError result) as [[]|]; [congruence | reflexivity | reflexivity]. }
    rewrite Hdata. split.
    + intros text Hc Hne. rewrite Hc. cbn.
      apply truthy_string_spec in Hne. rewrite Hne.
      split; [intros parsed -> | intros ->]; reflexivity.
    + intros Hshape. split; [|intros c _; apply tagged_entry_spec].
      unfold formatContentAsData.
      destruct (content result) as [|[text| | |] [|c' rest]]; try reflexivity.
      rewrite (Hshape text eq_refl). reflexivity.
  - intros Hflag Hnone. unfold format_result. rewrite Hflag, Hnone. reflexivity.
Qed.

End Facts.

(** Several items: each one becomes a tagged entry. *)
Example formatContentAsData_list :
  formatContentAsData (rt := Sample.runtime)
    [TextContent "[1, 2]"; TextContent "done"; ImageContent "aGk=" "image/png"]
  = Array [Object [("type", Str "text"); ("content", Array [Number (Num 1); Number (Num 2)])];
           Object [("type", Str "text"); ("content", Str "done")];
           Object [("type", Str "image"); ("data", Str "aGk="); ("mimeType", Str "image/png")]].
Proof. vm_compute. reflexivity. Qed.

(** C8, as stated, fails twice.  A single text item whose text is empty
    does not parse, yet the output is the list form, not the wrapper
    [{text: ""}]; and for a result flagged as an error the text is not
    decoded at all: without a payload the output is [undefined]. *)
Lemma format_result_not_normalized :
  (Sample.JSON_parse "" = None
   /\ data (format_result (rt := Sample.runtime) Sample.tool (Sample.text_result false ""))
      = Array [Object [("type", Str "text"); ("content", Str "")]]
   /\ data (format_result (rt := Sample.runtime) Sample.tool (Sample.text_result false ""))
      <> Object [("text", Str "")])
  /\ (Sample.JSON_parse Sample.json_object_text = Some (Object [("a", Number (Num 1))])
      /\ data (format_result (rt := Sample.runtime) Sample.tool
                 (Sample.text_result true Sample.json_object_text))
         = Undefined
      /\ data (format_result (rt := Sample.runtime) Sample.tool
                 (Sample.text_result true Sample.json_object_text))
         <> Object [("a", Number (Num 1))]).
Proof.
  split; (split; [vm_compute; reflexivity|]); (split; [vm_compute; reflexivity|]);
    vm_compute; discriminate.
Qed.

(** A JSON object in a single text item, plain text, and the same JSON
    object in a result flagged as an error. *)
Lemma format_result_normalizes_witness :
  data (format_result (rt := Sample.runtime) Sample.tool
          (Sample.text_result false Sample.json_object_text))
  = Object [("a", Number (Num 1))]
  /\ data (format_result (rt := Sample.runtime) Sample.tool
             (Sample.text_result false "plain words"))
     = Object [("text", Str "plain words")]
  /\ data (format_result (rt := Sample.runtime) Sample.tool
             (Sample.text_result true Sample.json_object_text))
     = Undefined.
Proof.
  split; [|split].
  - refine (proj1 (proj1 (proj1 (proj2 (format_result_normalizes (rt := Sample.runtime)
              Sample.tool (Sample.text_result false Sample.json_object_text))) _ eq_refl)
              Sample.json_object_text eq_refl _) _ _).
    + discriminate.
    + discriminate.
    + vm_compute. reflexivity.
  - refine (proj2 (proj1 (proj1 (proj2 (format_result_normalizes (rt := Sample.runtime)
              Sample.tool (Sample.text_result false "plain words"))) _ eq_refl)
              "plain words" eq_refl _) _).
    + discriminate.
    + discriminate.
    + vm_compute. reflexivity.
  - exact (proj2 (proj2 (format_result_normalizes (rt := Sample.runtime)
             Sample.tool (Sample.text_result true Sample.json_object_text)))
             eq_refl eq_refl).
Defined.

End ToolCommandSpec.

(** ** Transports and sessions *)

Module McpSpec.
Import Js Mcp.
Local Open Scope list_scope.

Ltac run_mcp :=
  cbv beta iota zeta delta
    [bind try_catch try_finally ret throw gets modify emit set_connected
     set_transport settle await_connect await_transport_close await_listTools];
  cbn [connected transport log].

Section Facts.
Context {environment : Environment}.

(** [close()] always returns: a failure of [transport.close()] is caught.
    Its first trace is the entry into [close]. *)
Lemma client_close_returns w :
  exists w', client_close w = (Returned tt, w')
             /\ exists evs, log w' = log w ++ Invoked MClose :: evs.
Proof.
  unfold client_close. run_mcp.
  destruct (connected w); [destruct (transport w) as [t|]|].
  - run_mcp. destruct (sdk_transport_close _ t);
      eexists; (split; [reflexivity|]); cbn [log];
      rewrite <- app_assoc; eexists; reflexivity.
  - eexists. split; [reflexivity|]. exists []. reflexivity.
  - destruct (transport w); eexists; (split; [reflexivity|]); exists []; reflexivity.
Qed.

(** On a connected client [close()] closes the transport and resets the
    client, whether or not closing the transport succeeds. *)
Lemma client_close_connected w t :
  connected w = true ->
  transport w = Some t ->
  client_close w
  = (Returned tt,
     {| connected := false; transport := None;
        log := log w ++ [Invoked MClose;
                         TransportClose t (sdk_transport_close (log w ++ [Invoked MClose]) t)] |}).
Proof.
  intros Hon Ht. unfold client_close. run_mcp. rewrite Hon, Ht. run_mcp.
  destruct (sdk_transport_close _ t) as [[]|e]; rewrite <- app_assoc; reflexivity.
Qed.

Lemma close_createMcpClient config : close (createMcpClient config) = client_close.
Proof. destruct config; reflexivity. Qed.

(** [HttpMcpClient.connect] on a client that is not connected, for a
    valid URL: the attempts made, in order, and what is surfaced. *)
Lemma http_connect_attempts config w u :
  connected w = false ->
  new_URL (url config) = Returned u ->
  let requestInit := {| init_headers := headers config |} in
  let modern := StreamableHTTPClientTransport u requestInit in
  let legacy := SSEClientTransport u requestInit in
  let log0 := log w ++ [Invoked MConnect] in
  let first := sdk_connect log0 modern in
  let log1 := log0 ++ [SdkConnect modern first] in
  let second := sdk_connect log1 legacy in
  let log2 := log1 ++ [SdkConnect legacy second] in
  http_connect config w =
    match first with
    | Returned _ =>
        (Returned tt, {| connected := true; transport := Some modern; log := log1 |})
    | Threw streamableError =>
        if isClientError streamableError then
          match second with
          | Returned _ =>
              (Returned tt, {| connected := true; transport := Some legacy; log := log2 |})
          | Threw _ =>
              (Threw (JsError ("Failed to connect with both Streamable HTTP and SSE: "
                               +:+ error_text streamableError)),
               {| connected := false; transport := Some legacy; log := log2 |})
          end
        else
          (Threw streamableError,
           {| connected := false; transport := Some modern; log := log1 |})
    end.
Proof.
  intros Hoff Hurl. unfold http_connect. run_mcp. rewrite Hoff, Hurl. run_mcp.
  destruct (sdk_connect _ (StreamableHTTPClientTransport _ _)) as [[]|e1] eqn:E1;
    [reflexivity|].
  destruct (isClientError e1); [|reflexivity].
  run_mcp.
  destruct (sdk_connect _ (SSEClientTransport _ _)) as [[]|e2]; reflexivity.
Qed.

(** The fallback policy as the code decides it: the legacy sub-protocol
    is tried once, with the same URL and headers, exactly when the first
    failure is an [Error] whose message contains the character 4;
    otherwise the first failure is rethrown as it is. *)
Lemma http_connect_fallback_policy config w u streamableError :
  connected w = false ->
  new_URL (url config) = Returned u ->
  let requestInit := {| init_headers := headers config |} in
  let modern := StreamableHTTPClientTransport u requestInit in
  let legacy := SSEClientTransport u requestInit in
  sdk_connect (log w ++ [Invoked MConnect]) modern = Threw streamableError ->
  (isClientError streamableError = true ->
   exists second,
     log (snd (http_connect config w))
     = log w ++ [Invoked MConnect; SdkConnect modern (Threw streamableError);
                 SdkConnect legacy second])
  /\ (isClientError streamableError = false ->
      fst (http_connect config w) = Threw streamableError
      /\ log (snd (http_connect config w))
         = log w ++ [Invoked MConnect; SdkConnect modern (Threw streamableError)]).
Proof.
  intros Hoff Hurl requestInit modern legacy Hfirst.
  rewrite (http_connect_attempts config w u Hoff Hurl).
  fold requestInit modern legacy. rewrite Hfirst. split; intros ->.
  - exists (sdk_connect ((log w ++ [Invoked MConnect])
                          ++ [SdkConnect modern (Threw streamableError)]) legacy).
    destruct (sdk_connect _ legacy) as [[]|e2]; cbn [snd log];
      rewrite <- !app_assoc; reflexivity.
  - cbn [fst snd log]. rewrite <- app_assoc. split; reflexivity.
Qed.

(** C5 (amended): when the modern attempt fails with a recognised
    client error and the legacy attempt fails too, the one error that is
    surfaced is a new [Error] that says that both Streamable HTTP and SSE
    failed and carries the message of the modern-transport failure; it
    does not depend on the SSE failure. *)
Theorem http_connect_both_fail config w u streamableError sseError :
  connected w = false ->
  new_URL (url config) = Returned u ->
  let requestInit := {| init_headers := headers config |} in
  let modern := StreamableHTTPClientTransport u requestInit in
  let legacy := SSEClientTransport u requestInit in
  let log1 := log w ++ [Invoked MConnect; SdkConnect modern (Threw streamableError)] in
  sdk_connect (log w ++ [Invoked MConnect]) modern = Threw streamableError ->
  isClientError streamableError = true ->
  sdk_connect log1 legacy = Threw sseError ->
  fst (http_connect config w)
  = Threw (JsError ("Failed to connect with both Streamable HTTP and SSE: "
                    +:+ error_text streamableError)).
Proof.
  intros Hoff Hurl requestInit modern legacy log1 Hfirst Hclient Hsecond.
  rewrite (http_connect_attempts config w u Hoff Hurl).
  subst requestInit modern legacy log1. cbv zeta.
  rewrite Hfirst, Hclient, <- app_assoc. cbn [app].
  rewrite Hsecond. reflexivity.
Qed.

(** How [connect] starts, for both transports. *)
Lemma connect_trace config w :
  exists evs, log (snd (connect (createMcpClient config) w))
              = log w ++ Invoked MConnect :: evs.
Proof.
  destruct config as [c|c]; cbn [createMcpClient createStdioClient createHttpClient connect].
  - unfold stdio_connect. run_mcp. destruct (connected w); run_mcp.
    + exists []. reflexivity.
    + destruct (sdk_connect _ _) as [[]|e]; cbn [snd log];
        rewrite <- app_assoc; eexists; reflexivity.
  - destruct (connected w) eqn:Hoff.
    + unfold http_connect. run_mcp. rewrite Hoff. exists []. reflexivity.
    + destruct (new_URL (url c)) as [u|e] eqn:Hurl.
      * rewrite (http_connect_attempts c w u Hoff Hurl).
        destruct (sdk_connect _ (StreamableHTTPClientTransport _ _)) as [[]|e1];
          [|destruct (isClientError e1);
            [destruct (sdk_connect _ (SSEClientTransport _ _)) as [[]|e2]|]];
          cbn [snd log]; rewrite <- ?app_assoc; eexists; reflexivity.
      * unfold http_connect. run_mcp. rewrite Hoff, Hurl. exists []. reflexivity.
Qed.

(** A [connect] that returns leaves the client connected. *)
Lemma connect_returns_connected config w w1 :
  connect (createMcpClient config) w = (Returned tt, w1) -> connected w1 = true.
Proof.
  destruct config as [c|c]; cbn [createMcpClient createStdioClient createHttpClient connect].
  - unfold stdio_connect. run_mcp. destruct (connected w) eqn:Hon; run_mcp.
    + intros H. injection H as <-. reflexivity.
    + destruct (sdk_connect _ _) as [[]|e]; intros H; [|discriminate].
      injection H as <-. reflexivity.
  - destruct (connected w) eqn:Hoff.
    + unfold http_connect. run_mcp. rewrite Hoff.
      intros H. injection H as <-. reflexivity.
    + destruct (new_URL (url c)) as [u|e] eqn:Hurl.
      * rewrite (http_connect_attempts c w u Hoff Hurl).
        destruct (sdk_connect _ (StreamableHTTPClientTransport _ _)) as [[]|e1];
          [|destruct (isClientError e1);
            [destruct (sdk_connect _ (SSEClientTransport _ _)) as [[]|e2]|]];
          intros H; try discriminate; injection H as <-; reflexivity.
      * unfold http_connect. run_mcp. rewrite Hoff, Hurl. discriminate.
Qed.

(** C1: for either transport and every operation, [withConnection]
    connects first; when the connection is made it runs the operation on
    the connected client, then closes the client, and its outcome is the
    operation's own, a returned value or a thrown error alike; when the
    connection fails the operation is not run, the client is closed all
    the same and the connection error is thrown.  [close] always returns,
    whatever happens while the transport is closed, so it never replaces
    that outcome.  In the trace, the entry into [connect] comes first and
    the entry into [close] follows everything the operation did; a
    client the operation leaves connected has its transport closed and
    ends up disconnected. *)
Theorem withConnection_lifecycle config {T} (operation : IMcpClient -> Eff World T) w :
  let client := createMcpClient config in
  let '(connecting, w1) := connect client w in
  (exists evs, log w1 = log w ++ Invoked MConnect :: evs)
  /\ match connecting with
     | Returned _ =>
         let '(outcome, w2) := operation client w1 in
         connected w1 = true
         /\ exists w3,
           close client w2 = (Returned tt, w3)
           /\ withConnection client operation w = (outcome, w3)
           /\ (exists evs, log w3 = log w2 ++ Invoked MClose :: evs)
           /\ (forall t, connected w2 = true -> transport w2 = Some t ->
                connected w3 = false /\ transport w3 = None
                /\ exists settled,
                     log w3 = log w2 ++ [Invoked MClose; TransportClose t settled])
     | Threw e =>
         exists w3,
           close client w1 = (Returned tt, w3)
           /\ withConnection client operation w = (Threw e, w3)
           /\ exists evs, log w3 = log w1 ++ Invoked MClose :: evs
     end.
Proof.
  intros client.
  pose proof (connect_trace config w) as Htrace. fold client in Htrace.
  pose proof (connect_returns_connected config w) as Hconnected. fold client in Hconnected.
  unfold withConnection, try_finally, bind.
  destruct (connect client w) as [connecting w1]. cbn [snd] in Htrace.
  split; [exact Htrace|].
  unfold client. rewrite close_createMcpClient. fold client.
  destruct connecting as [[]|e].
  - destruct (operation client w1) as [outcome w2].
    split; [apply Hconnected; reflexivity|].
    destruct (client_close_returns w2) as (w3 & Hclose & Hlog).
    exists w3. rewrite Hclose. repeat (split; [solve [auto]|]).
    intros t Hon Ht. rewrite (client_close_connected w2 t Hon Ht) in Hclose.
    injection Hclose as <-. cbn. eauto.
  - destruct (client_close_returns w1) as (w3 & Hclose & Hlog).
    exists w3. rewrite Hclose. auto.
Qed.

End Facts.

Section Examples.
Import Sample.

(** Connecting a process server and closing it at once leaves the
    client disconnected, and neither call throws. *)
Example stdio_connect_then_close :
  let env := environment (Returned tt) (Returned tt) (Returned tt) in
  let client := createMcpClient (environment := env) (StdioConfig stdio_config) in
  (run connect client then run close client then isConnected client) fresh
  = (Returned false,
     {| connected := false; transport := None;
        log := [Invoked MConnect;
                SdkConnect (StdioClientTransport "bunx" (Some ["-y"; "server-memory"])
                              [("PATH", "/usr/bin"); ("DEBUG", "1")] None)
                           (Returned tt);
                Invoked MClose;
                TransportClose (StdioClientTransport "bunx" (Some ["-y"; "server-memory"])
                                  [("PATH", "/usr/bin"); ("DEBUG", "1")] None)
                               (Returned tt)] |}).
Proof. vm_compute. reflexivity. Qed.

(** A session over HTTP whose transport fails to close still hands back
    the tools the operation listed. *)
Example getTools_close_failure :
  let env := environment (Returned tt) (Returned tt) (Threw (JsError "socket hang up")) in
  fst (getTools (createMcpClient (environment := env) (HttpConfig http_config)) fresh)
  = Returned [echo_tool].
Proof. vm_compute. reflexivity. Qed.

(** C2 fails on the code: a 504 answer and a refused connection are no
    client-side rejections, but their messages contain a 4, so the SSE
    fallback is attempted and the original error is replaced. *)
Theorem http_connect_fallback_on_server_error :
  let url := {| href := url http_config |} in
  let requestInit := {| init_headers := headers http_config |} in
  let modern := StreamableHTTPClientTransport url requestInit in
  let legacy := SSEClientTransport url requestInit in
  (let env := environment (Threw gateway_timeout) (Threw sse_unavailable) (Returned tt) in
   http_connect (environment := env) http_config fresh
   = (Threw (JsError ("Failed to connect with both Streamable HTTP and SSE: "
                      +:+ error_text gateway_timeout)),
      {| connected := false; transport := Some legacy;
         log := [Invoked MConnect; SdkConnect modern (Threw gateway_timeout);
                 SdkConnect legacy (Threw sse_unavailable)] |}))
  /\ (let env := environment (Threw connection_refused) (Threw connection_refused) (Returned tt) in
      http_connect (environment := env) http_config fresh
      = (Threw (JsError ("Failed to connect with both Streamable HTTP and SSE: "
                         +:+ error_text connection_refused)),
         {| connected := false; transport := Some legacy;
            log := [Invoked MConnect; SdkConnect modern (Threw connection_refused);
                    SdkConnect legacy (Threw connection_refused)] |})).
Proof. split; vm_compute; reflexivity. Qed.

(** C5, as stated, fails: the surfaced message contains the message of
    the modern-transport failure but nothing of the SSE failure. *)
Lemma http_connect_drops_sse_error :
  let env := environment (Threw method_not_allowed) (Threw sse_unavailable) (Returned tt) in
  exists message,
    fst (http_connect (environment := env) http_config fresh) = Threw (JsError message)
    /\ includes message (error_text method_not_allowed) = true
    /\ includes message (error_text sse_unavailable) = false.
Proof.
  eexists. split; [vm_compute; reflexivity|]. split; vm_compute; reflexivity.
Qed.

(** Listing the tools of a process server while closing its transport
    fails: the listing is returned. *)
Lemma withConnection_lifecycle_witness :
  let env := environment (Returned tt) (Returned tt) (Threw (JsError "kill EPERM")) in
  let client := createMcpClient (environment := env) (StdioConfig stdio_config) in
  exists w3,
    withConnection client (fun c => listTools c) fresh = (Returned [echo_tool], w3)
    /\ connected w3 = false.
Proof.
  intros env client.
  pose proof (withConnection_lifecycle (environment := env) (StdioConfig stdio_config)
                (fun c => listTools c) fresh) as H.
  vm_compute in H. destruct H as (_ & _ & w3 & Hclose & Hrun & _).
  exists w3. split; [exact Hrun|].
  injection Hclose as <-. reflexivity.
Defined.

Lemma http_connect_both_fail_witness :
  let env := environment (Threw method_not_allowed) (Threw sse_unavailable) (Returned tt) in
  fst (http_connect (environment := env) http_config fresh)
  = Threw (JsError ("Failed to connect with both Streamable HTTP and SSE: "
                    +:+ error_text method_not_allowed)).
Proof.
  intros env.
  exact (http_connect_both_fail (environment := env) http_config fresh
           {| href := url http_config |} method_not_allowed sse_unavailable
           eq_refl eq_refl eq_refl eq_refl eq_refl).
Defined.

End Examples.
End McpSpec.

(** ** Storing, clearing and statistics of the catalog cache *)

Module CacheAdminSpec.
Import Js Cache CacheAdmin.
Local Open Scope list_scope.

Lemma string_app_assoc (a b c : string) : (a +:+ b) +:+ c = a +:+ (b +:+ c).
Proof.
  induction a as [|x a IH]; [reflexivity|].
  rewrite !CacheSpec.append_cons, IH. reflexivity.
Qed.

Lemma strip_prefix_app (p s : string) : strip_prefix p (p +:+ s) = Some s.
Proof.
  induction p as [|a p IH]; [reflexivity|].
  rewrite CacheSpec.append_cons. cbn. rewrite Ascii.eqb_refl. exact IH.
Qed.

Lemma strip_prefix_Some (p s r : string) : strip_prefix p s = Some r -> s = p +:+ r.
Proof.
  revert s. induction p as [|a p IH]; intros s H; cbn in H.
  - injection H as ->. reflexivity.
  - destruct s as [|b s]; [discriminate|].
    destruct (Ascii.eqb_spec a b) as [->|]; [|discriminate].
    rewrite CacheSpec.append_cons. f_equal. auto.
Qed.

Lemma first_segment_idem (s : string) : first_segment (first_segment s) = first_segment s.
Proof.
  induction s as [|c s IH]; [reflexivity|]. cbn.
  destruct (Ascii.eqb c "/") eqn:E; [reflexivity|]. cbn. rewrite E, IH. reflexivity.
Qed.

Lemma first_segment_app (s t : string) :
  first_segment s = s -> first_segment t = t -> first_segment (s +:+ t) = s +:+ t.
Proof.
  intros Hs Ht. induction s as [|c s IH]; [exact Ht|].
  rewrite CacheSpec.append_cons. cbn in *.
  destruct (Ascii.eqb c "/"); [discriminate|].
  injection Hs as Hs. rewrite IH by assumption. reflexivity.
Qed.

(** A sanitised name is a single path segment. *)
Lemma first_segment_sanitize (s : string) : first_segment (sanitize s) = sanitize s.
Proof.
  induction s as [|c s IH]; [reflexivity|]. cbn.
  destruct (is_name_char c) eqn:Hc.
  - destruct (Ascii.eqb_spec c "/") as [->|]; [discriminate|]. rewrite IH. reflexivity.
  - cbn. rewrite IH. reflexivity.
Qed.

Lemma substring_all (s : string) : String.substring 0 (String.length s) s = s.
Proof. induction s as [|c s IH]; [reflexivity|]. cbn. rewrite IH. reflexivity. Qed.

Lemma substring_skip (s t : string) (k : nat) :
  String.substring (String.length s) k (s +:+ t) = String.substring 0 k t.
Proof.
  induction s as [|c s IH]; [reflexivity|].
  rewrite CacheSpec.append_cons. cbn [String.length String.substring]. exact IH.
Qed.

Lemma endsWith_app (s t : string) : endsWith (s +:+ t) t = true.
Proof.
  unfold endsWith. rewrite CacheSpec.append_length.
  replace (String.length s + String.length t - String.length t)%nat
    with (String.length s) by lia.
  rewrite substring_skip, substring_all, String.eqb_refl.
  rewrite andb_true_r. apply Nat.leb_le. lia.
Qed.

Section Facts.
Context {rt : Runtime} {st : Stringifier}.
Variable cacheDir : string.

Local Abbreviation path := (getCacheFilePath cacheDir).
Local Abbreviation get := (getCachedTools cacheDir).

Ltac run_fs :=
  cbv beta iota zeta delta
    [bind try_catch ret throw gets modify existsSync readFileSync unlinkSync
     writeFileSync mkdirSync stringify].

Lemma entry_under_join (file : string) :
  first_segment file = file -> entry_under cacheDir (path_join cacheDir file) = Some file.
Proof.
  intros Hseg. unfold entry_under, path_join.
  rewrite <- string_app_assoc, strip_prefix_app, Hseg. reflexivity.
Qed.

(** Every cache file is one of the paths [clearAllCache] goes for. *)
Lemma is_json_entry_path (name : string) : is_json_entry cacheDir (path name) = true.
Proof.
  unfold is_json_entry, getCacheFilePath.
  rewrite entry_under_join
    by (apply first_segment_app; [apply first_segment_sanitize | reflexivity]).
  rewrite String.eqb_refl, endsWith_app. reflexivity.
Qed.

Lemma ensureCacheDir_done (fs : FileSystem) : ensureCacheDir cacheDir fs = (Returned tt, fs).
Proof.
  unfold ensureCacheDir, dirExistsSync, readdirSync. run_fs.
  destruct (negb (negb _)); reflexivity.
Qed.

Lemma setCachedTools_written settings now name tools info text (fs : FileSystem) :
  cacheEnabled settings = true ->
  JSON_stringify (Object [("cachedAt", Number (Num now)); ("tools", tools);
                          ("serverInfo", info)]) = Some text ->
  setCachedTools cacheDir settings now name tools info fs
  = (Returned tt, <[path name := text]> fs).
Proof.
  intros Hon Htext. unfold setCachedTools. rewrite Hon. cbn [negb].
  unfold bind at 1. rewrite ensureCacheDir_done.
  run_fs. rewrite Htext. reflexivity.
Qed.

(** X1: with caching enabled, what [setCachedTools] stores at time [t0] is
    what [getCachedTools] returns for the same server as long as
    [now - t0 < ttl], and is purged by the first read at or after the
    TTL, provided the runtime reads back the time stamp and the tools it
    serialised. *)
Theorem setCachedTools_then_getCachedTools
    settings t0 name tools info text parsed ttl (fs : FileSystem) :
  cacheEnabled settings = true ->
  cacheTtlMs settings = Num ttl ->
  JSON_stringify (Object [("cachedAt", Number (Num t0)); ("tools", tools);
                          ("serverInfo", info)]) = Some text ->
  JSON_parse text = Some parsed ->
  cachedAt_of parsed = Number (Num t0) ->
  tools_of parsed = tools ->
  let stored := snd (setCachedTools cacheDir settings t0 name tools info fs) in
  stored = <[path name := text]> fs
  /\ (forall now, now - t0 < ttl ->
        get settings now name stored = (Returned tools, stored))
  /\ (forall now, now - t0 >= ttl ->
        get settings now name stored = (Returned Undefined, delete (path name) fs)).
Proof.
  intros Hon Httl Htext Hparse Hat Htools stored. subst stored.
  rewrite (setCachedTools_written _ _ _ _ _ _ _ Hon Htext). cbn [snd].
  assert (Hfile : (<[path name := text]> fs : FileSystem) !! path name = Some text)
    by apply lookup_insert_eq.
  pose proof (fun now => CacheSpec.getCachedTools_present cacheDir settings now name _ _
                           Hon Hfile) as Hget.
  rewrite Hparse in Hget.
  assert (Hshape : forall now,
            get settings now name (<[path name := text]> fs)
            = if isCacheValid now (cachedAt_of parsed) (cacheTtlMs settings)
              then (Returned (tools_of parsed), <[path name := text]> fs)
              else (Returned Undefined, delete (path name) (<[path name := text]> fs))).
  { intros now. rewrite Hget. destruct parsed; try reflexivity; discriminate. }
  split; [reflexivity|]. split; intros now Hnow; rewrite Hshape, Hat, Httl, Htools;
    unfold isCacheValid; cbn.
  - destruct (Z.ltb_spec (now - t0) ttl); [reflexivity | lia].
  - destruct (Z.ltb_spec (now - t0) ttl); [lia|].
    rewrite delete_insert_eq. reflexivity.
Qed.

(** X3: [clearServerCache] deletes the entry of the server, tells whether
    there was one, and leaves a state in which every read for that
    server returns absent. *)
Theorem clearServerCache_invalidates name (fs : FileSystem) :
  clearServerCache cacheDir name fs
  = (Returned (bool_decide (is_Some (fs !! path name))), delete (path name) fs)
  /\ forall settings now,
       get settings now name (snd (clearServerCache cacheDir name fs))
       = (Returned Undefined, delete (path name) fs).
Proof.
  assert (Hclear : clearServerCache cacheDir name fs
            = (Returned (bool_decide (is_Some (fs !! path name))), delete (path name) fs)).
  { unfold clearServerCache. run_fs.
    destruct (fs !! path name) as [content|] eqn:Hfile.
    - rewrite bool_decide_true by eauto. cbn [negb]. rewrite Hfile. reflexivity.
    - rewrite bool_decide_false by (intros [? ?]; discriminate). cbn [negb].
      rewrite delete_id by assumption. reflexivity. }
  split; [exact Hclear|]. intros settings now. rewrite Hclear. cbn [snd].
  apply CacheSpec.getCachedTools_missing, lookup_delete_eq.
Qed.

(** One turn of the loop of [clearAllCache] on a [.json] name. *)
Lemma unlink_counted p count (fs : FileSystem) :
  try_catch (run unlinkSync p then ret (count + 1)) (fun _ => ret count) fs
  = (Returned (count + match fs !! p with Some _ => 1 | None => 0 end), delete p fs).
Proof.
  run_fs. destruct (fs !! p) eqn:E.
  - reflexivity.
  - rewrite delete_id by assumption. rewrite Z.add_0_r. reflexivity.
Qed.

Lemma clear_files_spec files :
  forall (fs : FileSystem) count,
    exists count' (fs' : FileSystem),
      clear_files cacheDir files count fs = (Returned count', fs')
      /\ (forall p,
            fs' !! p
            = if existsb (fun file => endsWith file ".json"
                                      && String.eqb (path_join cacheDir file) p) files
              then None else fs !! p)
      /\ Z.of_nat (size fs) + count = Z.of_nat (size fs') + count'.
Proof.
  induction files as [|file rest IH]; intros fs count; cbn [clear_files existsb].
  - exists count, fs. split; [reflexivity|]. split; [reflexivity | lia].
  - destruct (endsWith file ".json") eqn:Hjson; cbn [andb orb].
    + unfold bind at 1. rewrite unlink_counted.
      destruct (IH (delete (path_join cacheDir file) fs)
                   (count + match fs !! path_join cacheDir file with Some _ => 1 | None => 0 end))
        as (count' & fs' & Hrun & Hlook & Hsize).
      exists count', fs'. split; [exact Hrun|]. split.
      * intros p. rewrite Hlook.
        destruct (existsb _ rest); [rewrite orb_true_r; reflexivity|].
        rewrite orb_false_r.
        destruct (String.eqb_spec (path_join cacheDir file) p) as [->|Hne].
        -- apply lookup_delete_eq.
        -- apply lookup_delete_ne. exact Hne.
      * rewrite <- Hsize, map_size_delete.
        destruct (fs !! path_join cacheDir file) eqn:E; cbn; [|lia].
        assert (size fs <> 0%nat) by (apply map_size_ne_0_lookup_2 with (i := path_join cacheDir file); eauto).
        lia.
    + apply IH.
Qed.

Local Abbreviation listing fs :=
  (remove_dups (omap (fun kv : string * string => entry_under cacheDir (fst kv))
                     (map_to_list fs))).

(** A listed name is a single segment, and what is on disk is listed. *)
Lemma listing_segment (fs : FileSystem) file :
  file ∈ listing fs -> first_segment file = file.
Proof.
  rewrite elem_of_remove_dups, list_elem_of_omap.
  intros ([p c] & _ & Hentry). unfold entry_under in Hentry. cbn in Hentry.
  destruct (strip_prefix _ p); [|discriminate].
  injection Hentry as <-. apply first_segment_idem.
Qed.

Lemma listing_complete (fs : FileSystem) p content file :
  fs !! p = Some content -> entry_under cacheDir p = Some file -> file ∈ listing fs.
Proof.
  intros Hfile Hentry. rewrite elem_of_remove_dups, list_elem_of_omap.
  exists (p, content). split; [apply elem_of_map_to_list; exact Hfile | exact Hentry].
Qed.

Lemma is_json_entry_inv p :
  is_json_entry cacheDir p = true ->
  exists file, entry_under cacheDir p = Some file
               /\ path_join cacheDir file = p /\ endsWith file ".json" = true.
Proof.
  unfold is_json_entry. destruct (entry_under cacheDir p) as [file|]; [|discriminate].
  intros [Heq Hjson]%andb_prop. apply String.eqb_eq in Heq. eauto.
Qed.

(** Deleting the listed [.json] names is deleting the [.json] entries. *)
Lemma listed_json_entries (fs : FileSystem) p :
  (if existsb (fun file => endsWith file ".json"
                           && String.eqb (path_join cacheDir file) p) (listing fs)
   then None else fs !! p)
  = (if is_json_entry cacheDir p then None else fs !! p).
Proof.
  destruct (existsb _ (listing fs)) eqn:Hex.
  - apply existsb_exists in Hex as (file & Hin & [Hjson Heq]%andb_prop).
    apply String.eqb_eq in Heq. subst p.
    apply list_elem_of_In, listing_segment in Hin.
    unfold is_json_entry. rewrite entry_under_join by assumption.
    rewrite String.eqb_refl, Hjson. reflexivity.
  - destruct (is_json_entry cacheDir p) eqn:Hentry; [|reflexivity].
    destruct (fs !! p) as [content|] eqn:Hfile; [|reflexivity].
    apply is_json_entry_inv in Hentry as (file & Hunder & Hpath & Hjson).
    pose proof (listing_complete fs p content file Hfile Hunder) as Hin.
    apply list_elem_of_In in Hin.
    assert (existsb (fun file => endsWith file ".json"
                                 && String.eqb (path_join cacheDir file) p) (listing fs)
            = true) as Habs.
    { apply existsb_exists. exists file. split; [exact Hin|].
      rewrite Hjson, Hpath, String.eqb_refl. reflexivity. }
    congruence.
Qed.

(** X4: [clearAllCache] never throws; it removes exactly the files
    directly under the cache directory whose name ends in [.json] and
    nothing else, returns how many files it removed, and leaves a state
    in which every read of the cache, for every server, returns absent. *)
Theorem clearAllCache_clears (fs : FileSystem) :
  exists count (fs' : FileSystem),
    clearAllCache cacheDir fs = (Returned count, fs')
    /\ (forall p, fs' !! p = if is_json_entry cacheDir p then None else fs !! p)
    /\ Z.of_nat (size fs) = Z.of_nat (size fs') + count
    /\ forall settings now name,
         get settings now name fs' = (Returned Undefined, fs').
Proof.
  assert (Hrun : exists count (fs' : FileSystem),
            clearAllCache cacheDir fs = (Returned count, fs')
            /\ (forall p, fs' !! p = if is_json_entry cacheDir p then None else fs !! p)
            /\ Z.of_nat (size fs) = Z.of_nat (size fs') + count).
  { unfold clearAllCache, dirExistsSync, readdirSync. run_fs.
    destruct (bool_decide (listing fs = [])) eqn:Hempty; cbn [negb].
    - exists 0, fs. split; [reflexivity|]. split; [|lia].
      intros p. rewrite <- listed_json_entries.
      apply bool_decide_eq_true in Hempty. rewrite Hempty. reflexivity.
    - destruct (clear_files_spec (listing fs) fs 0) as (count & fs' & Hclear & Hlook & Hsize).
      rewrite Hclear. exists count, fs'. split; [reflexivity|]. split; [|lia].
      intros p. rewrite Hlook. apply listed_json_entries. }
  destruct Hrun as (count & fs' & Hclear & Hlook & Hsize).
  exists count, fs'. repeat (split; [assumption|]).
  intros settings now name. apply CacheSpec.getCachedTools_missing.
  rewrite Hlook, is_json_entry_path. reflexivity.
Qed.

Ltac run_stats :=
  cbv beta iota zeta delta
    [bind try_catch ret throw gets modify on_disk push_server add_to_total
     readFileSync parse_json get_prop get_length];
  cbn [stat_disk cachedServers totalCachedTools].

(** One turn of the loop of [getCacheStats]: it returns, leaves the disk
    alone, and adds at most the name derived from the file name. *)
Lemma stat_file_spec settings now file s0 :
  exists s1,
    stat_file cacheDir settings now file s0 = (Returned tt, s1)
    /\ stat_disk s1 = stat_disk s0
    /\ (cachedServers s1 = cachedServers s0
        \/ cachedServers s1
           = cachedServers s0 ++ [underscores_to_dashes (drop_json_suffix file)]).
Proof.
  unfold stat_file. destruct (endsWith file ".json"); [|eauto].
  run_stats.
  destruct (stat_disk s0 !! path_join cacheDir file) as [content|]; [|eauto].
  destruct (JSON_parse content) as [data|]; [|eauto].
  destruct data; try solve [eauto];
    (destruct (isCacheValid _ _ _); [|solve [eauto]]);
    run_stats; try solve [eauto].
  destruct (default Undefined (obj_get fields "tools")); run_stats; eauto.
Qed.

Lemma stat_files_spec settings now files :
  forall s0,
    exists s1 added,
      stat_files cacheDir settings now files s0 = (Returned tt, s1)
      /\ stat_disk s1 = stat_disk s0
      /\ cachedServers s1 = cachedServers s0 ++ added
      /\ Forall (fun name => exists file,
                   name = underscores_to_dashes (drop_json_suffix file)) added.
Proof.
  induction files as [|file rest IH]; intros s0; cbn [stat_files].
  - exists s0, []. rewrite app_nil_r. auto.
  - destruct (stat_file_spec settings now file s0) as (s1 & Hstep & Hdisk & Hnames).
    unfold bind. rewrite Hstep.
    destruct (IH s1) as (s2 & added & Hrest & Hdisk' & Hnames' & Hall).
    rewrite Hrest. destruct Hnames as [Hsame | Hmore].
    + exists s2, added. rewrite Hdisk', Hdisk, Hnames', Hsame. auto.
    + exists s2, (underscores_to_dashes (drop_json_suffix file) :: added).
      rewrite Hdisk', Hdisk, Hnames', Hmore, <- app_assoc. cbn.
      repeat (split; [reflexivity|]). constructor; eauto.
Qed.

Lemma underscores_to_dashes_clean (s : string) :
  ~ In "_"%char (list_ascii_of_string (underscores_to_dashes s)).
Proof.
  induction s as [|c s IH]; cbn; [tauto|].
  intros [H|H]; [|tauto].
  destruct (Ascii.eqb_spec c "_"); [discriminate | congruence].
Qed.

(** What a run of [getCacheStats] amounts to. *)
Lemma getCacheStats_run settings now (fs : FileSystem) :
  exists names total,
    getCacheStats cacheDir settings now fs
    = (Returned {| enabled := cacheEnabled settings;
                   ttlMs := cacheTtlMs settings;
                   stats_cachedServers := names;
                   stats_totalCachedTools := total |}, fs)
    /\ Forall (fun name => ~ In "_"%char (list_ascii_of_string name)) names.
Proof.
  unfold getCacheStats, dirExistsSync, readdirSync. run_stats.
  destruct (negb (bool_decide (listing fs = []))); run_stats.
  - destruct (stat_files_spec settings now (listing fs)
                {| stat_disk := fs; cachedServers := [];
                   totalCachedTools := Number (Num 0) |})
      as (s1 & added & Hrun & Hdisk & Hnames & Hall).
    rewrite Hrun. cbn in Hdisk, Hnames. rewrite Hdisk, Hnames.
    do 2 eexists. split; [reflexivity|].
    eapply Forall_impl; [exact Hall|].
    intros name [file ->]. apply underscores_to_dashes_clean.
  - do 2 eexists. split; [reflexivity | constructor].
Qed.

(** X6: the server names [getCacheStats] reports are rebuilt from the
    file names with every [_] turned into [-]: no reported name contains
    an underscore, whatever the servers are called. *)
Theorem getCacheStats_names_hyphenated settings now (fs : FileSystem) :
  exists stats,
    fst (getCacheStats cacheDir settings now fs) = Returned stats
    /\ Forall (fun name => ~ In "_"%char (list_ascii_of_string name))
              (stats_cachedServers stats).
Proof.
  destruct (getCacheStats_run settings now fs) as (names & total & Hrun & Hclean).
  eexists. rewrite Hrun. split; [reflexivity | exact Hclean].
Qed.




End Facts.

Section Examples.
Import Sample SampleIo.

(** Storing the echo tool for [alpha] at 0 and reading it back at 500. *)
Lemma setCachedTools_then_getCachedTools_witness :
  let stored :=
    snd (setCachedTools (st := stringifier) cacheDir (settings 1000) 0 "alpha"
           (Array [echo_tool]) Undefined ∅) in
  getCachedTools (rt := runtime) cacheDir (settings 1000) 500 "alpha" stored
  = (Returned (Array [echo_tool]), stored).
Proof.
  intros stored.
  refine (proj1 (proj2 (setCachedTools_then_getCachedTools (rt := runtime)
            (st := stringifier) cacheDir (settings 1000) 0 "alpha" (Array [echo_tool])
            Undefined _ _ 1000 ∅ eq_refl eq_refl eq_refl _ _ _)) 500 _).
  - vm_compute. reflexivity.
  - reflexivity.
  - reflexivity.
  - lia.
Defined.


End Examples.
End CacheAdminSpec.

(** ** Configuration loading and environment references *)

Module LoaderSpec.
Import Js Loader ObjectFacts.
Local Open Scope list_scope.

Section References.
Context {proto : ObjectPrototype}.

Lemma match_reference_other c rest :
  c <> "$"%char -> match_reference (String c rest) = None.
Proof.
  intros Hc. unfold match_reference. destruct rest; [reflexivity|].
  destruct (Ascii.eqb_spec c "$"); [contradiction | reflexivity].
Qed.

(** X8: a string without [$] is returned as it is. *)
Theorem resolveEnvVars_plain env (s : string) :
  ~ In "$"%char (list_ascii_of_string s) -> resolveEnvVars env s = s.
Proof.
  unfold resolveEnvVars. induction s as [|c s IH]; [reflexivity|].
  cbn [list_ascii_of_string In replace_references]. intros Hno.
  rewrite match_reference_other by (intros ->; apply Hno; left; reflexivity).
  rewrite IH by tauto. reflexivity.
Qed.








End References.

Lemma resolveEnvVars_plain_witness :
  resolveEnvVars (proto := sample_prototype) [("HOME", "/home/user")] "--port=8080"
  = "--port=8080".
Proof.
  apply resolveEnvVars_plain. cbn. intros H.
  repeat (destruct H as [H|H]; [discriminate|]). exact H.
Defined.


Section Config.
Context {rt : Runtime}.
Variable configDir : string.

Local Abbreviation configPath := (getConfigPath configDir).

Ltac run_load :=
  cbv beta iota zeta delta
    [bind try_catch ret throw gets Cache.existsSync Cache.readFileSync
     Cache.parse_json get_prop].

(** [loadConfig], case by case. *)
Lemma loadConfig_cases (fs : Cache.FileSystem) :
  loadConfig configDir fs
  = match fs !! configPath with
    | None => (Returned {| servers := Object []; settings := DEFAULT_SETTINGS |}, fs)
    | Some content =>
        let failed detail :=
          (Threw (JsError ("Failed to load config from " +:+ configPath +:+ ": " +:+ detail)),
           fs) in
        match JSON_parse content with
        | None => failed "SyntaxError: JSON Parse error"
        | Some Null => failed "Cannot read properties of null"
        | Some Undefined => failed "Cannot read properties of undefined"
        | Some config =>
            (Returned
               {| servers := if truthy (member config "servers")
                             then member config "servers" else Object [];
                  settings :=
                    {| raw_cacheEnabled :=
                         spread_member (member config "settings") "cacheEnabled" (Bool true);
                       raw_cacheTtlMs :=
                         spread_member (member config "settings") "cacheTtlMs"
                           (Number (Num (4 * 60 * 60 * 1000))) |} |},
             fs)
        end
    end.
Proof.
  unfold loadConfig. run_load.
  destruct (fs !! configPath) as [content|] eqn:Hfile.
  - rewrite bool_decide_true by eauto. cbn [negb]. rewrite Hfile.
    destruct (JSON_parse content) as [[]|]; reflexivity.
  - rewrite bool_decide_false by (intros [? ?]; discriminate). reflexivity.
Qed.

(** X10: [getSettings] never changes the disk.  Without a configuration
    file it returns the defaults, caching enabled with a TTL of four
    hours; with one, each of the two members comes from the [settings]
    object of the file when that object has it and is the default
    otherwise, also when [settings] is missing or not an object. *)
Theorem getSettings_defaults (fs : Cache.FileSystem) :
  (fs !! configPath = None ->
   getSettings configDir fs
   = (Returned {| raw_cacheEnabled := Bool true;
                  raw_cacheTtlMs := Number (Num 14400000) |}, fs))
  /\ (forall content config,
        fs !! configPath = Some content ->
        JSON_parse content = Some config ->
        is_nullish config = false ->
        (forall given,
           member config "settings" = Object given ->
           getSettings configDir fs
           = (Returned {| raw_cacheEnabled :=
                            default (Bool true) (obj_get given "cacheEnabled");
                          raw_cacheTtlMs :=
                            default (Number (Num 14400000)) (obj_get given "cacheTtlMs") |},
              fs))
        /\ ((forall given, member config "settings" <> Object given) ->
            getSettings configDir fs
            = (Returned {| raw_cacheEnabled := Bool true;
                           raw_cacheTtlMs := Number (Num 14400000) |}, fs))).
Proof.
  unfold getSettings, bind. rewrite loadConfig_cases. split.
  - intros ->. reflexivity.
  - intros content config -> -> Hconfig. split.
    + intros given Hgiven.
      destruct config; try discriminate; cbn zeta; unfold ret; cbn [settings];
        rewrite Hgiven; reflexivity.
    + intros Hnot.
      destruct config; try discriminate; cbn zeta; unfold ret; cbn [settings];
        destruct (member _ "settings") eqn:E; try reflexivity;
        exfalso; eapply Hnot; reflexivity.
Qed.

(** X11: a configuration file that does not parse, or that holds [null],
    makes [loadConfig] throw an error that names the file, and with it
    [getSettings], [getEnabledServers] and every [getCachedTools]: unlike
    a damaged cache entry, a damaged configuration is not recovered
    from, and nothing on disk is changed. *)
Theorem loadConfig_corrupt (fs : Cache.FileSystem) content :
  fs !! configPath = Some content ->
  JSON_parse content = None \/ JSON_parse content = Some Null ->
  exists detail,
    let failure :=
      JsError ("Failed to load config from " +:+ configPath +:+ ": " +:+ detail) in
    loadConfig configDir fs = (Threw failure, fs)
    /\ getSettings configDir fs = (Threw failure, fs)
    /\ getEnabledServers configDir fs = (Threw failure, fs)
    /\ forall now name, getCachedTools configDir now name fs = (Threw failure, fs).
Proof.
  intros Hfile Hbad.
  assert (Hload : exists detail,
            loadConfig configDir fs
            = (Threw (JsError ("Failed to load config from " +:+ configPath +:+ ": "
                               +:+ detail)), fs)).
  { destruct Hbad as [Hbad | Hbad]; eexists;
      rewrite loadConfig_cases, Hfile, Hbad; reflexivity. }
  destruct Hload as [detail Hload]. exists detail. cbn zeta.
  split; [exact Hload|].
  unfold getCachedTools, getSettings, getEnabledServers, bind.
  rewrite Hload. auto.
Qed.



(** X13: the settings of the configuration file take effect in
    [getCachedTools]: without a file a well-formed entry is served for
    four hours; with [cacheEnabled] set to [false] in the file nothing is
    served and the entry is left alone. *)
Theorem getCachedTools_settings_in_effect (fs : Cache.FileSystem) now name
    entry data cachedAt tools :
  fs !! Cache.getCacheFilePath (getCacheDir configDir) name = Some entry ->
  JSON_parse entry = Some data ->
  Cache.well_formed_entry data cachedAt tools ->
  (fs !! configPath = None ->
   now - cachedAt < 14400000 ->
   getCachedTools configDir now name fs = (Returned (Array tools), fs))
  /\ (forall content config given,
        fs !! configPath = Some content ->
        JSON_parse content = Some config ->
        member config "settings" = Object given ->
        obj_get given "cacheEnabled" = Some (Bool false) ->
        getCachedTools configDir now name fs = (Returned Undefined, fs)).
Proof.
  intros Hentry Hparse Hwf. split.
  - intros Hnone Hfresh.
    unfold getCachedTools, getSettings, bind. rewrite loadConfig_cases, Hnone.
    unfold ret.
    eapply CacheSpec.getCachedTools_fresh; eauto; reflexivity.
  - intros content config given Hfile Hconfig Hgiven Hoff.
    unfold getCachedTools, getSettings, bind. rewrite loadConfig_cases, Hfile, Hconfig.
    destruct config; try discriminate; cbn zeta; unfold ret; cbn [settings];
      rewrite Hgiven; cbn [spread_member]; rewrite Hoff;
      apply CacheSpec.getCachedTools_disabled; reflexivity.
Qed.

(** The configuration file is not a cache entry. *)
Lemma configPath_not_entry name :
  configPath <> Cache.getCacheFilePath (getCacheDir configDir) name.
Proof.
  unfold getConfigPath, Cache.getCacheFilePath, getCacheDir, Cache.path_join.
  rewrite !CacheAdminSpec.string_app_assoc. intros H.
  apply String.app_inj in H. cbv [String.append] in H. discriminate.
Qed.

(** [getSettings] depends on the configuration file only, and leaves the
    disk alone. *)
Lemma getSettings_frame (fs fs' : Cache.FileSystem) raw :
  fs' !! configPath = fs !! configPath ->
  getSettings configDir fs = (Returned raw, fs) ->
  getSettings configDir fs' = (Returned raw, fs').
Proof.
  unfold getSettings, bind. rewrite !loadConfig_cases. intros ->.
  destruct (fs !! configPath) as [content|];
    [|intros H; injection H as <-; reflexivity].
  destruct (JSON_parse content) as [[]|]; cbn zeta; unfold ret; intros H;
    try discriminate; injection H as <-; reflexivity.
Qed.

Lemma getSettings_disk (fs : Cache.FileSystem) : snd (getSettings configDir fs) = fs.
Proof.
  unfold getSettings, bind. rewrite loadConfig_cases.
  destruct (fs !! configPath) as [content|]; [|reflexivity].
  destruct (JSON_parse content) as [[]|]; reflexivity.
Qed.

(** C4 (amended): whenever the configuration loads, a read returns,
    whatever the entry file holds: a damaged entry is never raised.
    With caching enabled, an entry that does not parse, that parses to
    [null], that has no [cachedAt], or whose [cachedAt] fails the TTL
    test is handled like a missing one: the read returns absent, the
    file is gone afterwards, and the read of the disk without the file
    gives the same.  An entry that parses and passes the TTL test is not
    validated any further: whatever its [tools] member holds is returned
    and the file is kept. *)
Theorem getCachedTools_corrupt_entry (fs : Cache.FileSystem) now name raw :
  getSettings configDir fs = (Returned raw, fs) ->
  let entry := Cache.getCacheFilePath (getCacheDir configDir) name in
  let ttlMs := Cache.cacheTtlMs (settings_in_use raw) in
  (exists v fs', getCachedTools configDir now name fs = (Returned v, fs'))
  /\ forall content,
       Cache.cacheEnabled (settings_in_use raw) = true ->
       fs !! entry = Some content ->
       (JSON_parse content = None
        \/ JSON_parse content = Some Null
        \/ (exists data, JSON_parse content = Some data
                         /\ Cache.cachedAt_of data = Undefined)
        \/ (exists data, JSON_parse content = Some data
                         /\ Cache.isCacheValid now (Cache.cachedAt_of data) ttlMs = false) ->
        getCachedTools configDir now name fs = (Returned Undefined, delete entry fs)
        /\ getCachedTools configDir now name (delete entry fs)
           = (Returned Undefined, delete entry fs))
       /\ (forall data,
             JSON_parse content = Some data -> data <> Null -> data <> Undefined ->
             Cache.isCacheValid now (Cache.cachedAt_of data) ttlMs = true ->
             getCachedTools configDir now name fs = (Returned (Cache.tools_of data), fs)).
Proof.
  intros Hsettings entry ttlMs.
  assert (Hrun : forall fs' : Cache.FileSystem,
            fs' !! configPath = fs !! configPath ->
            getCachedTools configDir now name fs'
            = Cache.getCachedTools (getCacheDir configDir) (settings_in_use raw)
                now name fs').
  { intros fs' Hsame. unfold getCachedTools, bind.
    rewrite (getSettings_frame fs fs' raw Hsame Hsettings). reflexivity. }
  split.
  - rewrite (Hrun fs eq_refl).
    destruct (Cache.cacheEnabled (settings_in_use raw)) eqn:Hon;
      [|rewrite CacheSpec.getCachedTools_disabled by exact Hon; eauto].
    destruct (fs !! entry) as [content|] eqn:Hfile;
      [|rewrite CacheSpec.getCachedTools_missing by exact Hfile; eauto].
    rewrite (CacheSpec.getCachedTools_present _ _ now name _ _ Hon Hfile).
    destruct (JSON_parse content) as [[]|]; eauto;
      destruct (Cache.isCacheValid _ _ _); eauto.
  - intros content Hon Hfile.
    pose proof (CacheSpec.getCachedTools_present _ _ now name _ _ Hon Hfile) as Hget.
    rewrite (Hrun fs eq_refl). split.
    + intros Hbad. split.
      * rewrite Hget. fold entry ttlMs.
        destruct Hbad as [-> | [-> | [(data & -> & Hc) | (data & -> & Hv)]]];
          try reflexivity.
        -- unfold Cache.isCacheValid. rewrite Hc. cbn.
           destruct data; reflexivity.
        -- rewrite Hv. destruct data; reflexivity.
      * rewrite Hrun
          by (apply lookup_delete_ne; intros Heq; symmetry in Heq; revert Heq;
              apply configPath_not_entry).
        apply CacheSpec.getCachedTools_missing, lookup_delete_eq.
    + intros data Hparse Hnull Hundef Hv. rewrite Hget, Hparse. fold ttlMs.
      rewrite Hv. destruct data; congruence.
Qed.

(** X2: what [setCachedTools] leaves on disk when it stores nothing.
    With caching disabled in the settings it returns before it touches
    the cache directory; when the configuration does not load it throws
    the error of [getSettings]; and when the entry cannot be serialised
    the files are as they were, however the call ends. *)
Theorem setCachedTools_stores_nothing {st : CacheAdmin.Stringifier}
    now name tools serverInfo (fs : Cache.FileSystem) :
  let store := ServerCommand.setCachedTools configDir now name tools serverInfo in
  (forall raw,
     getSettings configDir fs = (Returned raw, fs) ->
     Cache.cacheEnabled (settings_in_use raw) = false ->
     store fs = (Returned tt, fs))
  /\ (forall e,
        getSettings configDir fs = (Threw e, fs) ->
        store fs = (Threw e, fs))
  /\ (CacheAdmin.JSON_stringify
        (Object [("cachedAt", Number (Num now)); ("tools", tools);
                 ("serverInfo", serverInfo)]) = None ->
      snd (store fs) = fs).
Proof.
  intros store. subst store. unfold ServerCommand.setCachedTools, bind.
  split; [|split].
  - intros raw -> Hoff. unfold CacheAdmin.setCachedTools. rewrite Hoff. reflexivity.
  - intros e ->. reflexivity.
  - intros Hnone. pose proof (getSettings_disk fs) as Hdisk.
    destruct (getSettings configDir fs) as [[raw|e] fs']; cbn [snd] in Hdisk;
      subst fs'; [|reflexivity].
    unfold CacheAdmin.setCachedTools.
    destruct (Cache.cacheEnabled (settings_in_use raw)); cbn [negb]; [|reflexivity].
    unfold bind at 1. rewrite CacheAdminSpec.ensureCacheDir_done.
    cbv beta iota zeta delta [bind try_catch ret throw CacheAdmin.stringify].
    rewrite Hnone. reflexivity.
Qed.

(** X5: [getCacheStats] only reads.  However it ends, the disk is as it
    was, so entries that are expired or corrupt are skipped but stay on
    disk.  It returns whenever the configuration loads, and throws the
    error of [getSettings] when it does not. *)
Theorem getCacheStats_read_only now (fs : Cache.FileSystem) :
  snd (getCacheStats configDir now fs) = fs
  /\ (forall raw,
        getSettings configDir fs = (Returned raw, fs) ->
        exists stats, getCacheStats configDir now fs = (Returned stats, fs))
  /\ (forall e,
        getSettings configDir fs = (Threw e, fs) ->
        getCacheStats configDir now fs = (Threw e, fs)).
Proof.
  unfold getCacheStats, bind. split; [|split].
  - pose proof (getSettings_disk fs) as Hdisk.
    destruct (getSettings configDir fs) as [[raw|e] fs']; cbn [snd] in Hdisk;
      subst fs'; [|reflexivity].
    destruct (CacheAdminSpec.getCacheStats_run (getCacheDir configDir)
                (settings_in_use raw) now fs) as (names & total & -> & _).
    reflexivity.
  - intros raw ->.
    destruct (CacheAdminSpec.getCacheStats_run (getCacheDir configDir)
                (settings_in_use raw) now fs) as (names & total & -> & _).
    eauto.
  - intros e ->. reflexivity.
Qed.

End Config.

Section ConfigExamples.
Import Sample.

Local Abbreviation configDir := "/home/user/.config/my-cli-prettier".

(** Only the TTL is set in the file: caching stays enabled. *)
Lemma getSettings_defaults_witness :
  let fs : Cache.FileSystem :=
    {[ getConfigPath configDir
         := settings_text ("{" +:+ quoted "cacheTtlMs" +:+ ": 60000}") ]} in
  getSettings (rt := runtime) configDir fs
  = (Returned {| raw_cacheEnabled := Bool true; raw_cacheTtlMs := Number (Num 60000) |}, fs).
Proof.
  intros fs.
  refine (proj1 (proj2 (getSettings_defaults (rt := runtime) configDir fs) _
                   (Object [("settings", Object [("cacheTtlMs", Number (Num 60000))])])
                   _ _ eq_refl) [("cacheTtlMs", Number (Num 60000))] eq_refl).
  - apply lookup_singleton_eq.
  - vm_compute. reflexivity.
Defined.

Lemma loadConfig_corrupt_witness :
  let fs : Cache.FileSystem := {[ getConfigPath configDir := "{ servers: " ]} in
  exists detail,
    getSettings (rt := runtime) configDir fs
    = (Threw (JsError ("Failed to load config from " +:+ getConfigPath configDir +:+ ": "
                       +:+ detail)), fs).
Proof.
  intros fs.
  destruct (loadConfig_corrupt (rt := runtime) configDir fs "{ servers: "
              (lookup_singleton_eq _ _) (or_introl eq_refl))
    as (detail & _ & Hget & _).
  exists detail. exact Hget.
Defined.


(** No configuration file, an entry captured at 0, read one hour later. *)
Lemma getCachedTools_settings_in_effect_witness :
  let fs : Cache.FileSystem :=
    {[ Cache.getCacheFilePath (getCacheDir configDir) "alpha"
         := entry_text "0" echo_tool_text ]} in
  getCachedTools (rt := runtime) configDir 3600000 "alpha" fs
  = (Returned (Array [echo_tool]), fs).
Proof.
  intros fs.
  refine (proj1 (getCachedTools_settings_in_effect (rt := runtime) configDir fs 3600000
                   "alpha" _ _ 0 [echo_tool] _ _ _) _ _).
  - apply lookup_singleton_eq.
  - vm_compute. reflexivity.
  - eexists. split; [reflexivity|]. split; reflexivity.
  - apply lookup_singleton_ne. discriminate.
  - lia.
Defined.

(** No configuration file, an entry that is not JSON. *)
Lemma getCachedTools_corrupt_entry_witness :
  let entry := Cache.getCacheFilePath (getCacheDir configDir) "alpha" in
  let fs : Cache.FileSystem := {[ entry := "not json" ]} in
  getCachedTools (rt := runtime) configDir 500 "alpha" fs
  = (Returned Undefined, delete entry fs).
Proof.
  intros entry fs.
  refine (proj1 (proj1 (proj2 (getCachedTools_corrupt_entry (rt := runtime) configDir fs
                                 500 "alpha" DEFAULT_SETTINGS _)
                          "not json" eq_refl _) _)).
  - vm_compute. reflexivity.
  - apply lookup_singleton_eq.
  - left. vm_compute. reflexivity.
Defined.

(** Caching switched off in the configuration file. *)
Lemma setCachedTools_stores_nothing_witness :
  let fs : Cache.FileSystem :=
    {[ getConfigPath configDir
         := settings_text ("{" +:+ quoted "cacheEnabled" +:+ ": false}") ]} in
  ServerCommand.setCachedTools (rt := runtime) (st := SampleIo.stringifier)
    configDir 0 "alpha" (Array [echo_tool]) Undefined fs
  = (Returned tt, fs).
Proof.
  intros fs.
  refine (proj1 (setCachedTools_stores_nothing (rt := runtime)
                   (st := SampleIo.stringifier) configDir 0 "alpha"
                   (Array [echo_tool]) Undefined fs)
            {| raw_cacheEnabled := Bool false;
               raw_cacheTtlMs := Number (Num 14400000) |} _ eq_refl).
  vm_compute. reflexivity.
Defined.

(** Two entries next to a configuration file; and a configuration file
    that does not parse. *)
Lemma getCacheStats_read_only_witness :
  (exists stats,
     getCacheStats (rt := runtime) configDir 500 SampleIo.two_servers
     = (Returned stats, SampleIo.two_servers))
  /\ (let fs : Cache.FileSystem := {[ getConfigPath configDir := "{ servers: " ]} in
      exists e, getCacheStats (rt := runtime) configDir 500 fs = (Threw e, fs)).
Proof.
  split.
  - refine (proj1 (proj2 (getCacheStats_read_only (rt := runtime) configDir 500
                            SampleIo.two_servers)) DEFAULT_SETTINGS _).
    vm_compute. reflexivity.
  - intros fs. eexists.
    refine (proj2 (proj2 (getCacheStats_read_only (rt := runtime) configDir 500 fs))
              _ _).
    vm_compute. reflexivity.
Defined.

End ConfigExamples.
End LoaderSpec.

(** ** Clients and sessions: spawning, calling, closing *)

Module SessionSpec.
Import Js Mcp Session ObjectFacts.
Local Open Scope list_scope.

(** Writing the entries of one object over another: each key of the
    overlay gets the overlay's value, every other key keeps its own. *)
Lemma obj_get_overlay {V W} (f : W -> V) (overlay : object W) :
  forall (base : object V) k,
    NoDup (keys overlay) ->
    obj_get (fold_left (fun acc kv => obj_set acc (fst kv) (f (snd kv))) overlay base) k
    = match obj_get overlay k with
      | Some v => Some (f v)
      | None => obj_get base k
      end.
Proof.
  induction overlay as [|[k0 v0] rest IH]; intros base k Hnd; [reflexivity|].
  cbn in Hnd. apply NoDup_cons in Hnd as [Hnot Hnd].
  cbn [fold_left fst snd obj_get]. rewrite IH by exact Hnd.
  destruct (String.eqb_spec k0 k) as [->|Hne].
  - destruct (obj_get rest k) as [v|] eqn:Hrest.
    + exfalso. apply Hnot, list_elem_of_In.
      apply obj_get_In in Hrest. apply (in_map fst) in Hrest. exact Hrest.
    + apply obj_get_set_eq.
  - destruct (obj_get rest k); [reflexivity|]. apply obj_get_set_ne. exact Hne.
Qed.

Ltac run_mcp :=
  cbv beta iota zeta delta
    [bind try_catch try_finally ret throw gets modify emit set_connected
     set_transport settle await_connect await_transport_close await_listTools];
  cbn [connected transport log].

Ltac run_mcp_in H :=
  cbv beta iota zeta delta
    [bind try_catch try_finally ret throw gets modify emit set_connected
     set_transport settle await_connect await_transport_close await_listTools] in H;
  cbn [connected transport log] in H.

Section Facts.
Context {environment : Environment} {sdk : Sdk} {proto : Loader.ObjectPrototype}.

(** X14: what a process server is started with.  The command is taken
    from the configuration as it is, without expanding references; the
    arguments and the values of [env] are expanded; the environment of
    the child is the ambient one with the configured variables written
    over it, none of which is called [__proto__] (the assignment that
    collects the expanded variables would not add that one); and an
    empty working directory is dropped. *)
Theorem stdio_spawn (c : Loader.StdioServerConfig) w :
  connected w = false ->
  let resolve := Loader.resolveEnvVars process_env in
  let client := Loader.createMcpClient process_env (Loader.Stdio c) in
  exists childEnv settled,
    log (snd (connect client w))
    = log w ++ [Invoked MConnect;
                SdkConnect
                  (StdioClientTransport (Loader.command c)
                     (option_map (map resolve) (Loader.args c))
                     childEnv
                     (match Loader.cwd c with
                      | Some "" | None => None
                      | Some dir => Some (resolve dir)
                      end))
                  settled]
    /\ (NoDup (keys (default [] (Loader.env c))) ->
        ~ In "__proto__" (keys (default [] (Loader.env c))) ->
        forall k,
          obj_get childEnv k
          = match obj_get (default [] (Loader.env c)) k with
            | Some v => Some (resolve v)
            | None => obj_get process_env k
            end).
Proof.
  intros Hoff resolve client.
  exists (spread process_env
            (default [] (option_map (Loader.resolveEnvVarsInRecord process_env)
                                    (Loader.env c)))).
  exists (sdk_connect (log w ++ [Invoked MConnect])
            (StdioClientTransport (Loader.command c)
               (option_map (map resolve) (Loader.args c))
               (spread process_env
                  (default [] (option_map (Loader.resolveEnvVarsInRecord process_env)
                                          (Loader.env c))))
               (match Loader.cwd c with
                | Some "" | None => None
                | Some dir => Some (resolve dir)
                end))).
  split.
  - subst client. unfold Loader.createMcpClient, Loader.resolveServerConfig,
      Loader.client_config, createMcpClient, createStdioClient.
    cbn [connect Loader.command Loader.args Loader.env Loader.cwd
         command args env cwd]. unfold stdio_connect. run_mcp. rewrite Hoff.
    cbn [command args env cwd].
    assert (Hcwd : match Loader.cwd c with
                   | Some dir => if truthy_string dir then Some (resolve dir) else None
                   | None => None
                   end
                   = match Loader.cwd c with
                     | Some "" | None => None
                     | Some dir => Some (resolve dir)
                     end).
    { destruct (Loader.cwd c) as [[|? ?]|]; reflexivity. }
    fold resolve. rewrite Hcwd. run_mcp.
    destruct (sdk_connect _ _) as [[]|e]; cbn [snd log];
      rewrite <- app_assoc; reflexivity.
  - intros Hnd _ k. unfold spread.
    assert (Hresolved : forall r, NoDup (keys r) ->
              forall k', obj_get (Loader.resolveEnvVarsInRecord process_env r) k'
                         = option_map resolve (obj_get r k')).
    { intros r Hr k'. unfold Loader.resolveEnvVarsInRecord.
      etransitivity; [exact (obj_get_overlay resolve r [] k' Hr)|].
      destruct (obj_get r k'); reflexivity. }
    assert (Hkeys : forall r, keys (Loader.resolveEnvVarsInRecord process_env r) = keys r
                              \/ ~ NoDup (keys r)).
    { intros r. destruct (decide (NoDup (keys r))) as [Hr|]; [left | right; assumption].
      unfold Loader.resolveEnvVarsInRecord.
      assert (Hgen : forall acc, NoDup (keys (acc ++ r)) ->
                keys (fold_left (fun resolved kv =>
                                   obj_set resolved (fst kv) (resolve (snd kv))) r acc)
                = keys (acc ++ r)).
      { clear. induction r as [|[k0 v0] r IH]; intros acc Hnd; cbn [fold_left fst snd].
        - rewrite app_nil_r. reflexivity.
        - assert (Hfresh : obj_set acc k0 (resolve v0) = acc ++ [(k0, resolve v0)]).
          { assert (Hnot : ~ In k0 (keys acc)).
            { unfold keys in *. rewrite map_app in Hnd. cbn in Hnd.
              apply NoDup_app in Hnd as (_ & Hdis & _).
              intros Hin. apply (Hdis k0); [apply list_elem_of_In; exact Hin | left]. }
            clear - Hnot. induction acc as [|[k v] acc IHa]; [reflexivity|].
            cbn in *. destruct (String.eqb_spec k k0); [tauto|].
            rewrite IHa by tauto. reflexivity. }
          rewrite Hfresh, IH.
          + unfold keys. rewrite <- app_assoc, !map_app. reflexivity.
          + unfold keys in *. rewrite <- app_assoc, !map_app in *. exact Hnd. }
      apply (Hgen [] Hr). }
    destruct (Loader.env c) as [r|]; cbn [default from_option id option_map] in *.
    + destruct (Hkeys r) as [Hk | Hbad]; [|contradiction].
      etransitivity;
        [apply (obj_get_overlay (fun x : string => x)); rewrite Hk; exact Hnd|].
      rewrite (Hresolved r Hnd k). destruct (obj_get r k); reflexivity.
    + reflexivity.
Qed.

(** [connect] from a disconnected client: when it returns, the client
    holds a transport; when it throws, the client is still disconnected
    and no transport was closed. *)
Lemma connect_from_disconnected config w :
  connected w = false ->
  let '(connecting, w1) := connect (createMcpClient config) w in
  match connecting with
  | Returned _ => connected w1 = true /\ exists t, transport w1 = Some t
  | Threw _ => connected w1 = false
  end.
Proof.
  intros Hoff.
  destruct config as [c|c]; cbn [createMcpClient createStdioClient createHttpClient connect].
  - unfold stdio_connect. run_mcp. rewrite Hoff. run_mcp.
    destruct (sdk_connect _ _) as [[]|e]; cbn; eauto.
  - destruct (new_URL (url c)) as [u|e] eqn:Hurl.
    + rewrite (McpSpec.http_connect_attempts c w u Hoff Hurl).
      destruct (sdk_connect _ (StreamableHTTPClientTransport _ _)) as [[]|e1];
        [|destruct (isClientError e1);
          [destruct (sdk_connect _ (SSEClientTransport _ _)) as [[]|e2]|]];
        cbn; eauto.
    + unfold http_connect. run_mcp. rewrite Hoff, Hurl. reflexivity.
Qed.

(** A session around an operation that leaves the fields of the client
    alone ends with the client disconnected. *)
Lemma session_disconnects config {T} (operation : Eff World T) w :
  (forall v, connected (snd (operation v)) = connected v
             /\ transport (snd (operation v)) = transport v) ->
  connected w = false ->
  connected (snd (withConnection (createMcpClient config) (fun _ => operation) w)) = false.
Proof.
  intros Hop Hoff.
  pose proof (connect_from_disconnected config w Hoff) as Hconnect.
  unfold withConnection, try_finally, bind.
  destruct (connect (createMcpClient config) w) as [[[]|e] w1].
  - destruct Hconnect as (Hon & t & Ht).
    destruct (Hop w1) as [Hc Htr].
    destruct (operation w1) as [outcome w2]. cbn [snd] in Hc, Htr.
    rewrite McpSpec.close_createMcpClient.
    rewrite (McpSpec.client_close_connected w2 t) by congruence. reflexivity.
  - rewrite McpSpec.close_createMcpClient.
    unfold client_close. run_mcp. rewrite Hconnect. reflexivity.
Qed.

Lemma client_listTools_fields v :
  connected (snd (client_listTools v)) = connected v
  /\ transport (snd (client_listTools v)) = transport v.
Proof.
  unfold client_listTools. run_mcp.
  destruct (connected v); cbn; auto.
Qed.

Lemma client_callTool_fields name args v :
  connected (snd (client_callTool name args v)) = connected v
  /\ transport (snd (client_callTool name args v)) = transport v.
Proof.
  unfold client_callTool. run_mcp.
  destruct (connected v) eqn:Hon; cbn; auto;
    match goal with
    | |- context [sdk_callTool ?h ?n ?a] => destruct (sdk_callTool h n a)
    end; cbn; auto.
Qed.

Lemma client_getServerInfo_fields v :
  connected (snd (client_getServerInfo v)) = connected v
  /\ transport (snd (client_getServerInfo v)) = transport v.
Proof.
  unfold client_getServerInfo. run_mcp.
  destruct (sdk_getServerVersion _) as [[? ?]|]; cbn; auto.
Qed.

(** [connect] from a disconnected client: the entry into [connect] is
    followed by the attempts to connect a transport and nothing else;
    when it returns, the last attempt succeeded and its transport is the
    one the client holds. *)
Lemma connect_attempts config w :
  connected w = false ->
  let '(connecting, w1) := connect (createMcpClient config) w in
  exists attempts,
    log w1 = log w ++ Invoked MConnect :: attempts
    /\ (forall ev, In ev attempts -> exists t settled, ev = SdkConnect t settled)
    /\ match connecting with
       | Returned _ =>
           connected w1 = true
           /\ exists t before,
                transport w1 = Some t /\ attempts = before ++ [SdkConnect t (Returned tt)]
       | Threw _ => connected w1 = false
       end.
Proof.
  intros Hoff.
  assert (Hone : forall t settled ev,
            In ev [SdkConnect t settled] -> exists t' settled', ev = SdkConnect t' settled').
  { intros t settled ev [<-|[]]. eauto. }
  assert (Htwo : forall t1 s1 t2 s2 ev,
            In ev [SdkConnect t1 s1; SdkConnect t2 s2] ->
            exists t' settled', ev = SdkConnect t' settled').
  { intros t1 s1 t2 s2 ev [<-|[<-|[]]]; eauto. }
  destruct config as [c|c]; cbn [createMcpClient createStdioClient createHttpClient connect].
  - unfold stdio_connect. run_mcp. rewrite Hoff. run_mcp.
    destruct (sdk_connect _ _) as [[]|e] eqn:Hsettled; cbn [log connected transport];
      eexists; rewrite <- app_assoc; (split; [reflexivity|]); (split; [apply Hone|]).
    + split; [reflexivity|]. eexists _, []. split; reflexivity.
    + reflexivity.
  - destruct (new_URL (url c)) as [u|e] eqn:Hurl.
    + rewrite (McpSpec.http_connect_attempts c w u Hoff Hurl).
      destruct (sdk_connect _ (StreamableHTTPClientTransport _ _)) as [[]|e1] eqn:Hfirst;
        [|destruct (isClientError e1);
          [destruct (sdk_connect _ (SSEClientTransport _ _)) as [[]|e2] eqn:Hsecond|]];
        cbn [log connected transport]; eexists; rewrite <- ?app_assoc; cbn [app];
        (split; [reflexivity|]).
      * split; [apply Hone|]. split; [reflexivity|]. eexists _, []. split; reflexivity.
      * split; [apply Htwo|]. split; [reflexivity|].
        eexists _, [_]. split; reflexivity.
      * split; [apply Htwo | reflexivity].
      * split; [apply Hone | reflexivity].
    + unfold http_connect. run_mcp. rewrite Hoff, Hurl. cbn [log connected].
      exists []. split; [reflexivity|]. split; [intros ev []|reflexivity].
Qed.

(** A session around an operation that leaves the fields of the client
    alone: the operation runs on the connected client and the transport
    is closed after it; when connecting fails there is nothing to close. *)
Lemma session_run config {T} (operation : Eff World T) w :
  (forall v, connected (snd (operation v)) = connected v
             /\ transport (snd (operation v)) = transport v) ->
  let client := createMcpClient config in
  let '(connecting, w1) := connect client w in
  match connecting with
  | Returned _ =>
      forall t, connected w1 = true -> transport w1 = Some t ->
        withConnection client (fun _ => operation) w
        = (fst (operation w1),
           {| connected := false; transport := None;
              log := log (snd (operation w1))
                     ++ [Invoked MClose;
                         TransportClose t
                           (sdk_transport_close
                              (log (snd (operation w1)) ++ [Invoked MClose]) t)] |})
  | Threw e =>
      connected w1 = false ->
      withConnection client (fun _ => operation) w
      = (Threw e,
         {| connected := false; transport := transport w1;
            log := log w1 ++ [Invoked MClose] |})
  end.
Proof.
  intros Hop client. unfold withConnection, try_finally, bind.
  destruct (connect client w) as [[[]|e] w1].
  - intros t Hon Ht. destruct (Hop w1) as [Hc Htr].
    destruct (operation w1) as [outcome w2]. cbn [fst snd] in *.
    unfold client. rewrite McpSpec.close_createMcpClient.
    rewrite (McpSpec.client_close_connected w2 t) by congruence. reflexivity.
  - intros Hoff. unfold client. rewrite McpSpec.close_createMcpClient.
    unfold client_close. run_mcp. rewrite Hoff.
    destruct (transport w1); reflexivity.
Qed.

Lemma getTools_session config :
  getTools (createMcpClient config)
  = withConnection (createMcpClient config) (fun _ => client_listTools).
Proof. destruct config; reflexivity. Qed.

(** X15: from a disconnected client, each of [getTools], [callTool] and
    [getServerInfo] of a session is exactly one connect/close cycle.
    The trace is the entry into [connect] and the attempts to connect a
    transport; then, when the connection is made, what the operation
    records ([listTools]: its entry and the call of the SDK; the other
    two: nothing), the entry into [close] and the closing of the
    transport that was connected; the result is that of the operation
    on the connected client.  When connecting fails the operation is not
    run, the error is the one of [connect], and [close] is entered
    without closing a transport.  Either way the client ends
    disconnected, and a [listTools] or [callTool] made on it afterwards
    is refused with "Client is not connected". *)
Theorem session_is_one_cycle config w name args :
  connected w = false ->
  let client := createMcpClient config in
  let closed (after : list Event) (t : Transport) : World :=
    {| connected := false; transport := None;
       log := after ++ [Invoked MClose;
                        TransportClose t
                          (sdk_transport_close (after ++ [Invoked MClose]) t)] |} in
  let refused (after : World) :=
    fst (listTools client after) = Threw (JsError "Client is not connected")
    /\ fst (client_callTool name args after) = Threw (JsError "Client is not connected") in
  let '(connecting, w1) := connect client w in
  (exists attempts,
     log w1 = log w ++ Invoked MConnect :: attempts
     /\ forall ev, In ev attempts -> exists t settled, ev = SdkConnect t settled)
  /\ match connecting with
     | Returned _ =>
         exists t,
           transport w1 = Some t
           /\ (let listing := sdk_listTools (log w1 ++ [Invoked MListTools]) in
               getTools client w
               = (listing,
                  closed (log w1 ++ [Invoked MListTools; SdkListTools listing]) t))
           /\ callTool client name args w
              = (match sdk_callTool (log w1) name args with
                 | Returned result => Returned (convert_result result)
                 | Threw e => Threw e
                 end,
                 closed (log w1) t)
           /\ getServerInfo client w
              = (Returned match sdk_getServerVersion (log w1) with
                          | Some (serverName, version) =>
                              Object [("name", Str serverName); ("version", Str version)]
                          | None => Undefined
                          end,
                 closed (log w1) t)
     | Threw e =>
         let failed :=
           {| connected := false; transport := transport w1;
              log := log w1 ++ [Invoked MClose] |} in
         getTools client w = (Threw e, failed)
         /\ callTool client name args w = (Threw e, failed)
         /\ getServerInfo client w = (Threw e, failed)
     end
  /\ (connected (snd (getTools client w)) = false /\ refused (snd (getTools client w)))
  /\ (connected (snd (callTool client name args w)) = false
      /\ refused (snd (callTool client name args w)))
  /\ (connected (snd (getServerInfo client w)) = false
      /\ refused (snd (getServerInfo client w))).
Proof.
  intros Hoff client closed refused.
  assert (Hrefused : forall after, connected after = false -> refused after).
  { intros after Hafter. unfold refused, client.
    assert (Hlist : listTools (createMcpClient config) = client_listTools)
      by (destruct config; reflexivity).
    rewrite Hlist. unfold client_listTools, client_callTool. run_mcp.
    rewrite Hafter. split; reflexivity. }
  pose proof (connect_attempts config w Hoff) as Hconnect.
  pose proof (session_run config client_listTools w client_listTools_fields) as Htools.
  pose proof (session_run config (client_callTool name args) w
                (client_callTool_fields name args)) as Hcall.
  pose proof (session_run config client_getServerInfo w client_getServerInfo_fields)
    as Hinfo.
  cbv zeta in Htools, Hcall, Hinfo.
  unfold callTool, getServerInfo. unfold client. rewrite getTools_session. fold client.
  fold client in Hconnect, Htools, Hcall, Hinfo.
  destruct (connect client w) as [[[]|e] w1].
  - destruct Hconnect as (attempts & Hlog & Hall & Hon & t & before & Ht & _).
    rewrite (Htools t Hon Ht), (Hcall t Hon Ht), (Hinfo t Hon Ht).
    assert (Hlisted : client_listTools w1
              = (sdk_listTools (log w1 ++ [Invoked MListTools]),
                 {| connected := true; transport := Some t;
                    log := log w1 ++ [Invoked MListTools;
                                      SdkListTools
                                        (sdk_listTools (log w1 ++ [Invoked MListTools]))] |})).
    { unfold client_listTools. run_mcp. rewrite Hon, Ht. cbn [negb]. run_mcp.
      rewrite <- app_assoc. reflexivity. }
    assert (Hcalled : client_callTool name args w1
              = (match sdk_callTool (log w1) name args with
                 | Returned result => Returned (convert_result result)
                 | Threw e => Threw e
                 end, w1)).
    { unfold client_callTool. run_mcp. rewrite Hon. cbn [negb].
      destruct (sdk_callTool (log w1) name args); reflexivity. }
    assert (Hasked : client_getServerInfo w1
              = (Returned match sdk_getServerVersion (log w1) with
                          | Some (serverName, version) =>
                              Object [("name", Str serverName); ("version", Str version)]
                          | None => Undefined
                          end, w1)).
    { unfold client_getServerInfo. run_mcp.
      destruct (sdk_getServerVersion (log w1)) as [[? ?]|]; reflexivity. }
    rewrite Hlisted, Hcalled, Hasked. cbn [fst snd log].
    split; [eauto|]. split.
    + exists t. split; [exact Ht|]. split; [reflexivity|]. split; reflexivity.
    + split; [|split]; (split; [reflexivity | apply Hrefused; reflexivity]).
  - destruct Hconnect as (attempts & Hlog & Hall & Hfailed).
    rewrite (Htools Hfailed), (Hcall Hfailed), (Hinfo Hfailed). cbn [snd].
    split; [eauto|]. split; [split; [reflexivity|]; split; reflexivity|].
    split; [|split]; (split; [reflexivity | apply Hrefused; reflexivity]).
Qed.

(** X16: [connect] and [close] are idempotent.  On a client that a
    [connect] has just connected, another [connect] returns at once: no
    transport is built and the SDK is not contacted.  After a [close] of
    a client that holds a transport whenever it is connected, another
    [close] does not close anything again. *)
Theorem connect_close_idempotent config w :
  let client := createMcpClient config in
  (forall w1,
     connect client w = (Returned tt, w1) ->
     connect client w1
     = (Returned tt, {| connected := true; transport := transport w1;
                        log := log w1 ++ [Invoked MConnect] |}))
  /\ ((connected w = true -> transport w <> None) ->
      let w1 := snd (close client w) in
      close client w1
      = (Returned tt, {| connected := false; transport := transport w1;
                         log := log w1 ++ [Invoked MClose] |})).
Proof.
  intros client. split.
  - intros w1 Hconnect.
    pose proof (McpSpec.connect_returns_connected config w w1 Hconnect) as Hon.
    unfold client.
    destruct config as [c|c];
      cbn [createMcpClient createStdioClient createHttpClient connect].
    + unfold stdio_connect. run_mcp. rewrite Hon. reflexivity.
    + unfold http_connect. run_mcp. rewrite Hon. reflexivity.
  - intros Hcons w1. subst w1. unfold client.
    rewrite McpSpec.close_createMcpClient.
    assert (Hoff : connected (snd (client_close w)) = false).
    { destruct (connected w) eqn:Hon.
      - destruct (transport w) as [t|] eqn:Ht; [|exfalso; apply Hcons; auto].
        rewrite (McpSpec.client_close_connected w t Hon Ht). reflexivity.
      - unfold client_close. run_mcp. rewrite Hon. reflexivity. }
    unfold client_close at 1. run_mcp. rewrite Hoff. reflexivity.
Qed.

(** X17: over HTTP, when the first attempt succeeds the legacy
    sub-protocol is not tried at all; and whichever attempt succeeded,
    the transport that [close] closes afterwards is the one that was
    connected last. *)
Theorem http_close_matches_connect (c : HttpServerConfig) w u :
  connected w = false ->
  new_URL (url c) = Returned u ->
  let requestInit := {| init_headers := headers c |} in
  let modern := StreamableHTTPClientTransport u requestInit in
  (sdk_connect (log w ++ [Invoked MConnect]) modern = Returned tt ->
   log (snd (http_connect c w))
   = log w ++ [Invoked MConnect; SdkConnect modern (Returned tt)])
  /\ (forall w1,
        http_connect c w = (Returned tt, w1) ->
        exists t before closing,
          log w1 = before ++ [SdkConnect t (Returned tt)]
          /\ client_close w1
             = (Returned tt,
                {| connected := false; transport := None;
                   log := log w1 ++ [Invoked MClose; TransportClose t closing] |})).
Proof.
  intros Hoff Hurl requestInit modern.
  rewrite (McpSpec.http_connect_attempts c w u Hoff Hurl).
  fold requestInit modern. split.
  - intros ->. cbn [snd log]. rewrite <- app_assoc. reflexivity.
  - intros w1.
    destruct (sdk_connect _ modern) as [[]|e1].
    + intros H. injection H as <-.
      do 3 eexists. split; [reflexivity|].
      apply McpSpec.client_close_connected; reflexivity.
    + destruct (isClientError e1); [|discriminate].
      destruct (sdk_connect _ (SSEClientTransport u requestInit)) as [[]|e2];
        [|discriminate].
      intros H. injection H as <-.
      do 3 eexists. split; [reflexivity|].
      apply McpSpec.client_close_connected; reflexivity.
Qed.

Section Execute.
Context {rt : Runtime}.
Import ToolCommand.

(** X18: running a tool command never throws and always ends with its
    client disconnected.  When connecting fails the result is a failure
    that carries the message of the connection error; when the SDK call
    fails, likewise with its message; when the call returns, the result
    is the formatted tool result.  The server is called with the parsed
    option values. *)
Theorem execute_outcomes serverConfig tool config w :
  let client := createMcpClient serverConfig in
  let args := SchemaToOptions.parseOptionValues config
                (SchemaToOptions.toolToOptionSchema tool) in
  let failure e :=
    {| success := false; error := Some (error_text e); data := Undefined;
       message := None |} in
  exists result w',
    Session.execute serverConfig tool config w = (Returned result, w')
    /\ connected w' = false
    /\ match connect client (new_client w) with
       | (Threw e, _) => result = failure e
       | (Returned _, w1) =>
           match sdk_callTool (log w1) (SchemaToOptions.tool_name tool) args with
           | Threw e => result = failure e
           | Returned answer => result = format_result tool (convert_result answer)
           end
       end.
Proof.
  intros client args failure.
  pose proof (session_disconnects serverConfig
                (client_callTool (SchemaToOptions.tool_name tool) args) (new_client w)
                (client_callTool_fields _ _) eq_refl) as Hoff.
  pose proof (McpSpec.connect_returns_connected serverConfig (new_client w)) as Hon.
  unfold Session.execute. fold args client. unfold callTool in *. fold client in Hoff, Hon.
  destruct (withConnection client _ (new_client w)) as [outcome w'] eqn:Hrun.
  cbn [snd] in Hoff.
  exists (ToolCommand.execute tool (fun _ _ => outcome) config), w'.
  split; [reflexivity|]. split; [exact Hoff|].
  unfold withConnection, try_finally, bind in Hrun.
  destruct (connect client (new_client w)) as [[[]|e] w1].
  - specialize (Hon w1 eq_refl).
    unfold client_callTool in Hrun. run_mcp_in Hrun.
    rewrite Hon in Hrun. cbn [negb] in Hrun.
    destruct (sdk_callTool (log w1) _ args) as [answer|e];
      destruct (close client _) as [[[]|e'] w3] eqn:Hclose;
      try (injection Hrun as <- <-; reflexivity);
      exfalso; unfold client in Hclose; rewrite McpSpec.close_createMcpClient in Hclose;
      match type of Hclose with
      | client_close ?v = _ =>
          destruct (McpSpec.client_close_returns v) as (? & Hret & _)
      end; congruence.
  - destruct (close client w1) as [[[]|e'] w3] eqn:Hclose.
    + injection Hrun as <- <-. reflexivity.
    + exfalso. unfold client in Hclose. rewrite McpSpec.close_createMcpClient in Hclose.
      destruct (McpSpec.client_close_returns w1) as (? & Hret & _). congruence.
Qed.

End Execute.
End Facts.

Section Examples.

(** The command keeps its reference, the arguments lose theirs, and the
    configured [PATH] wins over the ambient one. *)
Lemma stdio_spawn_witness :
  exists childEnv settled,
    log (snd (connect (Loader.createMcpClient (environment := sample_environment)
                         (proto := Loader.sample_prototype)
                         sample_process_env (Loader.Stdio sample_stdio)) fresh))
    = [Invoked MConnect;
       SdkConnect
         (StdioClientTransport "$HOME/bin/server" (Some ["--root"; "/home/user/data"])
            childEnv None)
         settled]
    /\ obj_get childEnv "PATH" = Some "/opt/bin"
    /\ obj_get childEnv "API_KEY" = Some "s3cret"
    /\ obj_get childEnv "HOME" = Some "/home/user".
Proof.
  destruct (stdio_spawn (environment := sample_environment)
              (proto := Loader.sample_prototype) sample_stdio fresh eq_refl)
    as (childEnv & settled & Hlog & Hget).
  assert (Hnd : NoDup (keys (default [] (Loader.env sample_stdio))))
    by (apply (bool_decide_unpack _); vm_compute; exact I).
  assert (Hnot : ~ In "__proto__" (keys (default [] (Loader.env sample_stdio))))
    by (cbn; intros H; repeat (destruct H as [H|H]; [discriminate|]); exact H).
  exists childEnv, settled. split; [exact Hlog|].
  split; [exact (Hget Hnd Hnot "PATH")|].
  split; [exact (Hget Hnd Hnot "API_KEY") | exact (Hget Hnd Hnot "HOME")].
Defined.

(** Listing the tools of a process server, then asking the same client
    again. *)
Lemma session_is_one_cycle_witness :
  let client := createMcpClient (environment := sample_environment)
                  (StdioConfig Sample.stdio_config) in
  (exists t closing,
     log (snd (getTools client fresh))
     = [Invoked MConnect; SdkConnect t (Returned tt); Invoked MListTools;
        SdkListTools (Returned [Sample.echo_tool]); Invoked MClose;
        TransportClose t closing])
  /\ connected (snd (getTools client fresh)) = false
  /\ fst (listTools client (snd (getTools client fresh)))
     = Threw (JsError "Client is not connected").
Proof.
  intros client.
  pose proof (session_is_one_cycle (environment := sample_environment)
                (sdk := sample_sdk (Returned sample_answer))
                (StdioConfig Sample.stdio_config) fresh "echo" [] eq_refl) as Hcycle.
  cbv zeta in Hcycle. fold client in Hcycle.
  destruct (connect client fresh) as [connecting w1] eqn:Hconnect.
  vm_compute in Hconnect. injection Hconnect as <- <-.
  destruct Hcycle as (_ & (t & Ht & Htools & _) & (Hoff & Hlist & _) & _).
  split; [|split; [exact Hoff | exact Hlist]].
  rewrite Htools. cbn [snd log]. injection Ht as <-.
  eexists _, _. vm_compute. reflexivity.
Defined.

Lemma connect_close_idempotent_witness :
  let client := createMcpClient (environment := sample_environment)
                  (StdioConfig Sample.stdio_config) in
  let w1 := snd (connect client fresh) in
  connect client w1
  = (Returned tt, {| connected := true; transport := transport w1;
                     log := log w1 ++ [Invoked MConnect] |})
  /\ close client (snd (close client w1))
     = (Returned tt, {| connected := false; transport := None;
                        log := log (snd (close client w1)) ++ [Invoked MClose] |}).
Proof.
  intros client w1. split.
  - refine (proj1 (connect_close_idempotent (environment := sample_environment)
                     (StdioConfig Sample.stdio_config) fresh) w1 _).
    vm_compute. reflexivity.
  - refine (proj2 (connect_close_idempotent (environment := sample_environment)
                     (StdioConfig Sample.stdio_config) w1) _).
    intros _. discriminate.
Defined.

(** The modern attempt is rejected with a 405, the legacy one succeeds. *)
Lemma http_close_matches_connect_witness :
  let env := Sample.environment (Threw Sample.method_not_allowed) (Returned tt)
               (Returned tt) in
  let w1 := snd (http_connect (environment := env) Sample.http_config fresh) in
  exists t before closing,
    log w1 = before ++ [SdkConnect t (Returned tt)]
    /\ client_close (environment := env) w1
       = (Returned tt,
          {| connected := false; transport := None;
             log := log w1 ++ [Invoked MClose; TransportClose t closing] |}).
Proof.
  intros env w1.
  exact (proj2 (http_close_matches_connect (environment := env) Sample.http_config fresh
                  {| href := url Sample.http_config |} eq_refl eq_refl) w1 eq_refl).
Defined.

(** Closing after the fallback closes the SSE transport. *)
Example http_fallback_then_close :
  let env := Sample.environment (Threw Sample.method_not_allowed) (Returned tt)
               (Returned tt) in
  let legacy := SSEClientTransport {| href := url Sample.http_config |}
                  {| init_headers := headers Sample.http_config |} in
  log (snd (client_close (environment := env)
              (snd (http_connect (environment := env) Sample.http_config fresh))))
  = [Invoked MConnect;
     SdkConnect (StreamableHTTPClientTransport {| href := url Sample.http_config |}
                   {| init_headers := headers Sample.http_config |})
                (Threw Sample.method_not_allowed);
     SdkConnect legacy (Returned tt); Invoked MClose;
     TransportClose legacy (Returned tt)].
Proof. vm_compute. reflexivity. Qed.

(** The echo tool answers with a JSON text: the command succeeds with
    the decoded object, and the client is closed although closing the
    transport fails. *)
Lemma execute_outcomes_witness :
  exists w',
    Session.execute (environment := sample_environment)
      (sdk := sample_sdk (Returned sample_answer)) (rt := Sample.runtime)
      (StdioConfig Sample.stdio_config) Sample.tool [("message", Null)] fresh
    = (Returned {| ToolCommand.success := true; ToolCommand.error := None;
                   ToolCommand.data := Object [("a", Number (Num 1))];
                   ToolCommand.message := Some "Tool echo executed successfully" |}, w')
    /\ connected w' = false.
Proof.
  destruct (execute_outcomes (environment := sample_environment)
              (sdk := sample_sdk (Returned sample_answer)) (rt := Sample.runtime)
              (StdioConfig Sample.stdio_config) Sample.tool [("message", Null)] fresh)
    as (result & w' & Hrun & Hoff & Hresult).
  exists w'. vm_compute in Hresult. rewrite Hresult in Hrun.
  split; [exact Hrun | exact Hoff].
Defined.

End Examples.
End SessionSpec.

(** ** Loading the tools of a server: cache first, then the server *)

Module ServerCommandSpec.
Import Js Mcp ServerCommand.
Local Open Scope list_scope.

Ltac run_app :=
  cbv beta iota zeta delta
    [bind try_catch ret throw gets modify settle on_disk on_session set_toolsLoaded
     set_subCommands logger_error new_session createSubCommands];
  cbn [disk session toolsLoaded subCommands logged].

Section Facts.
Context {rt : Runtime} {st : CacheAdmin.Stringifier} {environment : Environment}
        {sdk : Session.Sdk} {factory : CommandFactory}.
Variable configDir : string.


(** X20: on a cache miss [loadTools] never throws.  Either nothing is
    logged, or the result is the empty list and exactly one error naming
    the server is logged; a failure to connect is of the second kind,
    leaves the cache as the read left it and the client disconnected. *)
Theorem loadTools_miss_contained now later name serverConfig s cached fs' :
  Loader.getCachedTools configDir now name (disk s) = (Returned cached, fs') ->
  truthy cached = false ->
  exists out s',
    loadTools configDir now later name serverConfig s = (Returned out, s')
    /\ (logged s' = logged s
        \/ (out = Array []
            /\ exists detail,
                 logged s' = logged s ++ ["Failed to load tools from " +:+ name +:+ ": "
                                          +:+ detail]))
    /\ forall e w1,
         connect (createMcpClient serverConfig) (Session.new_client (session s))
         = (Threw e, w1) ->
         out = Array []
         /\ disk s' = fs'
         /\ connected (session s') = false
         /\ logged s' = logged s ++ ["Failed to load tools from " +:+ name +:+ ": "
                                     +:+ error_text e].
Proof.
  intros Hcached Hmiss. unfold loadTools. run_app. rewrite Hcached, Hmiss.
  run_app.
  set (client := createMcpClient serverConfig).
  set (w0 := Session.new_client (session s)).
  pose proof (SessionSpec.session_disconnects serverConfig client_listTools w0
                SessionSpec.client_listTools_fields eq_refl) as Hoff.
  assert (Hsame : getTools client w0
                  = withConnection client (fun _ => client_listTools) w0).
  { unfold client. destruct serverConfig; reflexivity. }
  fold client in Hoff. rewrite <- Hsame in Hoff.
  assert (Hfail : forall e w1, connect client w0 = (Threw e, w1) ->
            exists w3, getTools client w0 = (Threw e, w3)).
  { intros e w1 Hconnect. unfold getTools, withConnection, try_finally, bind.
    rewrite Hconnect. unfold client. rewrite McpSpec.close_createMcpClient.
    destruct (McpSpec.client_close_returns w1) as (w3 & -> & _). eauto. }
  destruct (getTools client w0) as [[tools|e] w1] eqn:Htools; cbn [snd] in Hoff;
    run_app.
  - destruct (Session.getServerInfo client w1) as [[info|e] w2]; run_app.
    + destruct (setCachedTools configDir later name (Array tools) info fs')
        as [[[]|e] fs'']; run_app.
      * destruct (build_all tools) as [[]|e]; run_app.
        -- do 2 eexists. split; [reflexivity|]. split; [left; reflexivity|].
           intros e w1' Hconnect. destruct (Hfail e w1' Hconnect). congruence.
        -- do 2 eexists. split; [reflexivity|]. split; [right; eauto|].
           intros e' w1' Hconnect. destruct (Hfail e' w1' Hconnect). congruence.
      * do 2 eexists. split; [reflexivity|]. split; [right; eauto|].
        intros e' w1' Hconnect. destruct (Hfail e' w1' Hconnect). congruence.
    + do 2 eexists. split; [reflexivity|]. split; [right; eauto|].
      intros e' w1' Hconnect. destruct (Hfail e' w1' Hconnect). congruence.
  - do 2 eexists. split; [reflexivity|]. split; [right; eauto|].
    intros e' w1' Hconnect. destruct (Hfail e' w1' Hconnect) as [w3 Heq].
    injection Heq as <- <-. cbn. auto.
Qed.

Lemma config_path_not_cache_path name :
  Loader.getConfigPath configDir
  <> Cache.getCacheFilePath (Loader.getCacheDir configDir) name.
Proof.
  unfold Loader.getConfigPath, Cache.getCacheFilePath, Loader.getCacheDir, Cache.path_join.
  rewrite !CacheAdminSpec.string_app_assoc. intros H.
  apply String.app_inj in H. cbv [String.append] in H. discriminate.
Qed.

(** X21: on a cache miss with no configuration file, when the server
    lists its tools and the commands can be built, [loadTools] returns
    the tools and stores them; from then on, for four hours, [loadTools]
    answers from the cache without touching the client, whatever server
    configuration it is given. *)
Theorem loadTools_fetch_then_hit now later name serverConfig s tools info w1 w2 text parsed :
  let client := createMcpClient serverConfig in
  let cachePath := Cache.getCacheFilePath (Loader.getCacheDir configDir) name in
  disk s !! Loader.getConfigPath configDir = None ->
  disk s !! cachePath = None ->
  getTools client (Session.new_client (session s)) = (Returned tools, w1) ->
  Session.getServerInfo client w1 = (Returned info, w2) ->
  build_all tools = Returned tt ->
  CacheAdmin.JSON_stringify
    (Object [("cachedAt", Number (Num later)); ("tools", Array tools);
             ("serverInfo", info)]) = Some text ->
  JSON_parse text = Some parsed ->
  Cache.cachedAt_of parsed = Number (Num later) ->
  Cache.tools_of parsed = Array tools ->
  let loaded :=
    {| disk := <[cachePath := text]> (disk s); session := w2; toolsLoaded := true;
       subCommands := tools; logged := logged s |} in
  loadTools configDir now later name serverConfig s = (Returned (Array tools), loaded)
  /\ forall now' later' serverConfig',
       now' - later < 14400000 ->
       loadTools configDir now' later' name serverConfig' loaded
       = (Returned (Array tools), loaded).
Proof.
  intros client cachePath Hnoconfig Hnoentry Htools Hinfo Hbuild Htext Hparse Hat Hlist loaded.
  assert (Hsettings : forall (fs : Cache.FileSystem),
            fs !! Loader.getConfigPath configDir = None ->
            Loader.getSettings configDir fs = (Returned Loader.DEFAULT_SETTINGS, fs)).
  { intros fs Hnone. unfold Loader.getSettings, bind.
    rewrite LoaderSpec.loadConfig_cases, Hnone. reflexivity. }
  split.
  - unfold loadTools. run_app.
    unfold Loader.getCachedTools, bind at 1. rewrite (Hsettings _ Hnoconfig).
    rewrite CacheSpec.getCachedTools_missing by exact Hnoentry.
    cbn [truthy]. run_app. fold client. rewrite Htools. run_app. rewrite Hinfo. run_app.
    unfold setCachedTools, bind at 1. rewrite (Hsettings _ Hnoconfig).
    rewrite (CacheAdminSpec.setCachedTools_written (Loader.getCacheDir configDir)
               (Loader.settings_in_use Loader.DEFAULT_SETTINGS) later name (Array tools)
               info text _ eq_refl Htext).
    fold cachePath. run_app. rewrite Hbuild. reflexivity.
  - intros now' later' serverConfig' Hfresh.
    unfold loadTools. run_app. subst loaded. cbn [disk toolsLoaded].
    unfold Loader.getCachedTools, bind at 1.
    rewrite Hsettings
      by (rewrite lookup_insert_ne; [exact Hnoconfig|];
          intros Heq; symmetry in Heq; revert Heq; apply config_path_not_cache_path).
    rewrite (CacheSpec.getCachedTools_present (Loader.getCacheDir configDir)
               (Loader.settings_in_use Loader.DEFAULT_SETTINGS) now' name _ text eq_refl
               (lookup_insert_eq _ _ _)).
    rewrite Hparse.
    assert (Hvalid : Cache.isCacheValid now' (Cache.cachedAt_of parsed)
                       (Cache.cacheTtlMs (Loader.settings_in_use Loader.DEFAULT_SETTINGS))
                     = true).
    { rewrite Hat. unfold Cache.isCacheValid. cbn.
      apply Z.ltb_lt. lia. }
    assert (Hserved :
              match parsed with
              | Undefined | Null =>
                  (Returned Undefined, delete cachePath (<[cachePath := text]> (disk s)))
              | _ =>
                  if Cache.isCacheValid now' (Cache.cachedAt_of parsed)
                       (Cache.cacheTtlMs (Loader.settings_in_use Loader.DEFAULT_SETTINGS))
                  then (Returned (Cache.tools_of parsed), <[cachePath := text]> (disk s))
                  else (Returned Undefined,
                        delete cachePath (<[cachePath := text]> (disk s)))
              end
              = (Returned (Array tools), <[cachePath := text]> (disk s))).
    { rewrite Hvalid, Hlist. destruct parsed; try reflexivity; discriminate. }
    fold cachePath. rewrite Hserved. cbn [truthy]. run_app. reflexivity.
Qed.

End Facts.

Section Examples.

Local Abbreviation configDir := "/home/user/.config/my-cli-prettier".

(** A first run against a process server, then a run one hour later. *)
Lemma loadTools_fetch_then_hit_witness :
  let load now :=
    loadTools (rt := Sample.runtime) (st := SampleIo.stringifier)
      (environment := Session.sample_environment)
      (sdk := Session.sample_sdk (Returned Session.sample_answer))
      (factory := sample_factory) configDir now 1020 "alpha"
      (StdioConfig Sample.stdio_config) in
  fst (load 1000 start) = Returned (Array [Sample.echo_tool])
  /\ load 3600000 (snd (load 1000 start))
     = (Returned (Array [Sample.echo_tool]), snd (load 1000 start)).
Proof.
  intros load.
  pose (client := createMcpClient (environment := Session.sample_environment)
                    (StdioConfig Sample.stdio_config)).
  pose (w1 := snd (getTools client (Session.new_client fresh))).
  pose (info := Object [("name", Str "everything"); ("version", Str "1.0.0")]).
  pose (w2 := snd (Session.getServerInfo
                     (sdk := Session.sample_sdk (Returned Session.sample_answer))
                     client w1)).
  pose (text := default "" (CacheAdmin.JSON_stringify (Stringifier := SampleIo.stringifier)
                              (Object [("cachedAt", Number (Num 1020));
                                       ("tools", Array [Sample.echo_tool]);
                                       ("serverInfo", info)]))).
  pose (parsed := default Undefined (JSON_parse (Runtime := Sample.runtime) text)).
  destruct (loadTools_fetch_then_hit (rt := Sample.runtime) (st := SampleIo.stringifier)
              (environment := Session.sample_environment)
              (sdk := Session.sample_sdk (Returned Session.sample_answer))
              (factory := sample_factory) configDir 1000 1020 "alpha"
              (StdioConfig Sample.stdio_config) start [Sample.echo_tool]
              info w1 w2 text parsed
              (lookup_empty _) (lookup_empty _)
              ltac:(vm_compute; reflexivity) ltac:(vm_compute; reflexivity)
              ltac:(vm_compute; reflexivity) ltac:(vm_compute; reflexivity)
              ltac:(vm_compute; reflexivity) ltac:(vm_compute; reflexivity)
              ltac:(vm_compute; reflexivity))
    as [Hfirst Hagain].
  unfold load. rewrite Hfirst. cbn [fst snd].
  split; [reflexivity|]. apply Hagain. lia.
Defined.


(** A first run with an empty cache. *)
Lemma loadTools_miss_contained_witness :
  exists out s',
    loadTools (rt := Sample.runtime) (st := SampleIo.stringifier)
      (environment := Session.sample_environment)
      (sdk := Session.sample_sdk (Returned Session.sample_answer))
      (factory := sample_factory) configDir 1000 1020 "alpha"
      (StdioConfig Sample.stdio_config) start = (Returned out, s')
    /\ (logged s' = []
        \/ (out = Array []
            /\ exists detail,
                 logged s' = [] ++ ["Failed to load tools from " +:+ "alpha" +:+ ": "
                                    +:+ detail])).
Proof.
  destruct (loadTools_miss_contained (rt := Sample.runtime) (st := SampleIo.stringifier)
              (environment := Session.sample_environment)
              (sdk := Session.sample_sdk (Returned Session.sample_answer))
              (factory := sample_factory) configDir 1000 1020 "alpha"
              (StdioConfig Sample.stdio_config) start Undefined (disk start)
              ltac:(vm_compute; reflexivity) eq_refl)
    as (out & s' & Hrun & Hlog & _).
  exists out, s'. split; [exact Hrun | exact Hlog].
Defined.

End Examples.
End ServerCommandSpec.

(** ** The schema mapper: shape of the option schema and of the arguments *)

Module SchemaMapperSpec.
Import Js SchemaToOptions ObjectFacts.
Local Open Scope list_scope.

Lemma obj_set_fresh {V} (o : object V) k v :
  ~ In k (keys o) -> obj_set o k v = o ++ [(k, v)].
Proof.
  induction o as [|[k' v'] o IH]; cbn; intros Hnot; [reflexivity|].
  destruct (String.eqb_spec k' k) as [->|]; [tauto|].
  rewrite IH by tauto. reflexivity.
Qed.

Lemma keys_app {V} (a b : object V) : keys (a ++ b) = keys a ++ keys b.
Proof. apply map_app. Qed.

Lemma required_listed key (requiredSet : list string) :
  existsb (String.eqb key) requiredSet = true <-> In key requiredSet.
Proof.
  rewrite existsb_exists. split.
  - intros (x & Hin & Heq). apply String.eqb_eq in Heq. subst. exact Hin.
  - intros Hin. exists key. split; [exact Hin | apply String.eqb_refl].
Qed.

(** The loop appends one definition per property, numbered from the
    counter on, as long as the keys are new. *)
Lemma add_property_keys requiredSet props :
  forall schema order,
    NoDup (keys props) ->
    (forall k, In k (keys props) -> ~ In k (keys schema)) ->
    keys (fst (fold_left (add_property requiredSet) props (schema, order)))
    = keys schema ++ keys props.
Proof.
  induction props as [|[k p] props IH]; intros schema order Hnd Hfresh; cbn.
  - rewrite app_nil_r. reflexivity.
  - cbn in Hnd. inversion Hnd as [|? ? Hnotin Hnd']; subst.
    rewrite obj_set_fresh by (apply Hfresh; left; reflexivity).
    rewrite IH.
    + rewrite keys_app, <- app_assoc. reflexivity.
    + exact Hnd'.
    + intros k' Hin. rewrite keys_app, in_app_iff. cbn.
      intros [Hold|[->|[]]].
      * apply (Hfresh k'); [right; exact Hin | exact Hold].
      * apply Hnotin, list_elem_of_In. exact Hin.
Qed.

Lemma add_property_nth requiredSet props :
  forall schema order i key prop,
    NoDup (keys props) ->
    props !! i = Some (key, prop) ->
    obj_get (fst (fold_left (add_property requiredSet) props (schema, order))) key
    = jsonSchemaPropertyToOptionDef key prop
        (existsb (String.eqb key) requiredSet) (order + i).
Proof.
  induction props as [|[k p] props IH]; intros schema order i key prop Hnd Hi;
    [discriminate|].
  cbn in Hnd. inversion Hnd as [|? ? Hnotin Hnd']; subst.
  destruct i as [|i]; cbn in Hi |- *.
  - injection Hi as -> ->.
    rewrite SchemaSpec.add_property_other by (intros ?%list_elem_of_In; contradiction).
    rewrite Nat.add_0_r. apply obj_get_set_eq.
  - rewrite (IH _ _ i key prop Hnd' Hi). f_equal. lia.
Qed.

(** X22: the parameter of the property at position [i] carries the order
    [i]; and unless a property is called [__proto__], which the
    assignment that fills the schema would not add, the option schema
    has one parameter per declared property, in the order of the
    declaration. *)
Theorem toolToOptionSchema_in_order tool schema props :
  inputSchema tool = Some schema ->
  properties schema = Some props ->
  NoDup (keys props) ->
  (~ In "__proto__" (keys props) -> keys (toolToOptionSchema tool) = keys props)
  /\ forall i key prop,
       props !! i = Some (key, prop) ->
       exists optionDef,
         obj_get (toolToOptionSchema tool) key = Some optionDef
         /\ opt_order optionDef = i
         /\ jsonSchemaPropertyToOptionDef key prop
              (existsb (String.eqb key) (default [] (required schema))) i
            = Some optionDef.
Proof.
  intros Hschema Hprops Hnd.
  unfold toolToOptionSchema. rewrite Hschema. cbv zeta. rewrite Hprops. split.
  - intros _. rewrite add_property_keys; [reflexivity | exact Hnd | intros k _ []].
  - intros i key prop Hi.
    rewrite (add_property_nth _ _ [] 0%nat i key prop Hnd Hi). cbn [Nat.add].
    unfold jsonSchemaPropertyToOptionDef. eexists. split; [reflexivity|].
    split; reflexivity.
Qed.

(** Two properties; the second one is listed as required. *)
Lemma toolToOptionSchema_in_order_witness :
  let text :=
    {| prop_type := TypeName "string"; prop_description := None;
       prop_default := None; prop_enum := None;
       prop_minimum := None; prop_maximum := None; prop_items := None |} in
  let tool :=
    {| tool_name := "search"; tool_title := None; tool_description := None;
       inputSchema := Some {| properties := Some [("query", text); ("scope", text)];
                              required := Some ["scope"] |} |} in
  keys (toolToOptionSchema tool) = ["query"; "scope"]
  /\ exists optionDef,
       obj_get (toolToOptionSchema tool) "scope" = Some optionDef
       /\ opt_order optionDef = 1%nat.
Proof.
  intros text tool.
  destruct (toolToOptionSchema_in_order tool _ _ eq_refl eq_refl
              ltac:(apply (bool_decide_unpack _); vm_compute; exact I))
    as [Hkeys Hnth].
  split;
    [apply Hkeys; cbn; intros H; repeat (destruct H as [H|H]; [discriminate|]); exact H|].
  destruct (Hnth 1%nat "scope" text eq_refl) as (optionDef & Hget & Horder & _).
  exists optionDef. split; [exact Hget | exact Horder].
Defined.

(** X23: a declared property is mapped to a required parameter exactly
    when the [required] array lists it and it supplies no default. *)
Theorem toolToOptionSchema_required_iff tool schema props key prop :
  inputSchema tool = Some schema ->
  properties schema = Some props ->
  NoDup (keys props) ->
  In (key, prop) props ->
  exists optionDef,
    obj_get (toolToOptionSchema tool) key = Some optionDef
    /\ (opt_required optionDef = true
        <-> In key (default [] (required schema)) /\ prop_default prop = None).
Proof.
  intros Hschema Hprops Hnd Hin.
  unfold toolToOptionSchema. rewrite Hschema. cbv zeta. rewrite Hprops.
  destruct (SchemaSpec.add_property_visited (default [] (required schema)) props key prop
              [] 0%nat Hnd Hin) as [n Hn].
  unfold jsonSchemaPropertyToOptionDef in Hn.
  eexists. split; [exact Hn|]. cbn [opt_required].
  rewrite <- required_listed.
  destruct (prop_default prop) as [dflt|].
  - rewrite bool_decide_true by eauto. split; [discriminate | intros [_ ?]; discriminate].
  - rewrite bool_decide_false by (intros [? ?]; discriminate). tauto.
Qed.

Lemma toolToOptionSchema_required_iff_witness :
  let text :=
    {| prop_type := TypeName "string"; prop_description := None;
       prop_default := None; prop_enum := None;
       prop_minimum := None; prop_maximum := None; prop_items := None |} in
  let tool :=
    {| tool_name := "search"; tool_title := None; tool_description := None;
       inputSchema := Some {| properties := Some [("query", text); ("scope", text)];
                              required := Some ["scope"] |} |} in
  exists optionDef,
    obj_get (toolToOptionSchema tool) "scope" = Some optionDef
    /\ (opt_required optionDef = true
        <-> In "scope" ["scope"] /\ (None : option value) = None).
Proof.
  intros text tool.
  exact (toolToOptionSchema_required_iff tool _ _ "scope" text eq_refl eq_refl
           ltac:(apply (bool_decide_unpack _); vm_compute; exact I)
           (or_intror (or_introl eq_refl))).
Defined.

(** Every entry of the schema under construction was there before or was
    made by the mapper for its own key. *)
Lemma add_property_origin requiredSet props :
  forall schema order key optionDef,
    In (key, optionDef) (fst (fold_left (add_property requiredSet) props (schema, order))) ->
    In (key, optionDef) schema
    \/ exists prop isRequired n,
         jsonSchemaPropertyToOptionDef key prop isRequired n = Some optionDef.
Proof.
  induction props as [|[k p] props IH]; intros schema order key optionDef Hin; cbn in Hin.
  - left. exact Hin.
  - destruct (IH _ _ _ _ Hin) as [Hacc|Hmade]; [|right; exact Hmade].
    apply In_obj_set in Hacc as [[-> ->]|Hacc]; [right|left; exact Hacc].
    do 3 eexists. reflexivity.
Qed.

(** X24: whatever the input schema, every parameter of the option schema
    is labelled with the label of its key, never has an empty list of
    choices, has bounds only if it is a number, and is not required if it
    has a default. *)
Theorem toolToOptionSchema_well_formed tool key optionDef :
  obj_get (toolToOptionSchema tool) key = Some optionDef ->
  opt_label optionDef = Some (keyToLabel key)
  /\ opt_enum optionDef <> Some []
  /\ (opt_type optionDef <> TNumber ->
      opt_min optionDef = None /\ opt_max optionDef = None)
  /\ (opt_default optionDef <> None -> opt_required optionDef = false).
Proof.
  intros Hget. apply obj_get_In in Hget.
  assert (Hmade : exists prop isRequired n,
            jsonSchemaPropertyToOptionDef key prop isRequired n = Some optionDef).
  { unfold toolToOptionSchema in Hget.
    destruct (inputSchema tool) as [schema|]; [|destruct Hget].
    cbv zeta in Hget. destruct (properties schema) as [props|]; [|destruct Hget].
    destruct (add_property_origin _ _ _ _ _ _ Hget) as [[]|H]. exact H. }
  destruct Hmade as (prop & isRequired & n & Hmade).
  unfold jsonSchemaPropertyToOptionDef in Hmade. injection Hmade as <-.
  cbn [opt_label opt_enum opt_type opt_min opt_max opt_default opt_required].
  split; [reflexivity|]. split; [|split].
  - destruct (prop_enum prop) as [[|e es]|]; discriminate.
  - intros Hnot.
    match goal with
    | |- (if ?b then _ else _) = None /\ _ => destruct b eqn:Hnumber
    end; [|split; reflexivity].
    exfalso. apply Hnot.
    match goal with
    | |- ?t = TNumber => destruct t; try discriminate Hnumber; reflexivity
    end.
  - intros Hdflt. destruct (prop_default prop) as [dflt|]; [|contradiction].
    rewrite bool_decide_true by eauto. reflexivity.
Qed.

Lemma toolToOptionSchema_well_formed_witness :
  let limit :=
    {| prop_type := TypeName "string"; prop_description := None;
       prop_default := Some (Str "10"); prop_enum := Some [];
       prop_minimum := Some (Num 1); prop_maximum := Some (Num 50);
       prop_items := None |} in
  let tool :=
    {| tool_name := "search"; tool_title := None; tool_description := None;
       inputSchema := Some {| properties := Some [("page_size", limit)];
                              required := Some ["page_size"] |} |} in
  exists optionDef,
    obj_get (toolToOptionSchema tool) "page_size" = Some optionDef
    /\ opt_label optionDef = Some "Page Size"
    /\ opt_enum optionDef <> Some []
    /\ (opt_type optionDef <> TNumber ->
        opt_min optionDef = None /\ opt_max optionDef = None)
    /\ (opt_default optionDef <> None -> opt_required optionDef = false).
Proof.
  intros limit tool. eexists. split; [vm_compute; reflexivity|].
  exact (toolToOptionSchema_well_formed tool "page_size" _ eq_refl).
Defined.

Section Parse.
Context {rt : Runtime}.

Lemma convert_idempotent type v : convert type (convert type v) = convert type v.
Proof. destruct type, v; reflexivity. Qed.

Lemma convert_typed type v :
  match type with
  | TNumber => exists n, convert type v = Number n
  | TBoolean => exists b, convert type v = Bool b
  | TArray => exists items, convert type v = Array items
  | TString => convert type v = v
  end.
Proof. destruct type, v; cbn; eauto. Qed.

(** Every entry of the result under construction was there before or is
    the conversion of a raw value by the schema's entry for its key. *)
Lemma parse_entries_converted schema values :
  forall acc key v,
    In (key, v) (fold_left (parse_entry schema) values acc) ->
    In (key, v) acc
    \/ exists raw,
         In (key, raw) values
         /\ v = match obj_get schema key with
                | None => raw
                | Some optionDef => convert (opt_type optionDef) raw
                end.
Proof.
  induction values as [|[k raw] values IH]; intros acc key v Hin; cbn in Hin.
  - left. exact Hin.
  - destruct (IH _ _ _ Hin) as [Hacc | (raw' & Hin' & Hv)].
    + unfold parse_entry in Hacc.
      destruct (is_nullish raw); [left; exact Hacc|].
      destruct (obj_get schema k) as [optionDef|] eqn:Hdef;
        apply In_obj_set in Hacc as [[-> ->]|Hacc]; auto; right;
        exists raw; rewrite Hdef; (split; [left; reflexivity | reflexivity]).
    + right. exists raw'. split; [right; exact Hin' | exact Hv].
Qed.

(** X25: an argument whose parameter is declared as a number, a boolean
    or an array reaches the server as a number, a boolean or an array,
    whatever was typed; an argument of a string parameter or of no
    declared parameter is one of the raw values given for its key. *)
Theorem parseOptionValues_typed (values : object value) (schema : OptionSchema) key v :
  obj_get (parseOptionValues values schema) key = Some v ->
  match obj_get schema key with
  | Some optionDef =>
      match opt_type optionDef with
      | TNumber => exists n, v = Number n
      | TBoolean => exists b, v = Bool b
      | TArray => exists items, v = Array items
      | TString => In (key, v) values
      end
  | None => In (key, v) values
  end.
Proof.
  intros Hget. apply obj_get_In in Hget.
  destruct (parse_entries_converted schema values [] key v Hget)
    as [[]|(raw & Hin & ->)].
  destruct (obj_get schema key) as [optionDef|]; [|exact Hin].
  pose proof (convert_typed (opt_type optionDef) raw) as Htyped.
  destruct (opt_type optionDef); [rewrite Htyped; exact Hin | exact Htyped..].
Qed.

(** With unique keys the loop appends one converted entry per value that
    is neither [null] nor [undefined]. *)
Lemma parse_entries_fresh schema values :
  forall acc,
    NoDup (keys values) ->
    (forall k, In k (keys values) -> ~ In k (keys acc)) ->
    fold_left (parse_entry schema) values acc
    = acc ++ omap (fun entry : string * value =>
                     if is_nullish (snd entry) then None
                     else Some (fst entry,
                                match obj_get schema (fst entry) with
                                | None => snd entry
                                | Some optionDef =>
                                    convert (opt_type optionDef) (snd entry)
                                end)) values.
Proof.
  induction values as [|[k raw] values IH]; intros acc Hnd Hfresh; cbn.
  - rewrite app_nil_r. reflexivity.
  - cbn in Hnd. inversion Hnd as [|? ? Hnotin Hnd']; subst.
    destruct (is_nullish raw) eqn:Hraw; cbn.
    + apply IH; [exact Hnd'|]. intros k' Hin. apply Hfresh. right. exact Hin.
    + assert (Hrest : forall v k',
                In k' (keys values) -> ~ In k' (keys (acc ++ [(k, v)]))).
      { intros v k' Hin. rewrite keys_app, in_app_iff. cbn.
        intros [Hold|[->|[]]].
        - apply (Hfresh k'); [right; exact Hin | exact Hold].
        - apply Hnotin, list_elem_of_In. exact Hin. }
      destruct (obj_get schema k) as [optionDef|];
        rewrite obj_set_fresh by (apply Hfresh; left; reflexivity);
        rewrite (IH _ Hnd' (Hrest _)), <- app_assoc; reflexivity.
Qed.

(** X26: the arguments sent to the server are the given values in their
    order, without those that are [null] or [undefined], each converted
    by the type its parameter declares and left alone when no parameter
    is declared for it.  No value is given under the key [__proto__],
    which the assignment that fills the result would not add. *)
Theorem parseOptionValues_entries (values : object value) (schema : OptionSchema) :
  NoDup (keys values) ->
  ~ In "__proto__" (keys values) ->
  parseOptionValues values schema
  = omap (fun entry : string * value =>
            if is_nullish (snd entry) then None
            else Some (fst entry,
                       match obj_get schema (fst entry) with
                       | None => snd entry
                       | Some optionDef => convert (opt_type optionDef) (snd entry)
                       end)) values.
Proof.
  intros Hnd _. unfold parseOptionValues.
  rewrite parse_entries_fresh; [reflexivity | exact Hnd | intros k _ []].
Qed.

Lemma parsed_keys_NoDup schema (values : object value) :
  NoDup (keys values) ->
  NoDup (keys (omap (fun entry : string * value =>
                       if is_nullish (snd entry) then None
                       else Some (fst entry,
                                  match obj_get schema (fst entry) with
                                  | None => snd entry
                                  | Some optionDef =>
                                      convert (opt_type optionDef) (snd entry)
                                  end)) values)).
Proof.
  induction values as [|[k raw] values IH]; intros Hnd; cbn; [constructor|].
  cbn in Hnd. inversion Hnd as [|? ? Hnotin Hnd']; subst.
  destruct (is_nullish raw); cbn; [auto|].
  constructor; [|auto].
  intros Hin. apply Hnotin. apply list_elem_of_In in Hin. apply list_elem_of_In.
  unfold keys in *. apply in_map_iff in Hin as ([k' v'] & Hk & Hin). cbn in Hk. subst k'.
  apply list_elem_of_In, list_elem_of_omap in Hin as ([k0 raw0] & Hin0 & Hsome).
  cbn in Hsome. destruct (is_nullish raw0); [discriminate|].
  injection Hsome as -> _. apply in_map_iff. exists (k, raw0).
  split; [reflexivity | apply list_elem_of_In; exact Hin0].
Qed.

(** X27: parsing is idempotent: arguments that went through
    [parseOptionValues] come out of it unchanged. *)
Theorem parseOptionValues_idempotent (values : object value) (schema : OptionSchema) :
  NoDup (keys values) ->
  parseOptionValues (parseOptionValues values schema) schema
  = parseOptionValues values schema.
Proof.
  intros Hnd. unfold parseOptionValues.
  rewrite (parse_entries_fresh schema values []); [|exact Hnd | intros k _ []].
  cbn [app].
  rewrite parse_entries_fresh;
    [|apply parsed_keys_NoDup; exact Hnd | intros k _ []].
  cbn [app]. clear Hnd. induction values as [|[k raw] values IH]; cbn; [reflexivity|].
  destruct (is_nullish raw) eqn:Hraw; cbn; [exact IH|].
  rewrite IH.
  destruct (obj_get schema k) as [optionDef|]; cbn.
  - rewrite SchemaSpec.convert_not_nullish by exact Hraw.
    rewrite convert_idempotent. reflexivity.
  - rewrite Hraw. reflexivity.
Qed.



End Parse.

(** *** Splitting and trimming *)











(** A number typed on the command line. *)
Lemma parseOptionValues_typed_witness :
  exists n, Number (Num 42) = Number n.
Proof.
  exact (parseOptionValues_typed (rt := Sample.runtime) [("n", Str "42")] Sample.schema
           "n" (Number (Num 42)) ltac:(vm_compute; reflexivity)).
Defined.

Lemma parseOptionValues_entries_witness :
  parseOptionValues (rt := Sample.runtime)
    [("n", Str "42"); ("missing", Null); ("extra", Bool false)] Sample.schema
  = [("n", Number (Num 42)); ("extra", Bool false)].
Proof.
  rewrite (parseOptionValues_entries (rt := Sample.runtime)
             [("n", Str "42"); ("missing", Null); ("extra", Bool false)] Sample.schema
             ltac:(apply (bool_decide_unpack _); vm_compute; exact I)
             ltac:(cbn; intros H; repeat (destruct H as [H|H]; [discriminate|]);
                   exact H)).
  vm_compute. reflexivity.
Defined.

Lemma parseOptionValues_idempotent_witness :
  let values := [("n", Str "42"); ("b", Str "1"); ("a", Str "x, y ,z")] in
  parseOptionValues (rt := Sample.runtime)
    (parseOptionValues (rt := Sample.runtime) values Sample.schema) Sample.schema
  = parseOptionValues (rt := Sample.runtime) values Sample.schema.
Proof.
  intros values.
  exact (parseOptionValues_idempotent (rt := Sample.runtime) values Sample.schema
           ltac:(apply (bool_decide_unpack _); vm_compute; exact I)).
Defined.

(** *** Labels and texts shown for a tool *)

Lemma toUpperCase_not_lower c : is_lower (toUpperCase c) = false.
Proof. destruct c as [[] [] [] [] [] [] [] []]; vm_compute; reflexivity. Qed.

Lemma toUpperCase_underscore c : toUpperCase c = "_"%char -> c = "_"%char.
Proof. destruct c as [[] [] [] [] [] [] [] []]; vm_compute; congruence. Qed.

Lemma underscores_to_spaces_chars s c :
  In c (list_ascii_of_string (underscores_to_spaces s)) -> c <> "_"%char.
Proof.
  induction s as [|a rest IH]; cbn; [tauto|].
  intros [<-|Hin]; [|auto].
  destruct (Ascii.eqb_spec a "_"); [discriminate | assumption].
Qed.

Lemma split_camel_chars s c :
  In c (list_ascii_of_string (split_camel s)) ->
  In c (list_ascii_of_string s) \/ c = " "%char.
Proof.
  induction s as [|a rest IH]; [cbn; tauto|].
  destruct rest as [|b rest'].
  - cbn. tauto.
  - change (split_camel (String a (String b rest')))
      with (if is_lower a && is_upper b
            then String a (String " " (split_camel (String b rest')))
            else String a (split_camel (String b rest'))).
    destruct (is_lower a && is_upper b);
      cbn [list_ascii_of_string In]; intros H.
    + destruct H as [<-|[<-|H]]; [left; left; reflexivity | right; reflexivity|].
      destruct (IH H) as [?|?]; [left; right; assumption | right; assumption].
    + destruct H as [<-|H]; [left; left; reflexivity|].
      destruct (IH H) as [?|?]; [left; right; assumption | right; assumption].
Qed.

Lemma capitalize_words_underscore prev s :
  In "_"%char (list_ascii_of_string (capitalize_words prev s)) ->
  In "_"%char (list_ascii_of_string s).
Proof.
  revert prev. induction s as [|a rest IH]; intros prev; cbn; [tauto|].
  intros [Heq|Hin]; [left | right; eauto].
  destruct (is_word a && negb prev); [apply toUpperCase_underscore|]; exact Heq.
Qed.

Lemma underscores_to_spaces_length s :
  String.length (underscores_to_spaces s) = String.length s.
Proof. induction s as [|a rest IH]; cbn; congruence. Qed.

Lemma split_camel_length s : (String.length s <= String.length (split_camel s))%nat.
Proof.
  induction s as [|a rest IH]; [cbn; lia|].
  destruct rest as [|b rest'].
  - cbn. lia.
  - change (split_camel (String a (String b rest')))
      with (if is_lower a && is_upper b
            then String a (String " " (split_camel (String b rest')))
            else String a (split_camel (String b rest'))).
    destruct (is_lower a && is_upper b); cbn [String.length] in *; lia.
Qed.

Lemma capitalize_words_length prev s :
  String.length (capitalize_words prev s) = String.length s.
Proof. revert prev. induction s as [|a rest IH]; intros prev; cbn; congruence. Qed.

Lemma keyToLabel_length key : (String.length key <= String.length (keyToLabel key))%nat.
Proof.
  unfold keyToLabel. rewrite capitalize_words_length.
  etransitivity; [|apply split_camel_length].
  rewrite underscores_to_spaces_length. reflexivity.
Qed.

Lemma split_camel_head a rest : exists rest', split_camel (String a rest) = String a rest'.
Proof. destruct rest as [|b rest']; cbn; [eauto|]. destruct (is_lower a && is_upper b); eauto. Qed.

(** X29: a label contains no underscore, is at least as long as its key
    and never starts with a lower-case letter. *)
Theorem keyToLabel_shape key :
  ~ In "_"%char (list_ascii_of_string (keyToLabel key))
  /\ (String.length key <= String.length (keyToLabel key))%nat
  /\ match keyToLabel key with
     | String c _ => is_lower c = false
     | EmptyString => key = ""
     end.
Proof.
  split; [|split].
  - unfold keyToLabel. intros Hin.
    apply capitalize_words_underscore, split_camel_chars in Hin as [Hin|Hin];
      [|discriminate].
    exact (underscores_to_spaces_chars _ _ Hin eq_refl).
  - apply keyToLabel_length.
  - destruct key as [|a rest]; [reflexivity|].
    unfold keyToLabel. cbn [underscores_to_spaces].
    destruct (split_camel_head (if Ascii.eqb a "_" then " "%char else a)
                (underscores_to_spaces rest)) as [rest' ->].
    cbn [capitalize_words].
    destruct (is_word _ && negb false) eqn:Hword; [apply toUpperCase_not_lower|].
    rewrite andb_true_r in Hword. unfold is_word in Hword.
    repeat (apply orb_false_elim in Hword as [Hword _]). exact Hword.
Qed.

Lemma keyToLabel_shape_witness :
  ~ In "_"%char (list_ascii_of_string (keyToLabel "max_results")).
Proof. exact (proj1 (keyToLabel_shape "max_results")). Defined.

(** X30: the description shown for a tool is never empty, and the name
    shown for it is empty only if the tool has an empty name; a title
    that is present and not empty is shown as it is. *)
Theorem tool_texts_not_empty tool :
  getToolDescription tool <> ""
  /\ (getToolDisplayName tool = "" -> tool_name tool = "")
  /\ (forall title, tool_title tool = Some title -> title <> "" ->
        getToolDisplayName tool = title).
Proof.
  assert (Hlabel : keyToLabel (tool_name tool) = "" -> tool_name tool = "").
  { intros Hempty. pose proof (keyToLabel_length (tool_name tool)) as Hlen.
    rewrite Hempty in Hlen. destruct (tool_name tool); [reflexivity | cbn in Hlen; lia]. }
  split; [|split].
  - unfold getToolDescription.
    destruct (tool_description tool) as [d|]; [destruct (truthy_string d) eqn:E|];
      try (cbv [String.append]; discriminate).
    apply ToolCommandSpec.truthy_string_spec. exact E.
  - unfold getToolDisplayName.
    destruct (tool_title tool) as [t|]; [destruct (truthy_string t) eqn:E|]; auto.
    intros ->. discriminate E.
  - intros title Htitle Hne. unfold getToolDisplayName. rewrite Htitle.
    apply ToolCommandSpec.truthy_string_spec in Hne. rewrite Hne. reflexivity.
Qed.

Lemma tool_texts_not_empty_witness :
  let tool :=
    {| tool_name := "list_files"; tool_title := Some "Files"; tool_description := None;
       inputSchema := None |} in
  getToolDisplayName tool = "Files".
Proof.
  intros tool.
  refine (proj2 (proj2 (tool_texts_not_empty tool)) "Files" eq_refl _). discriminate.
Defined.

End SchemaMapperSpec.
